(** * carpet-layout: the drawing canvas and its undo/redo history

    A shallow embedding of [src/store/historyStore.ts], of the zoom part of
    [src/store/canvasStore.ts] and of the event handlers of the canvas
    component: keyboard, pointer, double click and wheel
    ([handleKeyboardDown], [handleMouseDown], [handleMouseMove],
    [handleMouseUp], [handleDblClick], [handlePassiveWheel]), the zoom
    controls, the handlers that move a shape ([handleShapeDragEnd],
    [updateAnnotations], the drag handlers of lines and curves) and the
    handlers of the text box.

    Conventions.
    - A JavaScript [number] is an exact rational ([Q]); rounding of IEEE
      doubles is not modelled.  [Math.sqrt] is the one operation that leaves
      the rationals; see [Math_sqrt].  What would rest on rounding errors
      cancelling (a sum undone by a difference, a sum of quotients) is
      stated for whole numbers, where the arithmetic of the code is exact.
    - An optional field ([width?: number]) is an [option]; [null] in a
      [T | null] state is [None].
    - Array indices and [length] are integers ([Z]), as the store compares
      them with [-1] and [length - 1]. *)

From Stdlib Require Import ZArith QArith Qabs Qminmax List String Bool Sorted.
From Stdlib Require Import Lia Lqa.
Import ListNotations.

Open Scope string_scope.
Open Scope list_scope.
Open Scope Z_scope.

(** ** JavaScript helpers *)

Module JS.

Definition number := Q.

Definition length {A} (l : list A) : Z := Z.of_nat (List.length l).

(** [l[i]]: [undefined] outside [0 .. length-1]. *)
Definition get {A} (l : list A) (i : Z) : option A :=
  if i <? 0 then None else nth_error l (Z.to_nat i).

(** Relative index of [Array.prototype.slice]: a negative argument counts
    from the end, and the result is clamped to [0 .. len]. *)
Definition rel_index (len i : Z) : Z :=
  if i <? 0 then Z.max (len + i) 0 else Z.min i len.

(** [l.slice(start, end)]. *)
Definition slice {A} (l : list A) (start end_ : Z) : list A :=
  let len := length l in
  let k := rel_index len start in
  let final := rel_index len end_ in
  firstn (Z.to_nat (final - k)) (skipn (Z.to_nat k) l).

(** [l.slice(start)]. *)
Definition slice_from {A} (l : list A) (start : Z) : list A :=
  slice l start (length l).

(** [JSON.parse(JSON.stringify(v))] builds a structurally equal value that
    shares nothing with [v]; values of the embedding have no identity, so
    the copy is the value itself. *)
Definition JSON_copy {A} (v : A) : A := v.

(** [a < b] on numbers. *)
Definition ltb (a b : number) : bool :=
  match Qcompare a b with Lt => true | _ => false end.

(** [a > b] on numbers. *)
Definition gtb (a b : number) : bool := ltb b a.

(** [v || 0] for an optional number. *)
Definition or_zero (v : option number) : number :=
  match v with Some n => n | None => 0%Q end.

(** Truthiness of a [string | null]: [null] and the empty string are
    falsy. *)
Definition truthy (v : option string) : bool :=
  match v with
  | Some s => negb (String.eqb s EmptyString)
  | None => false
  end.

End JS.

(** ** Data model (the interfaces at the top of the canvas component) *)

Module BezierPoint.
Record t := mk {
  x : JS.number;
  y : JS.number;
  controlX1 : option JS.number;
  controlY1 : option JS.number;
  controlX2 : option JS.number;
  controlY2 : option JS.number
}.
End BezierPoint.

Module Shape.
Record t := mk {
  id : string;
  type : string;
  x : JS.number;
  y : JS.number;
  width : option JS.number;
  height : option JS.number;
  radius : option JS.number;
  points : option (list JS.number);
  bezierPoints : option (list BezierPoint.t);
  stroke : string;
  strokeWidth : JS.number;
  fill : string;
  draggable : bool;
  text : option string;
  fontSize : option JS.number;
  fontFamily : option string;
  textAlign : option string;
  fontStyle : option string
}.

(** [{...s, draggable: d}] *)
Definition with_draggable (d : bool) (s : t) : t :=
  mk (id s) (type s) (x s) (y s) (width s) (height s) (radius s) (points s)
     (bezierPoints s) (stroke s) (strokeWidth s) (fill s) d (text s)
     (fontSize s) (fontFamily s) (textAlign s) (fontStyle s).

(** [{...s, points: p}] *)
Definition with_points (p : list JS.number) (s : t) : t :=
  mk (id s) (type s) (x s) (y s) (width s) (height s) (radius s) (Some p)
     (bezierPoints s) (stroke s) (strokeWidth s) (fill s) (draggable s)
     (text s) (fontSize s) (fontFamily s) (textAlign s) (fontStyle s).

(** [{...s, bezierPoints: p}] *)
Definition with_bezierPoints (p : list BezierPoint.t) (s : t) : t :=
  mk (id s) (type s) (x s) (y s) (width s) (height s) (radius s) (points s)
     (Some p) (stroke s) (strokeWidth s) (fill s) (draggable s)
     (text s) (fontSize s) (fontFamily s) (textAlign s) (fontStyle s).

(** [{...s, radius: r}] *)
Definition with_radius (r : JS.number) (s : t) : t :=
  mk (id s) (type s) (x s) (y s) (width s) (height s) (Some r) (points s)
     (bezierPoints s) (stroke s) (strokeWidth s) (fill s) (draggable s)
     (text s) (fontSize s) (fontFamily s) (textAlign s) (fontStyle s).

(** [{...s, width: w, height: h, x: rx, y: ry}] *)
Definition with_rect (w h rx ry : JS.number) (s : t) : t :=
  mk (id s) (type s) rx ry (Some w) (Some h) (radius s) (points s)
     (bezierPoints s) (stroke s) (strokeWidth s) (fill s) (draggable s)
     (text s) (fontSize s) (fontFamily s) (textAlign s) (fontStyle s).
End Shape.

Module Guideline.
Record t := mk {
  points : list JS.number;
  text : option string;
  textPosition : option (JS.number * JS.number)
}.
End Guideline.

Module Annotation.
(** [AnnotationProps extends GuidelineProps]. *)
Record t := mk {
  points : list JS.number;
  text : option string;
  textPosition : option (JS.number * JS.number);
  shapeId : string
}.

(** [{...guide, shapeId}] *)
Definition of_guideline (shapeId : string) (g : Guideline.t) : t :=
  mk (Guideline.points g) (Guideline.text g) (Guideline.textPosition g)
     shapeId.
End Annotation.

Module Joint.
Record t := mk {
  id : string;
  x : JS.number;
  y : JS.number;
  radius : JS.number;
  fill : string;
  stroke : string
}.
End Joint.

(** ** The history store ([src/store/historyStore.ts]) *)

Module HistoryStore.

Record HistoryState := mkState {
  shapes : list Shape.t;
  annotations : list Annotation.t
}.

Record HistoryRecord := mkRecord {
  state : HistoryState;
  description : string
}.

Record t := mk {
  history : list HistoryRecord;
  currentIndex : Z;
  maxHistorySize : Z;
  isSaved : bool
}.

Definition initial : t :=
  {| history := []; currentIndex := -1; maxHistorySize := 30;
     isSaved := true |}.

(** The record [addHistory] appends. *)
Definition newRecord (st : HistoryState) (description : string)
  : HistoryRecord :=
  {| state := {| shapes := JS.JSON_copy (shapes st);
                 annotations := JS.JSON_copy (annotations st) |};
     description := description |}.

Definition addHistory (st : HistoryState) (description : string) (s : t)
  : t :=
  let newHistory :=
    if currentIndex s <? JS.length (history s) - 1
    then JS.slice (history s) 0 (currentIndex s + 1)
    else history s in
  let newHistory := newHistory ++ [newRecord st description] in
  let newHistory :=
    if JS.length newHistory >? maxHistorySize s
    then JS.slice_from newHistory (JS.length newHistory - maxHistorySize s)
    else newHistory in
  {| history := newHistory;
     currentIndex := JS.length newHistory - 1;
     maxHistorySize := maxHistorySize s;
     isSaved := false |}.

(** [history[i]?.state || null] *)
Definition state_at (s : t) (i : Z) : option HistoryState :=
  option_map state (JS.get (history s) i).

Definition set_index (i : Z) (s : t) : t :=
  {| history := history s; currentIndex := i;
     maxHistorySize := maxHistorySize s; isSaved := false |}.

Definition undo (s : t) : option HistoryState * t :=
  if currentIndex s <=? 0 then (None, s)
  else
    let newIndex := currentIndex s - 1 in
    (state_at s newIndex, set_index newIndex s).

Definition redo (s : t) : option HistoryState * t :=
  if currentIndex s >=? JS.length (history s) - 1 then (None, s)
  else
    let newIndex := currentIndex s + 1 in
    (state_at s newIndex, set_index newIndex s).

Definition getCurrentState (s : t) : option HistoryState :=
  if (currentIndex s >=? 0) && (currentIndex s <? JS.length (history s))
  then state_at s (currentIndex s)
  else None.

Definition resetHistory (s : t) : t :=
  {| history := []; currentIndex := -1;
     maxHistorySize := maxHistorySize s; isSaved := true |}.

Definition canUndo (s : t) : bool := currentIndex s >? 0.

Definition canRedo (s : t) : bool :=
  currentIndex s <? JS.length (history s) - 1.

Definition setSaved (saved : bool) (s : t) : t :=
  {| history := history s; currentIndex := currentIndex s;
     maxHistorySize := maxHistorySize s; isSaved := saved |}.

(** The calls a client can make on the store. *)
Inductive Call :=
| AddHistory (st : HistoryState) (description : string)
| Undo
| Redo
| ResetHistory
| SetSaved (saved : bool).

Definition call (s : t) (c : Call) : t :=
  match c with
  | AddHistory st d => addHistory st d s
  | Undo => snd (undo s)
  | Redo => snd (redo s)
  | ResetHistory => resetHistory s
  | SetSaved b => setSaved b s
  end.

(** The store after a sequence of calls, from the initial state. *)
Definition run (cs : list Call) : t := fold_left call cs initial.

(** What every reachable store satisfies. *)
Definition Inv (s : t) : Prop :=
  maxHistorySize s = 30
  /\ JS.length (history s) <= 30
  /\ ((currentIndex s = -1 /\ history s = [])
      \/ 0 <= currentIndex s < JS.length (history s)).

End HistoryStore.

(** ** Numeric helpers of the canvas *)

Module Num.

Open Scope Q_scope.

(** [Math.sqrt]: the root is not rational in general; the embedding rounds
    it down to a multiple of [2^-52] (the spacing of doubles in [1, 2)).
    Comparing the result with an integer is exact, see
    [Facts.Math_sqrt_lt_int]. *)
Definition Math_sqrt (a : JS.number) : JS.number :=
  Qmake (Z.sqrt (Qnum a * 4 ^ 52 / Zpos (Qden a))) (2 ^ 52).

(** [l[i]] for a number array that holds an entry at [i].  Outside the
    array the source reads [undefined] and computes with [NaN]; neither is a
    value of the embedding, which reads [0] there. *)
Definition nth (l : list JS.number) (i : Z) : JS.number :=
  match JS.get l i with Some v => v | None => 0 end.

Definition pointToLineDistance (px py x1 y1 x2 y2 : JS.number) : JS.number :=
  let A := px - x1 in
  let B := py - y1 in
  let C := x2 - x1 in
  let D := y2 - y1 in
  let dot := A * C + B * D in
  let lenSq := C * C + D * D in
  let param := if Qeq_bool lenSq 0 then - (1) else dot / lenSq in
  let '(xx, yy) :=
    if JS.ltb param 0 then (x1, y1)
    else if JS.gtb param 1 then (x2, y2)
    else (x1 + param * C, y1 + param * D) in
  let dx := px - xx in
  let dy := py - yy in
  Math_sqrt (dx * dx + dy * dy).

(** The [for] loop of [simplifyPoints], [n] iterations left at most. *)
Fixpoint simplifyLoop (n : nat) (points : list JS.number)
  (tolerance : JS.number) (i : Z) (result : list JS.number)
  : list JS.number :=
  match n with
  | O => result
  | S n' =>
      if (i <? JS.length points - 2)%Z then
        let x1 := nth points (i - 2) in
        let y1 := nth points (i - 1) in
        let x2 := nth points i in
        let y2 := nth points (i + 1) in
        let x3 := nth points (i + 2) in
        let y3 := nth points (i + 3) in
        let distance := pointToLineDistance x2 y2 x1 y1 x3 y3 in
        let result :=
          if JS.gtb distance tolerance then result ++ [x2; y2] else result in
        simplifyLoop n' points tolerance (i + 2) result
      else result
  end.

Definition simplifyPoints (points : list JS.number) (tolerance : JS.number)
  : list JS.number :=
  if (JS.length points <=? 4)%Z then points
  else
    let result := [nth points 0; nth points 1] in
    let result :=
      simplifyLoop (List.length points) points tolerance 2 result in
    result ++ [nth points (JS.length points - 2);
               nth points (JS.length points - 1)].

End Num.

(** ** The stores the canvas reads *)

Module Tool.
(** [ToolType] of the tools store. *)
Inductive t :=
| select | rectangle | circle | line | polygon | path | doorTemplate
| text | canvas | brush | color | view | arrange | transform.

Definition eqb (a b : t) : bool :=
  match a, b with
  | select, select | rectangle, rectangle | circle, circle | line, line
  | polygon, polygon | path, path | doorTemplate, doorTemplate
  | text, text | canvas, canvas | brush, brush | color, color
  | view, view | arrange, arrange | transform, transform => true
  | _, _ => false
  end.
End Tool.

Module CanvasStore.

Open Scope Q_scope.

Definition MIN_ZOOM : JS.number := 10.
Definition MAX_ZOOM : JS.number := 1000.

Record t := mk {
  width : JS.number;
  height : JS.number;
  zoom : JS.number;
  pan : JS.number * JS.number
}.

(** The initial state: the MEDIUM preset at the default zoom. *)
Definition initial : t :=
  {| width := 3000; height := 4000; zoom := 100; pan := (0, 0) |}.

Definition setZoom (z : JS.number) (s : t) : t :=
  {| width := width s; height := height s;
     zoom := Qmin (Qmax z MIN_ZOOM) MAX_ZOOM; pan := pan s |}.

Definition setPan (x y : JS.number) (s : t) : t :=
  {| width := width s; height := height s; zoom := zoom s; pan := (x, y) |}.

End CanvasStore.

Module DrawingStore.

Record t := mk {
  strokeColor : string;
  fillColor : string;
  strokeWidth : JS.number;
  textStrokeWidth : JS.number;
  hasFill : bool;
  fontSize : JS.number;
  fontFamily : string;
  textAlign : string;
  fontStyle : string
}.

Definition initial : t :=
  {| strokeColor := "#000000"; fillColor := "#4287f5"; strokeWidth := 10%Q;
     textStrokeWidth := 0%Q; hasFill := false; fontSize := 18%Q;
     fontFamily := "Arial"; textAlign := "left"; fontStyle := "normal" |}.

End DrawingStore.

(** ** The canvas component *)

Module AlignmentGuide.
Record t := mk { points : list JS.number }.
End AlignmentGuide.

Module KeyboardEvent.
Record t := mk {
  code : string;
  key : string;
  ctrlKey : bool;
  metaKey : bool;
  shiftKey : bool
}.
End KeyboardEvent.

Module MouseEvent.
(** What the handlers read from a Konva pointer event: the pointer position
    of the stage in screen coordinates ([stage.getPointerPosition()], [None]
    when the stage or the position is missing) and whether the target is the
    stage itself ([e.target === e.target.getStage()]). *)
Record t := mk {
  pointer : option (JS.number * JS.number);
  onStage : bool
}.
End MouseEvent.

Module WheelEvent.
Record t := mk {
  deltaY : JS.number;
  ctrlKey : bool;
  metaKey : bool
}.
End WheelEvent.

Module Canvas.

Open Scope Q_scope.

Definition Point : Type := JS.number * JS.number.

(** The [useState] cells of the component that the modelled handlers read or
    write.  The cells [textValue], [showTextHelp] and [dragOrigin] are
    added in [Component.t] below; [textPosition] and [activeHandle] belong
    to code that is not modelled.  [activeControlPoint] has no setter in
    the source: its index stays [-1]. *)
Record State := mkState {
  shapes : list Shape.t;
  selectedId : option string;
  guidelines : list Guideline.t;
  annotations : list Annotation.t;
  alignmentGuides : list AlignmentGuide.t;
  isDrawing : bool;
  startPoint : option Point;
  currentShapeId : option string;
  currentPath : list BezierPoint.t;
  lastMousePos : option Point;
  isSpacePressed : bool;
  lastPosition : Point;
  continuousDrawing : bool;
  linePoints : list JS.number;
  lineSegments : list Shape.t;
  joints : list Joint.t;
  mouseCaptured : bool;
  editingText : option string
}.

Definition initialState : State :=
  {| shapes := []; selectedId := None; guidelines := []; annotations := [];
     alignmentGuides := []; isDrawing := false; startPoint := None;
     currentShapeId := None; currentPath := []; lastMousePos := None;
     isSpacePressed := false; lastPosition := (0, 0);
     continuousDrawing := false; linePoints := []; lineSegments := [];
     joints := []; mouseCaptured := false; editingText := None |}.

(** A callback handed to [setTimeout], with the values its closure holds. *)
Inductive Timer :=
| NextSegment (closureShapes : list Shape.t) (lineEndX lineEndY : JS.number)
    (strokeColor : string) (strokeWidth : JS.number)
| EnterTextEdit (id : string).

(** The component state together with the stores it uses and the pending
    timers. *)
Record World := mkWorld {
  ui : State;
  activeTool : Tool.t;
  canvas : CanvasStore.t;
  drawing : DrawingStore.t;
  history : HistoryStore.t;
  timers : list Timer
}.

(** *** State updates

    A handler runs with the values of the render it was created in (its
    closure, a [World]) and queues updates.  An update is a function on the
    pending world: [setX v] replaces the pending value of [x] and
    [setX (prev => f prev)] transforms it, so that in one handler a later
    plain [setX v] supersedes the earlier ones.  Updates of the stores take
    effect at once and are threaded the same way. *)
Definition Update : Type := World -> World.

Definition skip : Update := fun p => p.

Definition seq (u v : Update) : Update := fun p => v (u p).

Notation "u ;; v" := (seq u v) (at level 61, right associativity).

Definition with_ui (f : State -> State) : Update :=
  fun p => mkWorld (f (ui p)) (activeTool p) (canvas p) (drawing p)
             (history p) (timers p).

Definition with_canvas (f : CanvasStore.t -> CanvasStore.t) : Update :=
  fun p => mkWorld (ui p) (activeTool p) (f (canvas p)) (drawing p)
             (history p) (timers p).

Definition with_history (f : HistoryStore.t -> HistoryStore.t) : Update :=
  fun p => mkWorld (ui p) (activeTool p) (canvas p) (drawing p)
             (f (history p)) (timers p).

Definition with_timers (f : list Timer -> list Timer) : Update :=
  fun p => mkWorld (ui p) (activeTool p) (canvas p) (drawing p)
             (history p) (f (timers p)).

Definition setActiveTool (tool : Tool.t) : Update :=
  fun p => mkWorld (ui p) tool (canvas p) (drawing p) (history p) (timers p).

Definition setTimeout (t : Timer) : Update :=
  with_timers (fun ts => ts ++ [t]).

Definition setShapes (v : list Shape.t) : Update :=
  with_ui (fun s => mkState v (selectedId s) (guidelines s) (annotations s)
    (alignmentGuides s) (isDrawing s) (startPoint s) (currentShapeId s)
    (currentPath s) (lastMousePos s) (isSpacePressed s) (lastPosition s)
    (continuousDrawing s) (linePoints s) (lineSegments s) (joints s)
    (mouseCaptured s) (editingText s)).

Definition setSelectedId (v : option string) : Update :=
  with_ui (fun s => mkState (shapes s) v (guidelines s) (annotations s)
    (alignmentGuides s) (isDrawing s) (startPoint s) (currentShapeId s)
    (currentPath s) (lastMousePos s) (isSpacePressed s) (lastPosition s)
    (continuousDrawing s) (linePoints s) (lineSegments s) (joints s)
    (mouseCaptured s) (editingText s)).

Definition setGuidelines (v : list Guideline.t) : Update :=
  with_ui (fun s => mkState (shapes s) (selectedId s) v (annotations s)
    (alignmentGuides s) (isDrawing s) (startPoint s) (currentShapeId s)
    (currentPath s) (lastMousePos s) (isSpacePressed s) (lastPosition s)
    (continuousDrawing s) (linePoints s) (lineSegments s) (joints s)
    (mouseCaptured s) (editingText s)).

Definition setAnnotations (v : list Annotation.t) : Update :=
  with_ui (fun s => mkState (shapes s) (selectedId s) (guidelines s) v
    (alignmentGuides s) (isDrawing s) (startPoint s) (currentShapeId s)
    (currentPath s) (lastMousePos s) (isSpacePressed s) (lastPosition s)
    (continuousDrawing s) (linePoints s) (lineSegments s) (joints s)
    (mouseCaptured s) (editingText s)).

Definition setAlignmentGuides (v : list AlignmentGuide.t) : Update :=
  with_ui (fun s => mkState (shapes s) (selectedId s) (guidelines s)
    (annotations s) v (isDrawing s) (startPoint s) (currentShapeId s)
    (currentPath s) (lastMousePos s) (isSpacePressed s) (lastPosition s)
    (continuousDrawing s) (linePoints s) (lineSegments s) (joints s)
    (mouseCaptured s) (editingText s)).

Definition setIsDrawing (v : bool) : Update :=
  with_ui (fun s => mkState (shapes s) (selectedId s) (guidelines s)
    (annotations s) (alignmentGuides s) v (startPoint s) (currentShapeId s)
    (currentPath s) (lastMousePos s) (isSpacePressed s) (lastPosition s)
    (continuousDrawing s) (linePoints s) (lineSegments s) (joints s)
    (mouseCaptured s) (editingText s)).

Definition setStartPoint (v : option Point) : Update :=
  with_ui (fun s => mkState (shapes s) (selectedId s) (guidelines s)
    (annotations s) (alignmentGuides s) (isDrawing s) v (currentShapeId s)
    (currentPath s) (lastMousePos s) (isSpacePressed s) (lastPosition s)
    (continuousDrawing s) (linePoints s) (lineSegments s) (joints s)
    (mouseCaptured s) (editingText s)).

Definition setCurrentShapeId (v : option string) : Update :=
  with_ui (fun s => mkState (shapes s) (selectedId s) (guidelines s)
    (annotations s) (alignmentGuides s) (isDrawing s) (startPoint s) v
    (currentPath s) (lastMousePos s) (isSpacePressed s) (lastPosition s)
    (continuousDrawing s) (linePoints s) (lineSegments s) (joints s)
    (mouseCaptured s) (editingText s)).

Definition setCurrentPath (v : list BezierPoint.t) : Update :=
  with_ui (fun s => mkState (shapes s) (selectedId s) (guidelines s)
    (annotations s) (alignmentGuides s) (isDrawing s) (startPoint s)
    (currentShapeId s) v (lastMousePos s) (isSpacePressed s) (lastPosition
    s) (continuousDrawing s) (linePoints s) (lineSegments s) (joints s)
    (mouseCaptured s) (editingText s)).

Definition setLastMousePos (v : option Point) : Update :=
  with_ui (fun s => mkState (shapes s) (selectedId s) (guidelines s)
    (annotations s) (alignmentGuides s) (isDrawing s) (startPoint s)
    (currentShapeId s) (currentPath s) v (isSpacePressed s) (lastPosition s)
    (continuousDrawing s) (linePoints s) (lineSegments s) (joints s)
    (mouseCaptured s) (editingText s)).

Definition setIsSpacePressed (v : bool) : Update :=
  with_ui (fun s => mkState (shapes s) (selectedId s) (guidelines s)
    (annotations s) (alignmentGuides s) (isDrawing s) (startPoint s)
    (currentShapeId s) (currentPath s) (lastMousePos s) v (lastPosition s)
    (continuousDrawing s) (linePoints s) (lineSegments s) (joints s)
    (mouseCaptured s) (editingText s)).

Definition setLastPosition (v : Point) : Update :=
  with_ui (fun s => mkState (shapes s) (selectedId s) (guidelines s)
    (annotations s) (alignmentGuides s) (isDrawing s) (startPoint s)
    (currentShapeId s) (currentPath s) (lastMousePos s) (isSpacePressed s) v
    (continuousDrawing s) (linePoints s) (lineSegments s) (joints s)
    (mouseCaptured s) (editingText s)).

Definition setContinuousDrawing (v : bool) : Update :=
  with_ui (fun s => mkState (shapes s) (selectedId s) (guidelines s)
    (annotations s) (alignmentGuides s) (isDrawing s) (startPoint s)
    (currentShapeId s) (currentPath s) (lastMousePos s) (isSpacePressed s)
    (lastPosition s) v (linePoints s) (lineSegments s) (joints s)
    (mouseCaptured s) (editingText s)).

Definition setLinePoints (v : list JS.number) : Update :=
  with_ui (fun s => mkState (shapes s) (selectedId s) (guidelines s)
    (annotations s) (alignmentGuides s) (isDrawing s) (startPoint s)
    (currentShapeId s) (currentPath s) (lastMousePos s) (isSpacePressed s)
    (lastPosition s) (continuousDrawing s) v (lineSegments s) (joints s)
    (mouseCaptured s) (editingText s)).

Definition setLineSegments (v : list Shape.t) : Update :=
  with_ui (fun s => mkState (shapes s) (selectedId s) (guidelines s)
    (annotations s) (alignmentGuides s) (isDrawing s) (startPoint s)
    (currentShapeId s) (currentPath s) (lastMousePos s) (isSpacePressed s)
    (lastPosition s) (continuousDrawing s) (linePoints s) v (joints s)
    (mouseCaptured s) (editingText s)).

Definition setJoints (v : list Joint.t) : Update :=
  with_ui (fun s => mkState (shapes s) (selectedId s) (guidelines s)
    (annotations s) (alignmentGuides s) (isDrawing s) (startPoint s)
    (currentShapeId s) (currentPath s) (lastMousePos s) (isSpacePressed s)
    (lastPosition s) (continuousDrawing s) (linePoints s) (lineSegments s) v
    (mouseCaptured s) (editingText s)).

Definition setMouseCaptured (v : bool) : Update :=
  with_ui (fun s => mkState (shapes s) (selectedId s) (guidelines s)
    (annotations s) (alignmentGuides s) (isDrawing s) (startPoint s)
    (currentShapeId s) (currentPath s) (lastMousePos s) (isSpacePressed s)
    (lastPosition s) (continuousDrawing s) (linePoints s) (lineSegments s)
    (joints s) v (editingText s)).

Definition setEditingText (v : option string) : Update :=
  with_ui (fun s => mkState (shapes s) (selectedId s) (guidelines s)
    (annotations s) (alignmentGuides s) (isDrawing s) (startPoint s)
    (currentShapeId s) (currentPath s) (lastMousePos s) (isSpacePressed s)
    (lastPosition s) (continuousDrawing s) (linePoints s) (lineSegments s)
    (joints s) (mouseCaptured s) v).

(** [setShapes(prev => f prev)] and [setJoints(prev => f prev)]. *)
Definition setShapesWith (f : list Shape.t -> list Shape.t) : Update :=
  fun p => setShapes (f (shapes (ui p))) p.

Definition setJointsWith (f : list Joint.t -> list Joint.t) : Update :=
  fun p => setJoints (f (joints (ui p))) p.

(** *** Properties of updates

    The properties the proofs below establish step by step: an update
    neither reads nor writes [editingText]; an update keeps the invariant of
    the history store; an update leaves the ids of the shapes, in order,
    equal to [ids]. *)
Definition IgnoresEditingText (u : Update) : Prop :=
  forall editing p,
    u (setEditingText editing p) = setEditingText editing (u p).

Definition KeepsHistoryInv (u : Update) : Prop :=
  forall p,
    HistoryStore.Inv (history p) -> HistoryStore.Inv (history (u p)).

Definition KeepsShapeIds (ids : list string) (u : Update) : Prop :=
  forall p,
    map Shape.id (shapes (ui p)) = ids ->
    map Shape.id (shapes (ui (u p))) = ids.

(** *** History *)

(** [recordHistory]: the snapshot is the [shapes] and [annotations] of the
    closure. *)
Definition recordHistory (w : World) (description : string) : Update :=
  with_history
    (HistoryStore.addHistory
       (HistoryStore.mkState (shapes (ui w)) (annotations (ui w)))
       description).

(** [handleUndo] and [handleRedo]: the store moves its index; a snapshot it
    returns replaces the document. *)
Definition handleUndo : Update :=
  fun p =>
    let '(prevState, h) := HistoryStore.undo (history p) in
    let p := with_history (fun _ => h) p in
    match prevState with
    | Some st =>
        (setShapes (HistoryStore.shapes st) ;;
         setAnnotations (HistoryStore.annotations st)) p
    | None => p
    end.

Definition handleRedo : Update :=
  fun p =>
    let '(nextState, h) := HistoryStore.redo (history p) in
    let p := with_history (fun _ => h) p in
    match nextState with
    | Some st =>
        (setShapes (HistoryStore.shapes st) ;;
         setAnnotations (HistoryStore.annotations st)) p
    | None => p
    end.

(** *** Keyboard *)

(** [shapes.filter(shape => shape.id !== id)] *)
Definition removeShape (id : string) (l : list Shape.t) : list Shape.t :=
  filter (fun shape => negb (String.eqb (Shape.id shape) id)) l.

(** [annotations.filter(anno => anno.shapeId !== id)] *)
Definition removeAnnotations (id : string) (l : list Annotation.t)
  : list Annotation.t :=
  filter (fun anno => negb (String.eqb (Annotation.shapeId anno) id)) l.

(** The [keydown] listener on [window].  The cursor style and
    [preventDefault] are not part of the state.  The statement
    [if (editingText !== null) return;] is the last one of the source
    function; it is kept here as the last step, which does nothing in either
    branch. *)
Definition handleKeyboardDown (e : KeyboardEvent.t) (w : World) : Update :=
  let s := ui w in
  (if String.eqb (KeyboardEvent.code e) "Space"
   then setIsSpacePressed true else skip) ;;
  (if String.eqb (KeyboardEvent.code e) "Escape"
   then setContinuousDrawing false ;; setLinePoints [] ;;
        setIsDrawing false ;; setCurrentShapeId None
   else skip) ;;
  (if KeyboardEvent.ctrlKey e && String.eqb (KeyboardEvent.key e) "z"
   then handleUndo else skip) ;;
  (if KeyboardEvent.ctrlKey e && String.eqb (KeyboardEvent.key e) "y"
   then handleRedo else skip) ;;
  (if (String.eqb (KeyboardEvent.key e) "Delete"
       || String.eqb (KeyboardEvent.key e) "Backspace")
      && JS.truthy (selectedId s)
   then
     match selectedId s with
     | Some sel =>
         setShapes (removeShape sel (shapes s)) ;;
         setAnnotations (removeAnnotations sel (annotations s)) ;;
         with_history
           (HistoryStore.addHistory
              (HistoryStore.mkState
                 (removeShape sel (shapes s))
                 (removeAnnotations sel (annotations s)))
              ("删除形状 #" ++ sel)%string) ;;
         setSelectedId None
     | None => skip
     end
   else skip) ;;
  (match editingText s with Some _ => skip | None => skip end).

Definition handleKeyboardUp (e : KeyboardEvent.t) (w : World) : Update :=
  if String.eqb (KeyboardEvent.code e) "Space"
  then setIsSpacePressed false else skip.

(** *** Pointer position *)

(** [const scale = zoom / 100] *)
Definition scale (w : World) : JS.number := CanvasStore.zoom (canvas w) / 100.

Definition getStagePointerPosition (w : World)
  (pointerPos : option (JS.number * JS.number)) : option Point :=
  match pointerPos with
  | None => None
  | Some (px, py) =>
      let '(panx, pany) := CanvasStore.pan (canvas w) in
      Some (px / scale w + panx / scale w, py / scale w + pany / scale w)
  end.

(** *** Pointer down *)

(** [{ id, type, x, y, ..., ...commonProps }] *)
Definition newShape (w : World) (id type : string) (x y : JS.number)
  (width height radius : option JS.number) (points : option (list JS.number))
  : Shape.t :=
  let d := drawing w in
  Shape.mk id type x y width height radius points None
    (DrawingStore.strokeColor d) (DrawingStore.strokeWidth d)
    (if DrawingStore.hasFill d then DrawingStore.fillColor d
     else "transparent")
    true None None None None None.

(** The text shape of the text tool. *)
Definition newTextShape (w : World) (id : string) (x y : JS.number)
  : Shape.t :=
  let d := drawing w in
  Shape.mk id "text" x y None None None None None
    (DrawingStore.strokeColor d) (DrawingStore.textStrokeWidth d)
    "#000000" true (Some "点击输入文本")
    (Some (DrawingStore.fontSize d)) (Some (DrawingStore.fontFamily d))
    (Some (DrawingStore.textAlign d)) (Some (DrawingStore.fontStyle d)).

(** [shapes.map(s => s.id === id ? f s : s)] *)
Definition updateShape (id : string) (f : Shape.t -> Shape.t)
  (l : list Shape.t) : list Shape.t :=
  map (fun s => if String.eqb (Shape.id s) id then f s else s) l.

(** [shapes.find(s => s.id === id)] *)
Definition findShape (id : string) (l : list Shape.t) : option Shape.t :=
  find (fun s => String.eqb (Shape.id s) id) l.

(** The pen tool ([activeTool === 'path']) on pointer down. *)
Definition penDown (x y : JS.number) (id : string) (w : World) : Update :=
  let s := ui w in
  if negb (isDrawing s) then
    let newPoint := BezierPoint.mk x y None None None None in
    setIsDrawing true ;;
    setCurrentShapeId (Some id) ;;
    setCurrentPath [newPoint] ;;
    setShapes
      (shapes s ++
       [Shape.with_bezierPoints [newPoint]
          (newShape w id "bezier" 0 0 None None None None)])
  else
    match currentShapeId s with
    | Some cid =>
        if String.eqb cid "" then skip
        else
          let addPoint : Update :=
            let newPoint :=
              BezierPoint.mk x y (Some x) (Some y) (Some x) (Some y) in
            let updatedPath :=
              match currentPath s with
              | [prevPoint] =>
                  [BezierPoint.mk (BezierPoint.x prevPoint)
                     (BezierPoint.y prevPoint)
                     (BezierPoint.controlX1 prevPoint)
                     (BezierPoint.controlY1 prevPoint)
                     (Some (BezierPoint.x prevPoint))
                     (Some (BezierPoint.y prevPoint))]
              | path => path
              end ++ [newPoint] in
            setCurrentPath updatedPath ;;
            setShapes
              (updateShape cid (Shape.with_bezierPoints updatedPath)
                 (shapes s)) in
          match findShape cid (shapes s) with
          | Some shape =>
              match Shape.bezierPoints shape with
              | Some ((firstPoint :: _ :: _) as bezierPoints) =>
                  let dx := x - BezierPoint.x firstPoint in
                  let dy := y - BezierPoint.y firstPoint in
                  let distance := Num.Math_sqrt (dx * dx + dy * dy) in
                  if JS.ltb distance 10 then
                    setShapes
                      (updateShape cid
                         (fun s0 =>
                            Shape.with_draggable true
                              (Shape.with_bezierPoints bezierPoints s0))
                         (shapes s)) ;;
                    setIsDrawing false ;;
                    setCurrentPath [] ;;
                    setCurrentShapeId None
                  else addPoint
              | _ => addPoint
              end
          | None => addPoint
          end
    | None => skip
    end.

Definition handleMouseDown (e : MouseEvent.t) (id : string) (w : World)
  : Update :=
  let s := ui w in
  if isSpacePressed s then
    setMouseCaptured true ;;
    match MouseEvent.pointer e with
    | Some pointerPos => setLastPosition pointerPos
    | None => skip
    end
  else
    match getStagePointerPosition w (MouseEvent.pointer e) with
    | None => skip
    | Some (x, y) =>
        let clickedOnEmpty := MouseEvent.onStage e in
        setLastMousePos (Some (x, y)) ;;
        (if clickedOnEmpty then setSelectedId None else skip) ;;
        (if negb clickedOnEmpty
            || Tool.eqb (activeTool w) Tool.select
            || Tool.eqb (activeTool w) Tool.view
            || Tool.eqb (activeTool w) Tool.canvas
            || Tool.eqb (activeTool w) Tool.color
         then skip
         else if continuousDrawing s && Tool.eqb (activeTool w) Tool.polygon
         then skip
         else if Tool.eqb (activeTool w) Tool.path
         then penDown x y id w
         else
           setIsDrawing true ;;
           setStartPoint (Some (x, y)) ;;
           match activeTool w with
           | Tool.rectangle =>
               setShapes
                 (shapes s ++
                  [newShape w id "rectangle" x y (Some 0) (Some 0) None
                     None]) ;;
               setCurrentShapeId (Some id)
           | Tool.circle =>
               setShapes
                 (shapes s ++
                  [newShape w id "circle" x y None None (Some 0) None]) ;;
               setCurrentShapeId (Some id)
           | Tool.line | Tool.polygon =>
               setShapes
                 (shapes s ++
                  [newShape w id "line" 0 0 None None None
                     (Some [x; y; x; y])]) ;;
               setCurrentShapeId (Some id)
           | Tool.brush =>
               setShapes
                 (shapes s ++
                  [newShape w id "path" 0 0 None None None (Some [x; y])]) ;;
               setCurrentShapeId (Some id)
           | Tool.text =>
               setTimeout (EnterTextEdit id) ;;
               setShapes (shapes s ++ [newTextShape w id x y]) ;;
               setCurrentShapeId (Some id)
           | _ => skip
           end)
    end.

(** *** Alignment candidates and snapping *)

(** [const alignmentThreshold = 10] *)
Definition alignmentThreshold : JS.number := 10.

(** What the [forEach] over the shapes accumulates: the alignment guides and
    the two snap positions ([null] is [None]). *)
Definition Snap : Type :=
  list AlignmentGuide.t * option JS.number * option JS.number.

(** [if (Math.abs(x - anchor) < snapThreshold) { push a vertical guide;
    snapToX = anchor }] *)
Definition snapX (w : World) (x anchor : JS.number) (acc : Snap) : Snap :=
  let '(guides, snapToX, snapToY) := acc in
  if JS.ltb (Qabs (x - anchor)) alignmentThreshold then
    (guides ++
     [AlignmentGuide.mk [anchor; 0; anchor; CanvasStore.height (canvas w)]],
     Some anchor, snapToY)
  else acc.

(** [if (Math.abs(y - anchor) < snapThreshold) { push a horizontal guide;
    snapToY = anchor }] *)
Definition snapY (w : World) (y anchor : JS.number) (acc : Snap) : Snap :=
  let '(guides, snapToX, snapToY) := acc in
  if JS.ltb (Qabs (y - anchor)) alignmentThreshold then
    (guides ++
     [AlignmentGuide.mk [0; anchor; CanvasStore.width (canvas w); anchor]],
     snapToX, Some anchor)
  else acc.

(** The body of [shapes.forEach(shape => ...)]. *)
Definition snapShape (w : World) (currentShapeId : string) (x y : JS.number)
  (acc : Snap) (shape : Shape.t) : Snap :=
  if String.eqb (Shape.id shape) currentShapeId then acc
  else if String.eqb (Shape.type shape) "rectangle" then
    let shapeLeft := Shape.x shape in
    let shapeRight := Shape.x shape + JS.or_zero (Shape.width shape) in
    let shapeTop := Shape.y shape in
    let shapeBottom := Shape.y shape + JS.or_zero (Shape.height shape) in
    snapY w y shapeBottom
      (snapY w y shapeTop (snapX w x shapeRight (snapX w x shapeLeft acc)))
  else if String.eqb (Shape.type shape) "line" then
    match Shape.points shape with
    | Some points =>
        if (JS.length points >=? 4)%Z then
          let startX := Num.nth points 0 in
          let startY := Num.nth points 1 in
          let endX := Num.nth points 2 in
          let endY := Num.nth points 3 in
          snapY w y endY
            (snapX w x endX (snapY w y startY (snapX w x startX acc)))
        else acc
    | None => acc
    end
  else acc.

Definition alignment (w : World) (currentShapeId : string) (x y : JS.number)
  : Snap :=
  fold_left (snapShape w currentShapeId x y) (shapes (ui w)) ([], None, None).

(** [snapTo !== null ? snapTo : v] *)
Definition snapped (snapTo : option JS.number) (v : JS.number) : JS.number :=
  match snapTo with Some a => a | None => v end.

(** *** Pointer move *)

(** The [switch (shape.type)] of the pointer-move handler, for the shape
    being drawn.  The measurement guidelines the cases push are the
    [newGuidelines] argument of the handler. *)
Definition moveShape (startPoint : Point) (x y snappedX snappedY : JS.number)
  (shape : Shape.t) : Shape.t :=
  let '(startX, startY) := startPoint in
  let type := Shape.type shape in
  if String.eqb type "rectangle" then
    let width := Qabs (x - startX) in
    let height := Qabs (y - startY) in
    let rectX := Qmin startX x in
    let rectY := Qmin startY y in
    Shape.with_rect width height rectX rectY shape
  else if String.eqb type "circle" then
    let dx := x - startX in
    let dy := y - startY in
    Shape.with_radius (Num.Math_sqrt (dx * dx + dy * dy)) shape
  else if String.eqb type "line" || String.eqb type "polygon" then
    Shape.with_points [startX; startY; snappedX; snappedY] shape
  else if String.eqb type "brush" || String.eqb type "path" then
    Shape.with_points
      (match Shape.points shape with Some l => l | None => [] end ++ [x; y])
      shape
  else shape.

(** [handleMouseMove].  The branch that drags a control point of the pen
    tool needs [activeControlPoint.index !== -1] and is never entered.  The
    measurement guidelines (their offsets and label text come from
    [Math.atan2], [Math.round] and [toFixed]) are not computed here: the
    list the handler stores is the argument [newGuidelines]. *)
Definition handleMouseMove (e : MouseEvent.t)
  (newGuidelines : list Guideline.t) (w : World) : Update :=
  let s := ui w in
  if isSpacePressed s && mouseCaptured s then
    match MouseEvent.pointer e with
    | Some (px, py) =>
        let '(panx, pany) := CanvasStore.pan (canvas w) in
        let deltaX := px - fst (lastPosition s) in
        let deltaY := py - snd (lastPosition s) in
        let scaledDeltaX := deltaX / scale w in
        let scaledDeltaY := deltaY / scale w in
        with_canvas
          (CanvasStore.setPan (panx - scaledDeltaX) (pany - scaledDeltaY)) ;;
        setLastPosition (px, py)
    | None => skip
    end
  else
    match getStagePointerPosition w (MouseEvent.pointer e) with
    | None => skip
    | Some (x, y) =>
        match isDrawing s, startPoint s, currentShapeId s with
        | true, Some start, Some cid =>
            if String.eqb cid "" then skip
            else
              let '(newAlignmentGuides, snapToX, snapToY) :=
                alignment w cid x y in
              let snappedX := snapped snapToX x in
              let snappedY := snapped snapToY y in
              setAlignmentGuides newAlignmentGuides ;;
              setShapes
                (updateShape cid (moveShape start x y snappedX snappedY)
                   (shapes s)) ;;
              setGuidelines newGuidelines
        | _, _, _ => skip
        end
    end.

(** *** Pointer up *)

(** The [switch (shape.type)] of the pointer-up handler: as on pointer
    move, but a long brush stroke is simplified. *)
Definition upShape (startPoint : Point) (x y snappedX snappedY : JS.number)
  (shape : Shape.t) : Shape.t :=
  let type := Shape.type shape in
  if String.eqb type "brush" || String.eqb type "path" then
    let finalPoints :=
      match Shape.points shape with Some l => l | None => [] end ++ [x; y] in
    if (JS.length finalPoints >? 10)%Z
    then Shape.with_points (Num.simplifyPoints finalPoints 1) shape
    else Shape.with_points finalPoints shape
  else moveShape startPoint x y snappedX snappedY shape.

(** [(shape.type === 'rectangle' && (shape.width || 0) < 5 &&
     (shape.height || 0) < 5) ||
    (shape.type === 'circle' && (shape.radius || 0) < 5)] *)
Definition tooSmall (shape : Shape.t) : bool :=
  (String.eqb (Shape.type shape) "rectangle"
   && JS.ltb (JS.or_zero (Shape.width shape)) 5
   && JS.ltb (JS.or_zero (Shape.height shape)) 5)
  || (String.eqb (Shape.type shape) "circle"
      && JS.ltb (JS.or_zero (Shape.radius shape)) 5).

(** [guidelines.map(guide => ({...guide, shapeId: currentShapeId}))] *)
Definition permanentAnnotations (w : World) (currentShapeId : string)
  : list Annotation.t :=
  map (Annotation.of_guideline currentShapeId) (guidelines (ui w)).

(** [toolNames[activeTool]] for the tools whose drawings are recorded. *)
Definition toolName (tool : Tool.t) : option string :=
  match tool with
  | Tool.line => Some "直线"
  | Tool.rectangle => Some "矩形"
  | Tool.circle => Some "圆形"
  | Tool.path => Some "路径"
  | Tool.brush => Some "画笔"
  | Tool.polygon => Some "多边形"
  | _ => None
  end.

(** [const closeDistance = 15] *)
Definition closeDistance : JS.number := 15.

(** The polygon tool on pointer up, for the segment [currentShape] whose
    [points] array is [points].  [jointId] is the id [generateId()] returns
    for the joint. *)
Definition polygonUp (currentShape : Shape.t) (points : list JS.number)
  (cid jointId : string) (w : World) : Update :=
  let s := ui w in
  let lineEndX := Num.nth points 2 in
  let lineEndY := Num.nth points 3 in
  let firstX := Num.nth (linePoints s) 0 in
  let firstY := Num.nth (linePoints s) 1 in
  let dx := lineEndX - firstX in
  let dy := lineEndY - firstY in
  let distance := Num.Math_sqrt (dx * dx + dy * dy) in
  if continuousDrawing s && (JS.length (linePoints s) >=? 2)%Z
     && JS.ltb distance closeDistance
  then
    let updatedCurrentShape :=
      Shape.with_points
        [Num.nth points 0; Num.nth points 1; firstX; firstY] currentShape in
    setShapesWith
      (map (fun s0 => if String.eqb (Shape.id s0) cid
                      then updatedCurrentShape else s0)) ;;
    setAnnotations (annotations s ++ permanentAnnotations w cid) ;;
    setGuidelines [] ;;
    setContinuousDrawing false ;;
    setLinePoints [] ;;
    setIsDrawing false ;;
    setCurrentShapeId None
  else
    setLinePoints (linePoints s ++ [lineEndX; lineEndY]) ;;
    setLineSegments
      (lineSegments s ++ [Shape.with_draggable true currentShape]) ;;
    (if (JS.length (linePoints s) >=? 2)%Z then
       setJointsWith
         (fun prevJoints =>
            prevJoints ++
            [Joint.mk jointId lineEndX lineEndY
               (DrawingStore.strokeWidth (drawing w) * (4 # 10))
               (DrawingStore.strokeColor (drawing w))
               (DrawingStore.strokeColor (drawing w))])
     else skip) ;;
    setContinuousDrawing true ;;
    setAnnotations (annotations s ++ permanentAnnotations w cid) ;;
    setGuidelines [] ;;
    setIsDrawing false ;;
    setCurrentShapeId None ;;
    setTimeout
      (NextSegment (shapes s) lineEndX lineEndY
         (DrawingStore.strokeColor (drawing w))
         (DrawingStore.strokeWidth (drawing w))).

(** [handleMouseUp].  [newGuidelines] stands for the guidelines the handler
    computes, as in [handleMouseMove]. *)
Definition handleMouseUp (e : MouseEvent.t)
  (newGuidelines : list Guideline.t) (jointId : string) (w : World)
  : Update :=
  let s := ui w in
  if isSpacePressed s && mouseCaptured s then setMouseCaptured false
  else
    setMouseCaptured false ;;
    match isDrawing s, startPoint s, currentShapeId s with
    | true, Some start, Some cid =>
        if String.eqb cid "" then skip
        else
          match getStagePointerPosition w (MouseEvent.pointer e) with
          | None => skip
          | Some (x, y) =>
              let '(newAlignmentGuides, snapToX, snapToY) :=
                alignment w cid x y in
              let snappedX := snapped snapToX x in
              let snappedY := snapped snapToY y in
              let currentShape := findShape cid (shapes s) in
              setAlignmentGuides newAlignmentGuides ;;
              setShapes
                (updateShape cid (upShape start x y snappedX snappedY)
                   (shapes s)) ;;
              setGuidelines newGuidelines ;;
              setAlignmentGuides [] ;;
              setShapes
                (updateShape cid (Shape.with_draggable true) (shapes s)) ;;
              if (Tool.eqb (activeTool w) Tool.rectangle
                  || Tool.eqb (activeTool w) Tool.circle)
                 && match currentShape with
                    | Some shape => tooSmall shape
                    | None => false
                    end
              then
                setShapes (removeShape cid (shapes s)) ;;
                setGuidelines [] ;;
                setIsDrawing false ;;
                setStartPoint None ;;
                setCurrentShapeId None
              else
                let finish : Update :=
                  setAnnotations
                    (annotations s ++ permanentAnnotations w cid) ;;
                  setGuidelines [] ;;
                  setIsDrawing false ;;
                  setStartPoint None ;;
                  setCurrentShapeId None in
                let polygonBranch :=
                  if Tool.eqb (activeTool w) Tool.polygon then
                    match currentShape with
                    | Some shape =>
                        match Shape.points shape with
                        | Some points => Some (shape, points)
                        | None => None
                        end
                    | None => None
                    end
                  else None in
                match polygonBranch with
                | Some (shape, points) => polygonUp shape points cid jointId w
                | None =>
                    if Tool.eqb (activeTool w) Tool.line then finish
                    else
                      finish ;;
                      match toolName (activeTool w) with
                      | Some name =>
                          if Tool.eqb (activeTool w) Tool.polygon
                             && continuousDrawing s
                          then skip
                          else
                            recordHistory w
                              ("绘制" ++ name ++ " #" ++ cid)%string
                      | None => skip
                      end
                end
          end
    | _, _, _ => skip
    end.

(** *** Double click, selection, zoom *)

(** [handleDblClick]; [id] and [jointId] are the two generated ids. *)
Definition handleDblClick (id jointId : string) (w : World) : Update :=
  let s := ui w in
  if continuousDrawing s && (JS.length (linePoints s) >=? 4)%Z then
    let firstX := Num.nth (linePoints s) 0 in
    let firstY := Num.nth (linePoints s) 1 in
    let lastX := Num.nth (linePoints s) (JS.length (linePoints s) - 2) in
    let lastY := Num.nth (linePoints s) (JS.length (linePoints s) - 1) in
    let closingLine :=
      newShape w id "line" 0 0 None None None
        (Some [lastX; lastY; firstX; firstY]) in
    let closingJoint :=
      Joint.mk jointId firstX firstY
        (DrawingStore.strokeWidth (drawing w) * (4 # 10))
        (DrawingStore.strokeColor (drawing w))
        (DrawingStore.strokeColor (drawing w)) in
    setShapesWith (fun prevShapes => prevShapes ++ [closingLine]) ;;
    setJointsWith (fun prevJoints => prevJoints ++ [closingJoint]) ;;
    setContinuousDrawing false ;;
    setLinePoints [] ;;
    setIsDrawing false ;;
    setCurrentShapeId None
  else skip.

Definition handleSelect (id : string) (w : World) : Update :=
  setSelectedId (Some id).

(** [Math.max(20, Math.min(400, newZoom))] *)
Definition limitZoom (newZoom : JS.number) : JS.number :=
  Qmax 20 (Qmin 400 newZoom).

(** The wheel listener of the canvas container. *)
Definition handlePassiveWheel (e : WheelEvent.t) (w : World) : Update :=
  let zoom := CanvasStore.zoom (canvas w) in
  if WheelEvent.ctrlKey e || WheelEvent.metaKey e then
    let delta := WheelEvent.deltaY e in
    let zoomFactor := 4 # 10 in
    let newZoom := zoom - delta * zoomFactor in
    with_canvas (CanvasStore.setZoom (limitZoom newZoom))
  else
    let delta := WheelEvent.deltaY e in
    let newZoom := zoom - delta / 10 in
    with_canvas (CanvasStore.setZoom (limitZoom newZoom)).

(** The absolute change of the zoom level a wheel event causes. *)
Definition zoomChange (e : WheelEvent.t) (w : World) : JS.number :=
  Qabs (CanvasStore.zoom (canvas (handlePassiveWheel e w w))
        - CanvasStore.zoom (canvas w)).

(** *** Timers *)

(** The body of a [setTimeout] callback; [newId] is the id it generates. *)
Definition runTimer (t : Timer) (newId : string) : Update :=
  match t with
  | NextSegment closureShapes lineEndX lineEndY strokeColor strokeWidth =>
      let newLine :=
        Shape.mk newId "line" 0 0 None None None
          (Some [lineEndX; lineEndY; lineEndX; lineEndY]) None
          strokeColor strokeWidth "transparent" true
          None None None None None in
      setShapes (closureShapes ++ [newLine]) ;;
      setCurrentShapeId (Some newId) ;;
      setStartPoint (Some (lineEndX, lineEndY)) ;;
      setIsDrawing true
  | EnterTextEdit id => setEditingText (Some id)
  end.

(** *** Events *)

(** What can happen to the mounted component.  Random ids come with the
    event that consumes them. *)
Inductive Event :=
| KeyDown (e : KeyboardEvent.t)
| KeyUp (e : KeyboardEvent.t)
| MouseDown (e : MouseEvent.t) (id : string)
| MouseMove (e : MouseEvent.t) (newGuidelines : list Guideline.t)
| MouseUp (e : MouseEvent.t) (newGuidelines : list Guideline.t)
    (jointId : string)
| DblClick (id jointId : string)
| Wheel (e : WheelEvent.t)
| Select (id : string)
| PickTool (tool : Tool.t)
| Timeout (newId : string).

(** A handler created in the render of [w] runs on [w]. *)
Definition fire (h : World -> Update) (w : World) : World := h w w.

Definition dispatch (w : World) (ev : Event) : World :=
  match ev with
  | KeyDown e => fire (handleKeyboardDown e) w
  | KeyUp e => fire (handleKeyboardUp e) w
  | MouseDown e id => fire (handleMouseDown e id) w
  | MouseMove e g => fire (handleMouseMove e g) w
  | MouseUp e g jointId => fire (handleMouseUp e g jointId) w
  | DblClick id jointId => fire (handleDblClick id jointId) w
  | Wheel e => fire (handlePassiveWheel e) w
  | Select id => fire (handleSelect id) w
  | PickTool tool => setActiveTool tool w
  | Timeout newId =>
      match timers w with
      | t :: rest => runTimer t newId (with_timers (fun _ => rest) w)
      | [] => w
      end
  end.

Definition play (evs : list Event) (w : World) : World :=
  fold_left dispatch evs w.

(** The component before its mount effect, and after it
    ([recordHistory('初始状态')]). *)
Definition unmounted : World :=
  {| ui := initialState; activeTool := Tool.select;
     canvas := CanvasStore.initial; drawing := DrawingStore.initial;
     history := HistoryStore.initial; timers := [] |}.

Definition mounted : World :=
  fire (fun w => recordHistory w "初始状态") unmounted.

End Canvas.

(** ** What an update leaves alone *)

Module Frame.

Import Canvas.

(** The update [u] leaves the part [proj] of the world as it is. *)
Definition Preserves {A} (proj : World -> A) (u : Update) : Prop :=
  forall p, proj (u p) = proj p.

(** The update [u] removes no joint and changes none: the joints after it
    are the joints before it, followed by what it adds. *)
Definition GrowsJoints (u : Update) : Prop :=
  forall p, exists added, joints (ui (u p)) = joints (ui p) ++ added.

(** The update [u] keeps the property [P] of the world. *)
Definition Keeps (P : World -> Prop) (u : Update) : Prop :=
  forall p, P p -> P (u p).

(** The zoom levels the controls of the canvas produce. *)
Definition zoomInRange (w : World) : Prop :=
  (20 <= CanvasStore.zoom (canvas w) <= 400)%Q.

(** What holds of the world in every state of the component: the
    invariant of the history store, a zoom level within the limits of the
    controls, and joints that extend the joints [base]. *)
Definition Good (base : list Joint.t) (w : World) : Prop :=
  HistoryStore.Inv (history w)
  /\ zoomInRange w
  /\ exists added, joints (ui w) = base ++ added.

End Frame.

(** ** Zoom controls of the canvas *)

Module Controls.

Import Canvas.

Open Scope Q_scope.

(** [setZoom(Math.min(zoom + 10, 400))] *)
Definition handleZoomIn (w : World) : Update :=
  with_canvas
    (CanvasStore.setZoom (Qmin (CanvasStore.zoom (canvas w) + 10) 400)).

(** [setZoom(Math.max(zoom - 10, 20))] *)
Definition handleZoomOut (w : World) : Update :=
  with_canvas
    (CanvasStore.setZoom (Qmax (CanvasStore.zoom (canvas w) - 10) 20)).

(** [setZoom(100)] *)
Definition handleZoomReset (w : World) : Update :=
  with_canvas (CanvasStore.setZoom 100).

(** The second [keydown] listener on [window], registered beside the wheel
    listener: Cmd with [+], [=] or [-]. *)
Definition handleKeydown (e : KeyboardEvent.t) (w : World) : Update :=
  let key := KeyboardEvent.key e in
  let zoom := CanvasStore.zoom (canvas w) in
  if KeyboardEvent.metaKey e
     && (String.eqb key "+" || String.eqb key "-" || String.eqb key "=")
  then
    if String.eqb key "+" || String.eqb key "=" then
      with_canvas (CanvasStore.setZoom (Qmin (zoom + 10) 400))
    else if String.eqb key "-" then
      with_canvas (CanvasStore.setZoom (Qmax (zoom - 10) 20))
    else skip
  else skip.

End Controls.

(** ** Moving a shape *)

Module Dragging.

Import Canvas.

Open Scope Q_scope.

(** [l.map((val, index) => f val index)], the index starting at [i]. *)
Fixpoint mapi_from {A B} (i : Z) (f : A -> Z -> B) (l : list A) : list B :=
  match l with
  | [] => []
  | v :: rest => f v i :: mapi_from (i + 1)%Z f rest
  end.

Definition mapi {A B} (f : A -> Z -> B) (l : list A) : list B :=
  mapi_from 0%Z f l.

(** The loop [for (let i = 0; i < newPoints.length; i += 2)
    { newPoints[i] += deltaX; newPoints[i + 1] += deltaY; }] on a copy of
    the array.  On an array of odd length the last round writes
    [newPoints[length]] and so extends the array by one entry; the number
    read there is [undefined], which the embedding reads as [0] (see
    [Num.nth]). *)
Fixpoint shiftPairs (deltaX deltaY : JS.number) (l : list JS.number)
  : list JS.number :=
  match l with
  | [] => []
  | [vx] => [vx + deltaX; 0 + deltaY]
  | vx :: vy :: rest =>
      (vx + deltaX) :: (vy + deltaY) :: shiftPairs deltaX deltaY rest
  end.

(** [{...s, x: newX, y: newY}] *)
Definition with_position (newX newY : JS.number) (s : Shape.t) : Shape.t :=
  Shape.mk (Shape.id s) (Shape.type s) newX newY (Shape.width s)
    (Shape.height s) (Shape.radius s) (Shape.points s)
    (Shape.bezierPoints s) (Shape.stroke s) (Shape.strokeWidth s)
    (Shape.fill s) (Shape.draggable s) (Shape.text s) (Shape.fontSize s)
    (Shape.fontFamily s) (Shape.textAlign s) (Shape.fontStyle s).

(** [{...anno, points: anno.points.map((val, index) => index % 2 === 0 ?
    val + deltaX : val + deltaY), textPosition: anno.textPosition ?
    {x: anno.textPosition.x + deltaX, y: anno.textPosition.y + deltaY} :
    undefined}] *)
Definition shiftAnnotation (deltaX deltaY : JS.number) (anno : Annotation.t)
  : Annotation.t :=
  Annotation.mk
    (mapi (fun val index =>
             if (index mod 2 =? 0)%Z then val + deltaX else val + deltaY)
       (Annotation.points anno))
    (Annotation.text anno)
    (match Annotation.textPosition anno with
     | Some (tx, ty) => Some (tx + deltaX, ty + deltaY)
     | None => None
     end)
    (Annotation.shapeId anno).

(** [annotations.map(anno => anno.shapeId !== id ? anno : f anno)] *)
Definition updateAnnotationsOf (id : string)
  (f : Annotation.t -> Annotation.t) (l : list Annotation.t)
  : list Annotation.t :=
  map (fun anno =>
         if negb (String.eqb (Annotation.shapeId anno) id) then anno
         else f anno) l.

(** The shape [handleShapeDragEnd] stores for the dragged one. *)
Definition draggedShape (newX newY deltaX deltaY : JS.number) (s : Shape.t)
  : Shape.t :=
  let updatedShape := with_position newX newY s in
  match Shape.points s with
  | Some points =>
      if String.eqb (Shape.type s) "line" && (JS.length points >=? 4)%Z
      then Shape.with_points (shiftPairs deltaX deltaY points) updatedShape
      else updatedShape
  | None => updatedShape
  end.

(** [handleShapeDragEnd], the [onDragEnd] of rectangles, circles and
    texts. *)
Definition handleShapeDragEnd (id : string) (newX newY : JS.number)
  (w : World) : Update :=
  let s := ui w in
  match findShape id (shapes s) with
  | None => skip
  | Some shape =>
      let deltaX := newX - Shape.x shape in
      let deltaY := newY - Shape.y shape in
      setShapes
        (updateShape id (draggedShape newX newY deltaX deltaY) (shapes s)) ;;
      setAnnotations
        (updateAnnotationsOf id (shiftAnnotation deltaX deltaY)
           (annotations s)) ;;
      recordHistory w ("移动图形 #" ++ id)%string
  end.

(** [updateAnnotations(shapeId, deltaX, deltaY, scaleFactor, newPoints)];
    a caller that leaves an argument out passes its default ([0], [0], [1],
    no [newPoints]). *)
Definition updateAnnotations (shapeId : string)
  (deltaX deltaY scaleFactor : JS.number)
  (newPoints : option (list JS.number)) (w : World) : Update :=
  setAnnotations
    (updateAnnotationsOf shapeId
       (fun anno =>
          match newPoints with
          | Some newPoints =>
              Annotation.mk
                (mapi (fun _ index =>
                         if (index mod 4 <? 2)%Z
                         then Num.nth newPoints (index mod 2)
                         else Num.nth newPoints (index mod 2 + 2))
                   (Annotation.points anno))
                (Annotation.text anno)
                (match Annotation.textPosition anno with
                 | Some _ =>
                     Some ((Num.nth newPoints 0 + Num.nth newPoints 2) / 2,
                           (Num.nth newPoints 1 + Num.nth newPoints 3) / 2
                           - 20)
                 | None => None
                 end)
                (Annotation.shapeId anno)
          | None =>
              if negb (Qeq_bool scaleFactor 1) then
                Annotation.mk
                  (map (fun val => val * scaleFactor)
                     (Annotation.points anno))
                  (Annotation.text anno)
                  (match Annotation.textPosition anno with
                   | Some (tx, ty) =>
                       Some (tx * scaleFactor, ty * scaleFactor)
                   | None => None
                   end)
                  (Annotation.shapeId anno)
              else shiftAnnotation deltaX deltaY anno
          end)
       (annotations (ui w))).

End Dragging.

(** ** The rest of the component state: text box and drag origin *)

Module DragOrigin.
(** [{ id, points, x, y }], what [onDragStart] of a line, a path or a
    curve remembers. *)
Record t := mk {
  id : string;
  points : option (list JS.number);
  x : JS.number;
  y : JS.number
}.
End DragOrigin.

Module Component.

Import Canvas.

Open Scope Q_scope.

(** The world of [Canvas] with the [useState] cells [textValue],
    [showTextHelp] and [dragOrigin].  [textPosition], the place of the text
    box on the screen, is computed from the bounding rectangle of the page
    and is left out. *)
Record t := mk {
  world : World;
  textValue : string;
  showTextHelp : bool;
  dragOrigin : option DragOrigin.t
}.

Definition initial : t :=
  {| world := mounted; textValue := ""; showTextHelp := false;
     dragOrigin := None |}.

(** Updates of the component, as [Canvas.Update] for the world. *)
Definition CUpdate : Type := t -> t.

Definition nothing : CUpdate := fun p => p.

Definition andThen (u v : CUpdate) : CUpdate := fun p => v (u p).

Notation "u ;;; v" := (andThen u v) (at level 61, right associativity).

Definition lift (u : Update) : CUpdate :=
  fun p => mk (u (world p)) (textValue p) (showTextHelp p) (dragOrigin p).

Definition setTextValue (v : string) : CUpdate :=
  fun p => mk (world p) v (showTextHelp p) (dragOrigin p).

Definition setShowTextHelp (v : bool) : CUpdate :=
  fun p => mk (world p) (textValue p) v (dragOrigin p).

Definition setDragOrigin (v : option DragOrigin.t) : CUpdate :=
  fun p => mk (world p) (textValue p) (showTextHelp p) v.

(** The update [u] keeps the property [P] of the world of the component. *)
Definition Keeps (P : World -> Prop) (u : CUpdate) : Prop :=
  forall p, P (world p) -> P (world (u p)).

(** *** Editing a text *)

(** [{...s, text, fontSize, fontFamily, textAlign, fontStyle,
    strokeWidth}] *)
Definition with_text (text : string) (fontSize : JS.number)
  (fontFamily textAlign fontStyle : string) (strokeWidth : JS.number)
  (s : Shape.t) : Shape.t :=
  Shape.mk (Shape.id s) (Shape.type s) (Shape.x s) (Shape.y s)
    (Shape.width s) (Shape.height s) (Shape.radius s) (Shape.points s)
    (Shape.bezierPoints s) (Shape.stroke s) strokeWidth (Shape.fill s)
    (Shape.draggable s) (Some text) (Some fontSize) (Some fontFamily)
    (Some textAlign) (Some fontStyle).

(** [textValue || '文本'] *)
Definition textOrDefault (textValue : string) : string :=
  if String.eqb textValue "" then "文本" else textValue.

(** [handleTextDblClick]; [id] is [e.target.id()], the empty string for a
    node without id. *)
Definition handleTextDblClick (id : string) (c : t) : CUpdate :=
  let w := world c in
  if String.eqb id "" then nothing
  else
    match find (fun s => String.eqb (Shape.id s) id
                         && String.eqb (Shape.type s) "text")
            (shapes (ui w)) with
    | None => nothing
    | Some textShape =>
        lift (setEditingText (Some id)) ;;;
        setTextValue
          (match Shape.text textShape with Some v => v | None => "" end) ;;;
        setShowTextHelp true ;;;
        lift (recordHistory w ("开始编辑文本 #" ++ id)%string)
    end.

Definition handleCompleteTextEdit (c : t) : CUpdate :=
  let w := world c in
  let d := drawing w in
  match editingText (ui w) with
  | None => nothing
  | Some editing =>
      match findShape editing (shapes (ui w)) with
      | None => nothing
      | Some _ =>
          lift
            (setShapes
               (updateShape editing
                  (with_text (textOrDefault (textValue c))
                     (DrawingStore.fontSize d) (DrawingStore.fontFamily d)
                     (DrawingStore.textAlign d) (DrawingStore.fontStyle d)
                     (DrawingStore.textStrokeWidth d))
                  (shapes (ui w)))) ;;;
          lift (setEditingText None) ;;;
          setShowTextHelp false ;;;
          lift (recordHistory w ("编辑文本 #" ++ editing)%string)
      end
  end.

Definition handleCancelTextEdit (c : t) : CUpdate :=
  lift (setEditingText None) ;;; setShowTextHelp false.

Definition handleTextareaChange (value : string) (c : t) : CUpdate :=
  setTextValue value.

Definition handleTextareaKeyDown (e : KeyboardEvent.t) (c : t) : CUpdate :=
  if String.eqb (KeyboardEvent.key e) "Escape" then handleCancelTextEdit c
  else if String.eqb (KeyboardEvent.key e) "Enter"
          && negb (KeyboardEvent.shiftKey e)
  then handleCompleteTextEdit c
  else nothing.

(** The body of a [setTimeout] callback, with the cells of the text box:
    the callback of the text tool also fills the box. *)
Definition runTimer (t : Timer) (newId : string) : CUpdate :=
  match t with
  | EnterTextEdit id =>
      lift (setEditingText (Some id)) ;;;
      setTextValue "点击输入文本" ;;;
      setShowTextHelp true
  | NextSegment _ _ _ _ _ => lift (Canvas.runTimer t newId)
  end.

(** *** Dragging a shape *)

(** [onDragStart] of a line and of a path (brush stroke). *)
Definition lineDragStart (shape : Shape.t) (nodeX nodeY : JS.number)
  (c : t) : CUpdate :=
  setDragOrigin
    (Some (DragOrigin.mk (Shape.id shape) (Shape.points shape) nodeX nodeY)).

(** [onDragEnd] of a line and of a path. *)
Definition lineDragEnd (shape : Shape.t) (nodeX nodeY : JS.number) (c : t)
  : CUpdate :=
  let w := world c in
  let id := Shape.id shape in
  match dragOrigin c with
  | Some origin =>
      if String.eqb (DragOrigin.id origin) id then
        match DragOrigin.points origin with
        | Some points =>
            let dx := nodeX - DragOrigin.x origin in
            let dy := nodeY - DragOrigin.y origin in
            let newPoints := Dragging.shiftPairs dx dy points in
            lift
              (setShapes
                 (updateShape id (Shape.with_points newPoints)
                    (shapes (ui w)))) ;;;
            lift
              (setAnnotations
                 (Dragging.updateAnnotationsOf id
                    (Dragging.shiftAnnotation dx dy) (annotations (ui w))))
        | None => nothing
        end
      else nothing
  | None => nothing
  end ;;;
  setDragOrigin None.

(** The point a curve holds after a move by [(dx, dy)]: the anchor and the
    control handles that are defined. *)
Definition shiftBezierPoint (dx dy : JS.number) (point : BezierPoint.t)
  : BezierPoint.t :=
  BezierPoint.mk (BezierPoint.x point + dx) (BezierPoint.y point + dy)
    (option_map (fun v => v + dx) (BezierPoint.controlX1 point))
    (option_map (fun v => v + dy) (BezierPoint.controlY1 point))
    (option_map (fun v => v + dx) (BezierPoint.controlX2 point))
    (option_map (fun v => v + dy) (BezierPoint.controlY2 point)).

(** [onDragStart] of a curve. *)
Definition bezierDragStart (shape : Shape.t) (nodeX nodeY : JS.number)
  (c : t) : CUpdate :=
  setDragOrigin (Some (DragOrigin.mk (Shape.id shape) None nodeX nodeY)).

(** [onDragEnd] of a curve. *)
Definition bezierDragEnd (shape : Shape.t) (nodeX nodeY : JS.number) (c : t)
  : CUpdate :=
  let w := world c in
  let id := Shape.id shape in
  match dragOrigin c with
  | Some origin =>
      if String.eqb (DragOrigin.id origin) id then
        let dx := nodeX - DragOrigin.x origin in
        let dy := nodeY - DragOrigin.y origin in
        match Shape.bezierPoints shape with
        | Some bezierPoints =>
            let newBezierPoints := map (shiftBezierPoint dx dy) bezierPoints in
            lift
              (setShapes
                 (updateShape id (Shape.with_bezierPoints newBezierPoints)
                    (shapes (ui w)))) ;;;
            (if isDrawing (ui w)
                && match currentShapeId (ui w) with
                   | Some cid => String.eqb cid id
                   | None => false
                   end
             then lift (setCurrentPath newBezierPoints)
             else nothing) ;;;
            lift (recordHistory w ("移动曲线路径 #" ++ id)%string)
        | None => nothing
        end
      else nothing
  | None => nothing
  end ;;;
  setDragOrigin None.

(** The drag handlers of the node that renders [shape], by its type (the
    [switch (shape.type)] of [renderShapes]). *)
Definition dragStart (shape : Shape.t) (nodeX nodeY : JS.number) (c : t)
  : CUpdate :=
  let type := Shape.type shape in
  if String.eqb type "line" || String.eqb type "path"
  then lineDragStart shape nodeX nodeY c
  else if String.eqb type "bezier" then bezierDragStart shape nodeX nodeY c
  else nothing.

Definition dragEnd (shape : Shape.t) (nodeX nodeY : JS.number) (c : t)
  : CUpdate :=
  let type := Shape.type shape in
  if String.eqb type "rectangle" || String.eqb type "circle"
     || String.eqb type "text"
  then lift (Dragging.handleShapeDragEnd (Shape.id shape) nodeX nodeY
               (world c))
  else if String.eqb type "line" || String.eqb type "path"
  then lineDragEnd shape nodeX nodeY c
  else if String.eqb type "bezier" then bezierDragEnd shape nodeX nodeY c
  else nothing.

(** *** Actions *)

(** What a user can do to the component: the events of [Canvas], the zoom
    buttons and the Cmd shortcuts, a drag of the node that renders
    [shapes[index]], and the events of the text box. *)
Inductive Action :=
| OnCanvas (ev : Event)
| ZoomIn
| ZoomOut
| ZoomReset
| CmdKey (e : KeyboardEvent.t)
| DragStart (index : nat) (nodeX nodeY : JS.number)
| DragEnd (index : nat) (nodeX nodeY : JS.number)
| TextDblClick (id : string)
| TextareaChange (value : string)
| TextareaKeyDown (e : KeyboardEvent.t)
| ToggleTextHelp.

Definition fire (h : t -> CUpdate) (c : t) : t := h c c.

Definition act (c : t) (a : Action) : t :=
  match a with
  | OnCanvas (Timeout newId) =>
      match timers (world c) with
      | t :: rest => runTimer t newId (lift (with_timers (fun _ => rest)) c)
      | [] => c
      end
  | OnCanvas ev => lift (fun _ => dispatch (world c) ev) c
  | ZoomIn => lift (Controls.handleZoomIn (world c)) c
  | ZoomOut => lift (Controls.handleZoomOut (world c)) c
  | ZoomReset => lift (Controls.handleZoomReset (world c)) c
  | CmdKey e => lift (Controls.handleKeydown e (world c)) c
  | DragStart index nodeX nodeY =>
      match nth_error (shapes (ui (world c))) index with
      | Some shape => fire (dragStart shape nodeX nodeY) c
      | None => c
      end
  | DragEnd index nodeX nodeY =>
      match nth_error (shapes (ui (world c))) index with
      | Some shape => fire (dragEnd shape nodeX nodeY) c
      | None => c
      end
  | TextDblClick id => fire (handleTextDblClick id) c
  | TextareaChange value => fire (handleTextareaChange value) c
  | TextareaKeyDown e => fire (handleTextareaKeyDown e) c
  | ToggleTextHelp => setShowTextHelp (negb (showTextHelp c)) c
  end.

Definition perform (actions : list Action) (c : t) : t :=
  fold_left act actions c.

(** A key pressed while the text box has the focus.  [onKeyDown] of the box
    handles it first; neither that handler nor a listener stops the event,
    which goes on to the two [keydown] listeners of [window]. *)
Definition textareaKey (e : KeyboardEvent.t) : list Action :=
  [TextareaKeyDown e; OnCanvas (KeyDown e); CmdKey e].

End Component.


(** ** Concrete documents used in the examples below *)

Module Examples.

Open Scope Q_scope.

(** A rectangle with the default style. *)
Definition rect (id : string) (x y width height : JS.number) : Shape.t :=
  Shape.mk id "rectangle" x y (Some width) (Some height) None None None
    "#000000" 10 "transparent" true None None None None None.

(** The document with the shapes [l] and no annotation. *)
Definition doc (l : list Shape.t) : HistoryStore.HistoryState :=
  HistoryStore.mkState l [].

Definition push (id : string) : HistoryStore.Call :=
  HistoryStore.AddHistory (doc [rect id 0 0 20 20]) id.

(** Five entries, then two undos: the store is at index 2 of 5. *)
Definition fiveThenTwoUndos : list HistoryStore.Call :=
  [push "a"; push "b"; push "c"; push "d"; push "e";
   HistoryStore.Undo; HistoryStore.Undo].

(** Thirty-one entries, described ["A"], ["B"], ... in the order of their
    codes. *)
Definition thirtyOnePushes : list HistoryStore.Call :=
  map (fun n => push (String (Ascii.ascii_of_nat (65 + n)) "")) (seq 0 31).

(** Three entries, then one undo: the store is at index 1 of 3. *)
Definition threeThenUndo : list HistoryStore.Call :=
  [push "a"; push "b"; push "c"; HistoryStore.Undo].

(** A pointer event on the empty stage, at screen position [(x, y)]. *)
Definition onStageAt (x y : JS.number) : MouseEvent.t :=
  MouseEvent.mk (Some (x, y)) true.

Definition pressed (key : string) : KeyboardEvent.t :=
  KeyboardEvent.mk key key false false false.

(** The polygon of the specification: segments [(0,0) -> (50,0)] and
    [(50,0) -> (50,50)], then a third segment released at [(5,3)]. *)
Definition polygonSession : list Canvas.Event :=
  [Canvas.PickTool Tool.polygon;
   Canvas.MouseDown (onStageAt 0 0) "a";
   Canvas.MouseMove (onStageAt 50 0) [];
   Canvas.MouseUp (onStageAt 50 0) [] "j1";
   Canvas.Timeout "b";
   Canvas.MouseMove (onStageAt 50 50) [];
   Canvas.MouseUp (onStageAt 50 50) [] "j2";
   Canvas.Timeout "c";
   Canvas.MouseMove (onStageAt 5 3) [];
   Canvas.MouseUp (onStageAt 5 3) [] "j3"].

(** The same polygon, continued with a fourth segment released at
    [(45,5)], near the second vertex [(50,0)]. *)
Definition polygonSessionContinued : list Canvas.Event :=
  polygonSession ++
  [Canvas.Timeout "d";
   Canvas.MouseMove (onStageAt 45 5) [];
   Canvas.MouseUp (onStageAt 45 5) [] "j4"].

(** A first rectangle from [(10,10)] to [(110,60)], whose right edge is at
    [x = 110]; then a second one started at [(200,100)] with the pointer
    moved to [(109,150)]. *)
Definition rectangleBesideEdge : list Canvas.Event :=
  [Canvas.PickTool Tool.rectangle;
   Canvas.MouseDown (onStageAt 10 10) "b";
   Canvas.MouseMove (onStageAt 110 60) [];
   Canvas.MouseUp (onStageAt 110 60) [] "j";
   Canvas.MouseDown (onStageAt 200 100) "a";
   Canvas.MouseMove (onStageAt 109 150) []].

(** The same with the line tool for the second shape. *)
Definition lineBesideEdge : list Canvas.Event :=
  [Canvas.PickTool Tool.rectangle;
   Canvas.MouseDown (onStageAt 10 10) "b";
   Canvas.MouseMove (onStageAt 110 60) [];
   Canvas.MouseUp (onStageAt 110 60) [] "j";
   Canvas.PickTool Tool.line;
   Canvas.MouseDown (onStageAt 200 100) "a";
   Canvas.MouseMove (onStageAt 109 150) []].

(** A rectangle dragged from [(10,10)] to [(12,110)]: width 2, height 100,
    up to the release of the pointer. *)
Definition thinRectangle : list Canvas.Event :=
  [Canvas.PickTool Tool.rectangle;
   Canvas.MouseDown (onStageAt 10 10) "b";
   Canvas.MouseMove (onStageAt 12 110) []].

(** A rectangle dragged from [(10,10)] to [(12,11)]. *)
Definition tinyRectangle : list Canvas.Event :=
  [Canvas.PickTool Tool.rectangle;
   Canvas.MouseDown (onStageAt 10 10) "b";
   Canvas.MouseMove (onStageAt 12 11) []].

(** A committed rectangle ["b"], selected, while the text shape ["t"] is
    being edited. *)
Definition selectedWhileEditing : list Canvas.Event :=
  [Canvas.PickTool Tool.rectangle;
   Canvas.MouseDown (onStageAt 10 10) "b";
   Canvas.MouseMove (onStageAt 110 60) [];
   Canvas.MouseUp (onStageAt 110 60) [] "j";
   Canvas.PickTool Tool.text;
   Canvas.MouseDown (onStageAt 300 300) "t";
   Canvas.MouseUp (onStageAt 300 300) [] "j";
   Canvas.Timeout "";
   Canvas.Select "b"].

End Examples.

(** ** Further sessions used in examples *)

Module MoreExamples.

Import Examples.

Open Scope Q_scope.

Definition ctrlZ : KeyboardEvent.t :=
  KeyboardEvent.mk "KeyZ" "z" true false false.

Definition ctrlY : KeyboardEvent.t :=
  KeyboardEvent.mk "KeyY" "y" true false false.

Definition enter : KeyboardEvent.t :=
  KeyboardEvent.mk "Enter" "Enter" false false false.

(** Space is held and the pointer is pressed at [(100,100)]. *)
Definition panning : list Canvas.Event :=
  [Canvas.KeyDown (pressed "Space");
   Canvas.MouseDown (onStageAt 100 100) "x"].

(** The rectangle tool is picked. *)
Definition rectangleTool : list Canvas.Event :=
  [Canvas.PickTool Tool.rectangle].

(** The first segment of a polygon, started at [(0,0)], with the pointer
    at [(50,0)]. *)
Definition polygonFirstSegment : list Canvas.Event :=
  [Canvas.PickTool Tool.polygon;
   Canvas.MouseDown (onStageAt 0 0) "a";
   Canvas.MouseMove (onStageAt 50 0) []].


(** A text put at [(300,300)] and edited to ["hello"]. *)
Definition textSession : list Component.Action :=
  [Component.OnCanvas (Canvas.PickTool Tool.text);
   Component.OnCanvas (Canvas.MouseDown (onStageAt 300 300) "t");
   Component.OnCanvas (Canvas.MouseUp (onStageAt 300 300) [] "j");
   Component.OnCanvas (Canvas.Timeout "");
   Component.TextareaChange "hello";
   Component.TextareaKeyDown enter].

(** A pointer event on a shape, at screen position [(x, y)]. *)
Definition onShapeAt (x y : JS.number) : MouseEvent.t :=
  MouseEvent.mk (Some (x, y)) false.

(** A text whose generated id is the empty string ([Math.random()]
    returned [0], of which [toString(36).substring(2, 11)] is empty): put
    at [(300,300)] with the text tool, typed and completed with Enter. *)
Definition emptyIdText : list Component.Action :=
  [Component.OnCanvas (Canvas.PickTool Tool.text);
   Component.OnCanvas (Canvas.MouseDown (onStageAt 300 300) "");
   Component.OnCanvas (Canvas.MouseUp (onStageAt 300 300) [] "j");
   Component.OnCanvas (Canvas.Timeout "");
   Component.TextareaChange "hello"] ++
  Component.textareaKey enter.

(** A click on the shape [id], at screen position [(x, y)]. *)
Definition clickShape (id : string) (x y : JS.number)
  : list Component.Action :=
  [Component.OnCanvas (Canvas.MouseDown (onShapeAt x y) "x");
   Component.OnCanvas (Canvas.MouseUp (onShapeAt x y) [] "j");
   Component.OnCanvas (Canvas.Select id)].

(** A click on the text of [emptyIdText] with the select tool. *)
Definition clickEmptyIdText : list Component.Action :=
  Component.OnCanvas (Canvas.PickTool Tool.select) :: clickShape "" 310 305.

(** The text of [textSession], opened again by a double click with the
    select tool; the two clicks select it. *)
Definition textOpenedAgain : list Component.Action :=
  textSession ++
  [Component.OnCanvas (Canvas.PickTool Tool.select)] ++
  clickShape "t" 310 305 ++ clickShape "t" 310 305 ++
  [Component.TextDblClick "t"].

(** The text of [emptyIdText], selected by a click. *)
Definition emptyIdTextSelected : list Component.Action :=
  emptyIdText ++ clickEmptyIdText.

(** The same text, selected by a click while a second text, ["u"], put at
    [(600,300)], is being edited. *)
Definition emptyIdTextSelectedWhileEditing : list Component.Action :=
  emptyIdText ++
  [Component.OnCanvas (Canvas.MouseDown (onStageAt 600 300) "u");
   Component.OnCanvas (Canvas.MouseUp (onStageAt 600 300) [] "j");
   Component.OnCanvas (Canvas.Timeout "")] ++
  clickEmptyIdText.

End MoreExamples.

(** * Properties *)

(** ** Arrays *)

Module JSFacts.

Lemma length_nonneg {A} (l : list A) : 0 <= JS.length l.
Proof. unfold JS.length. lia. Qed.

Lemma length_app {A} (l k : list A) :
  JS.length (l ++ k) = JS.length l + JS.length k.
Proof. unfold JS.length. rewrite List.length_app. lia. Qed.

(** A prefix taken with [slice(0, n)], for [0 <= n]. *)
Lemma slice_prefix {A} (l : list A) (n : Z) :
  0 <= n -> JS.slice l 0 n = firstn (Z.to_nat n) l.
Proof.
  intros Hn. unfold JS.slice, JS.rel_index.
  pose proof (length_nonneg l) as Hl.
  replace (0 <? 0) with false by reflexivity.
  replace (n <? 0) with false by (symmetry; apply Z.ltb_ge; lia).
  rewrite (Z.min_l 0) by lia. simpl skipn. rewrite Z.sub_0_r.
  destruct (Z.le_gt_cases n (JS.length l)) as [H | H].
  - rewrite Z.min_l by lia. reflexivity.
  - rewrite Z.min_r by lia.
    unfold JS.length in *. rewrite Nat2Z.id.
    rewrite firstn_all. symmetry. apply firstn_all2. lia.
Qed.

(** A suffix taken with [slice(k)], for [0 <= k]. *)
Lemma slice_from_suffix {A} (l : list A) (k : Z) :
  0 <= k -> JS.slice_from l k = skipn (Z.to_nat k) l.
Proof.
  intros Hk. unfold JS.slice_from, JS.slice, JS.rel_index.
  pose proof (length_nonneg l) as Hl.
  replace (k <? 0) with false by (symmetry; apply Z.ltb_ge; lia).
  replace (JS.length l <? 0) with false by (symmetry; apply Z.ltb_ge; lia).
  rewrite Z.min_id.
  destruct (Z.le_gt_cases k (JS.length l)) as [H | H].
  - rewrite Z.min_l by lia. apply firstn_all2.
    rewrite length_skipn. unfold JS.length in *. lia.
  - rewrite Z.min_r by lia. rewrite Z.sub_diag. simpl.
    symmetry. apply skipn_all2. unfold JS.length in *. lia.
Qed.

Lemma get_app_last {A} (l : list A) (x : A) :
  JS.get (l ++ [x]) (JS.length l) = Some x.
Proof.
  unfold JS.get, JS.length.
  replace (Z.of_nat (List.length l) <? 0) with false
    by (symmetry; apply Z.ltb_ge; lia).
  rewrite Nat2Z.id. rewrite nth_error_app2 by lia.
  rewrite Nat.sub_diag. reflexivity.
Qed.

Lemma get_in_range {A} (l : list A) (i : Z) :
  0 <= i < JS.length l -> exists v, JS.get l i = Some v.
Proof.
  intros [H0 H1]. unfold JS.get.
  replace (i <? 0) with false by (symmetry; apply Z.ltb_ge; lia).
  destruct (nth_error l (Z.to_nat i)) eqn:E; [eauto |].
  apply nth_error_None in E. unfold JS.length in H1. lia.
Qed.

End JSFacts.

(** ** The history store *)

Module HistoryFacts.

Import HistoryStore.

(** [addHistory] keeps the entries up to the current one, appends the new
    record and drops entries from the front down to the maximum size. *)
Lemma addHistory_history (st : HistoryState) (d : string) (s : t) :
  -1 <= currentIndex s ->
  history (addHistory st d s) =
  skipn
    (Z.to_nat
       (JS.length
          (firstn (Z.to_nat (currentIndex s + 1)) (history s)
           ++ [newRecord st d]) - maxHistorySize s))
    (firstn (Z.to_nat (currentIndex s + 1)) (history s)
     ++ [newRecord st d]).
Proof.
  intros Hidx. unfold addHistory. cbn [history].
  assert (Hkeep :
    (if currentIndex s <? JS.length (history s) - 1
     then JS.slice (history s) 0 (currentIndex s + 1)
     else history s)
    = firstn (Z.to_nat (currentIndex s + 1)) (history s)).
  { destruct (currentIndex s <? JS.length (history s) - 1) eqn:E.
    - apply JSFacts.slice_prefix. lia.
    - apply Z.ltb_ge in E. symmetry. apply firstn_all2.
      unfold JS.length in E. lia. }
  rewrite Hkeep.
  set (full := firstn (Z.to_nat (currentIndex s + 1)) (history s)
               ++ [newRecord st d]).
  destruct (JS.length full >? maxHistorySize s) eqn:E.
  - apply JSFacts.slice_from_suffix. apply Z.gtb_lt in E. lia.
  - assert (JS.length full - maxHistorySize s <= 0)
      by (rewrite Z.gtb_ltb in E; apply Z.ltb_ge in E; lia).
    replace (Z.to_nat (JS.length full - maxHistorySize s)) with 0%nat by lia.
    reflexivity.
Qed.

Lemma addHistory_index (st : HistoryState) (d : string) (s : t) :
  currentIndex (addHistory st d s)
  = JS.length (history (addHistory st d s)) - 1.
Proof. reflexivity. Qed.

Lemma addHistory_max (st : HistoryState) (d : string) (s : t) :
  maxHistorySize (addHistory st d s) = maxHistorySize s.
Proof. reflexivity. Qed.

Lemma length_skipn_Z {A} (l : list A) (k : Z) :
  0 <= k <= JS.length l ->
  JS.length (skipn (Z.to_nat k) l) = JS.length l - k.
Proof.
  intros H. unfold JS.length in *. rewrite length_skipn. lia.
Qed.

Lemma length_firstn_Z {A} (l : list A) (k : Z) :
  0 <= k <= JS.length l ->
  JS.length (firstn (Z.to_nat k) l) = k.
Proof.
  intros H. unfold JS.length in *. rewrite length_firstn. lia.
Qed.

Lemma Inv_initial : Inv initial.
Proof. unfold Inv, initial, JS.length; cbn. intuition lia. Qed.

Lemma Inv_index_lower (s : t) : Inv s -> -1 <= currentIndex s.
Proof. unfold Inv. lia. Qed.

Lemma Inv_addHistory (st : HistoryState) (d : string) (s : t) :
  Inv s -> Inv (addHistory st d s).
Proof.
  intros HI. pose proof (Inv_index_lower s HI) as Hlow.
  destruct HI as (Hmax & Hlen & Hidx).
  unfold Inv. rewrite addHistory_index, addHistory_max.
  rewrite (addHistory_history st d s Hlow). rewrite Hmax.
  set (kept := firstn (Z.to_nat (currentIndex s + 1)) (history s)).
  assert (Hk : 0 <= JS.length kept <= JS.length (history s)).
  { unfold kept, JS.length. rewrite length_firstn. lia. }
  assert (Hf : JS.length (kept ++ [newRecord st d]) = JS.length kept + 1).
  { rewrite JSFacts.length_app. reflexivity. }
  destruct (Z.le_gt_cases (JS.length (kept ++ [newRecord st d])) 30).
  - replace (Z.to_nat (JS.length (kept ++ [newRecord st d]) - 30))
      with 0%nat by lia.
    cbn [skipn]. lia.
  - rewrite length_skipn_Z by lia. lia.
Qed.

Lemma Inv_undo (s : t) : Inv s -> Inv (snd (undo s)).
Proof.
  unfold undo. destruct (currentIndex s <=? 0) eqn:E; [trivial |].
  apply Z.leb_gt in E. unfold Inv. cbn. lia.
Qed.

Lemma Inv_redo (s : t) : Inv s -> Inv (snd (redo s)).
Proof.
  unfold redo. destruct (currentIndex s >=? JS.length (history s) - 1) eqn:E;
    [trivial |].
  rewrite Z.geb_leb in E. apply Z.leb_gt in E. unfold Inv. cbn.
  intros (Hmax & Hlen & [[Hi Hh] | Hi]).
  - rewrite Hh in E. unfold JS.length in E. simpl in E. lia.
  - lia.
Qed.

Lemma Inv_call (s : t) (c : Call) : Inv s -> Inv (call s c).
Proof.
  destruct c; cbn [call].
  - apply Inv_addHistory.
  - apply Inv_undo.
  - apply Inv_redo.
  - intros (Hmax & _). unfold Inv, resetHistory, JS.length; cbn.
    intuition lia.
  - unfold Inv, setSaved; cbn. trivial.
Qed.

Lemma Inv_fold (cs : list Call) (s : t) : Inv s -> Inv (fold_left call cs s).
Proof.
  revert s. induction cs as [| c cs IH]; intros s HI; cbn.
  - exact HI.
  - apply IH, Inv_call, HI.
Qed.

Lemma Inv_run (cs : list Call) : Inv (run cs).
Proof. apply Inv_fold, Inv_initial. Qed.

(** In a reachable store the current entry exists whenever the index is not
    the sentinel. *)
Lemma state_at_in_range (s : t) (i : Z) :
  0 <= i < JS.length (history s) ->
  exists r, JS.get (history s) i = Some r /\ state_at s i = Some (state r).
Proof.
  intros H. destruct (JSFacts.get_in_range (history s) i H) as [r Hr].
  exists r. unfold state_at. rewrite Hr. auto.
Qed.

Lemma getCurrentState_in_range (s : t) :
  0 <= currentIndex s < JS.length (history s) ->
  getCurrentState s = state_at s (currentIndex s).
Proof.
  intros H. unfold getCurrentState.
  replace (currentIndex s >=? 0) with true
    by (symmetry; rewrite Z.geb_leb; apply Z.leb_le; lia).
  replace (currentIndex s <? JS.length (history s)) with true
    by (symmetry; apply Z.ltb_lt; lia).
  reflexivity.
Qed.

(** After [addHistory] the pushed snapshot is the current one. *)
Lemma getCurrentState_addHistory (st : HistoryState) (d : string) (s : t) :
  Inv s -> getCurrentState (addHistory st d s) = Some st.
Proof.
  intros HI. pose proof (Inv_addHistory st d s HI) as HI'.
  pose proof (Inv_index_lower s HI) as Hlow.
  destruct HI as (Hmax & Hlen & Hidx).
  pose proof (addHistory_history st d s Hlow) as Hh.
  pose proof (addHistory_index st d s) as Hi.
  set (s' := addHistory st d s) in *.
  set (kept := firstn (Z.to_nat (currentIndex s + 1)) (history s)) in *.
  assert (Hk : 0 <= JS.length kept <= JS.length (history s)).
  { unfold kept, JS.length. rewrite length_firstn. lia. }
  rewrite JSFacts.length_app, Hmax in Hh.
  set (k := Z.to_nat (JS.length kept + JS.length [newRecord st d] - 30)) in *.
  assert (Hk' : (k <= List.length kept)%nat).
  { unfold k, JS.length in *. simpl. simpl in Hlen. lia. }
  rewrite skipn_app in Hh.
  replace (k - List.length kept)%nat with 0%nat in Hh by lia.
  cbn [skipn] in Hh.
  assert (Hl : JS.length (history s') = JS.length (skipn k kept) + 1).
  { rewrite Hh, JSFacts.length_app. reflexivity. }
  pose proof (JSFacts.length_nonneg (skipn k kept)) as Hnn.
  rewrite getCurrentState_in_range by lia.
  unfold state_at. rewrite Hi, Hl.
  replace (JS.length (skipn k kept) + 1 - 1) with (JS.length (skipn k kept))
    by lia.
  rewrite Hh, JSFacts.get_app_last. destruct st; reflexivity.
Qed.

(** C1. After any sequence of [addHistory], [undo], [redo], [resetHistory]
    (and [setSaved]) calls from the initial store, the history holds at most
    [maxHistorySize = 30] entries and [currentIndex] is [-1] or an index of
    the history; and a further [addHistory] drops entries from the front
    only: its history is what remains of the kept entries followed by the
    new record after the oldest ones beyond 30 are skipped. *)
Theorem history_bounded_oldest_evicted (cs : list Call) :
  let s := run cs in
  maxHistorySize s = 30
  /\ JS.length (history s) <= maxHistorySize s
  /\ (currentIndex s = -1 \/ 0 <= currentIndex s < JS.length (history s))
  /\ forall st d,
       let full := firstn (Z.to_nat (currentIndex s + 1)) (history s)
                   ++ [newRecord st d] in
       history (addHistory st d s)
       = skipn (Z.to_nat (JS.length full - 30)) full.
Proof.
  intros s. pose proof (Inv_run cs) as HI. fold s in HI.
  pose proof (Inv_index_lower s HI) as Hlow.
  destruct HI as (Hmax & Hlen & Hidx).
  repeat split.
  - exact Hmax.
  - lia.
  - lia.
  - intros st d full. unfold full. rewrite <- Hmax.
    apply addHistory_history, Hlow.
Qed.

(** The thirty-first push evicts the first entry, and only that one. *)
Lemma thirty_one_pushes :
  map description (history (run Examples.thirtyOnePushes))
  = map description
      (skipn 1 (map (fun c => match c with
                              | AddHistory st d => newRecord st d
                              | _ => newRecord (Examples.doc []) ""
                              end) Examples.thirtyOnePushes))
  /\ JS.length (history (run Examples.thirtyOnePushes)) = 30
  /\ currentIndex (run Examples.thirtyOnePushes) = 29.
Proof. vm_compute. repeat split; reflexivity. Qed.

(** C2. In a reachable store that is not at the tail
    ([currentIndex < history.length - 1]), [addHistory] drops every entry
    after the current one and appends the new record, which becomes the
    current entry; the entries up to the old current index are untouched. *)
Theorem push_prunes_redo_branch
  (cs : list Call) (st : HistoryState) (d : string) :
  let s := run cs in
  currentIndex s < JS.length (history s) - 1 ->
  let s' := addHistory st d s in
  history s'
  = firstn (Z.to_nat (currentIndex s + 1)) (history s) ++ [newRecord st d]
  /\ JS.length (history s') = currentIndex s + 2
  /\ currentIndex s' = currentIndex s + 1
  /\ getCurrentState s' = Some st.
Proof.
  intros s Hnot s'.
  pose proof (Inv_run cs) as HI. fold s in HI.
  pose proof (Inv_index_lower s HI) as Hlow.
  destruct HI as (Hmax & Hlen & Hidx).
  assert (Hk : JS.length (firstn (Z.to_nat (currentIndex s + 1)) (history s))
               = currentIndex s + 1)
    by (apply length_firstn_Z; lia).
  assert (Hh : history s'
    = firstn (Z.to_nat (currentIndex s + 1)) (history s)
      ++ [newRecord st d]).
  { unfold s'. rewrite (addHistory_history st d s Hlow).
    rewrite JSFacts.length_app, Hk, Hmax.
    replace (Z.to_nat (currentIndex s + 1 + JS.length [newRecord st d] - 30))
      with 0%nat by (unfold JS.length; simpl; lia).
    reflexivity. }
  assert (Hl : JS.length (history s') = currentIndex s + 2).
  { rewrite Hh, JSFacts.length_app, Hk. unfold JS.length; simpl; lia. }
  assert (Hi : currentIndex s' = currentIndex s + 1).
  { unfold s'. rewrite addHistory_index. fold s'. lia. }
  repeat split; try assumption.
  rewrite getCurrentState_in_range by lia.
  unfold state_at. rewrite Hi, Hh.
  set (kept := firstn (Z.to_nat (currentIndex s + 1)) (history s)) in *.
  rewrite <- Hk, JSFacts.get_app_last.
  destruct st; reflexivity.
Qed.

(** The example of C2: five entries, two undos (index 2), one push: the
    history has 4 entries and the new one, at index 3, is current. *)
Lemma push_prunes_redo_branch_example :
  let s := run Examples.fiveThenTwoUndos in
  let s' := addHistory (Examples.doc []) "f" s in
  (JS.length (history s) = 5 /\ currentIndex s = 2)
  /\ currentIndex s < JS.length (history s) - 1
  /\ JS.length (history s') = 4
  /\ currentIndex s' = 3
  /\ getCurrentState s' = Some (Examples.doc []).
Proof.
  intros s s'.
  assert (H : currentIndex s < JS.length (history s) - 1)
    by (vm_compute; reflexivity).
  destruct (push_prunes_redo_branch Examples.fiveThenTwoUndos
              (Examples.doc []) "f" H) as (_ & Hl & Hi & Hc).
  split; [split; vm_compute; reflexivity |].
  split; [exact H |].
  split; [exact Hl |].
  split; [exact Hi | exact Hc].
Defined.

(** C3. In a reachable store where [canUndo()] holds, [undo()] then [redo()]
    leaves the index, the history and the current snapshot as they were, and
    the [redo()] returns that snapshot; where [canRedo()] holds, the same is
    true of [redo()] then [undo()]. *)
Theorem undo_redo_roundtrip (cs : list Call) :
  let s := run cs in
  (canUndo s = true ->
   let r := redo (snd (undo s)) in
   currentIndex (snd r) = currentIndex s
   /\ history (snd r) = history s
   /\ getCurrentState (snd r) = getCurrentState s
   /\ fst r = getCurrentState s
   /\ getCurrentState s <> None)
  /\ (canRedo s = true ->
      let r := undo (snd (redo s)) in
      currentIndex (snd r) = currentIndex s
      /\ history (snd r) = history s
      /\ getCurrentState (snd r) = getCurrentState s
      /\ fst r = getCurrentState s
      /\ getCurrentState s <> None).
Proof.
  intros s. pose proof (Inv_run cs) as HI. fold s in HI.
  destruct HI as (Hmax & Hlen & Hidx).
  split.
  - unfold canUndo. intros Hu. rewrite Z.gtb_ltb in Hu. apply Z.ltb_lt in Hu.
    assert (Hr : 0 <= currentIndex s < JS.length (history s)) by lia.
    unfold undo.
    replace (currentIndex s <=? 0) with false
      by (symmetry; apply Z.leb_gt; lia).
    cbn [snd]. unfold redo. cbn [currentIndex history set_index].
    replace (currentIndex s - 1 >=? JS.length (history s) - 1) with false
      by (symmetry; rewrite Z.geb_leb; apply Z.leb_gt; lia).
    cbn [snd fst]. replace (currentIndex s - 1 + 1) with (currentIndex s)
      by lia.
    rewrite (getCurrentState_in_range s Hr).
    destruct (state_at_in_range s (currentIndex s) Hr) as (r & _ & Hs).
    repeat split.
    + unfold getCurrentState. cbn.
      replace (currentIndex s >=? 0) with true
        by (symmetry; rewrite Z.geb_leb; apply Z.leb_le; lia).
      replace (currentIndex s <? JS.length (history s)) with true
        by (symmetry; apply Z.ltb_lt; lia).
      reflexivity.
    + rewrite Hs. discriminate.
  - unfold canRedo. intros Hu. apply Z.ltb_lt in Hu.
    assert (Hr : 0 <= currentIndex s < JS.length (history s)).
    { destruct Hidx as [[Hi Hh] | Hi]; [| lia].
      rewrite Hh in Hu. unfold JS.length in Hu. simpl in Hu. lia. }
    unfold redo.
    replace (currentIndex s >=? JS.length (history s) - 1) with false
      by (symmetry; rewrite Z.geb_leb; apply Z.leb_gt; lia).
    cbn [snd]. unfold undo. cbn [currentIndex history set_index].
    replace (currentIndex s + 1 <=? 0) with false
      by (symmetry; apply Z.leb_gt; lia).
    cbn [snd fst]. replace (currentIndex s + 1 - 1) with (currentIndex s)
      by lia.
    rewrite (getCurrentState_in_range s Hr).
    destruct (state_at_in_range s (currentIndex s) Hr) as (r & _ & Hs).
    repeat split.
    + unfold getCurrentState. cbn.
      replace (currentIndex s >=? 0) with true
        by (symmetry; rewrite Z.geb_leb; apply Z.leb_le; lia).
      replace (currentIndex s <? JS.length (history s)) with true
        by (symmetry; apply Z.ltb_lt; lia).
      reflexivity.
    + rewrite Hs. discriminate.
Qed.

(** C3 at the store with three entries and one undo, where both [canUndo()]
    and [canRedo()] hold. *)
Lemma undo_redo_roundtrip_example :
  let s := run Examples.threeThenUndo in
  (canUndo s = true /\ canRedo s = true)
  /\ currentIndex (snd (redo (snd (undo s)))) = currentIndex s
  /\ getCurrentState (snd (redo (snd (undo s)))) = getCurrentState s
  /\ currentIndex (snd (undo (snd (redo s)))) = currentIndex s
  /\ getCurrentState (snd (undo (snd (redo s)))) = getCurrentState s.
Proof.
  intros s.
  assert (Hu : canUndo s = true) by (vm_compute; reflexivity).
  assert (Hr : canRedo s = true) by (vm_compute; reflexivity).
  destruct (undo_redo_roundtrip Examples.threeThenUndo) as [H1 H2].
  destruct (H1 Hu) as (A1 & _ & A2 & _).
  destruct (H2 Hr) as (B1 & _ & B2 & _).
  split; [split; assumption |].
  split; [exact A1 |].
  split; [exact A2 |].
  split; [exact B1 | exact B2].
Defined.

(** C4. In a reachable store, [undo()] at index [0] or [-1] and [redo()] at
    the tail return [null] and leave the store as it is; in every other
    state [undo()] moves the index down by one, [redo()] up by one, and the
    call returns the snapshot stored at the new index. *)
Theorem undo_redo_boundaries (cs : list Call) :
  let s := run cs in
  (currentIndex s <= 0 -> undo s = (None, s))
  /\ (currentIndex s = JS.length (history s) - 1 -> redo s = (None, s))
  /\ (0 < currentIndex s ->
      exists r,
        JS.get (history s) (currentIndex s - 1) = Some r
        /\ undo s = (Some (state r), set_index (currentIndex s - 1) s))
  /\ (currentIndex s <> JS.length (history s) - 1 ->
      exists r,
        JS.get (history s) (currentIndex s + 1) = Some r
        /\ redo s = (Some (state r), set_index (currentIndex s + 1) s)).
Proof.
  intros s. pose proof (Inv_run cs) as HI. fold s in HI.
  destruct HI as (Hmax & Hlen & Hidx).
  repeat split.
  - intros H. unfold undo.
    replace (currentIndex s <=? 0) with true
      by (symmetry; apply Z.leb_le; lia).
    reflexivity.
  - intros H. unfold redo.
    replace (currentIndex s >=? JS.length (history s) - 1) with true
      by (symmetry; rewrite Z.geb_leb; apply Z.leb_le; lia).
    reflexivity.
  - intros H.
    assert (Hr : 0 <= currentIndex s - 1 < JS.length (history s)) by lia.
    destruct (state_at_in_range s _ Hr) as (r & Hg & Hs).
    exists r. split; [exact Hg |]. unfold undo.
    replace (currentIndex s <=? 0) with false
      by (symmetry; apply Z.leb_gt; lia).
    rewrite Hs. reflexivity.
  - intros H.
    assert (Hr : 0 <= currentIndex s + 1 < JS.length (history s)).
    { destruct Hidx as [[Hi Hh] | Hi]; [| lia].
      rewrite Hh in H. unfold JS.length in H. simpl in H. lia. }
    destruct (state_at_in_range s _ Hr) as (r & Hg & Hs).
    exists r. split; [exact Hg |]. unfold redo.
    replace (currentIndex s >=? JS.length (history s) - 1) with false
      by (symmetry; rewrite Z.geb_leb; apply Z.leb_gt; lia).
    rewrite Hs. reflexivity.
Qed.

(** C4 at the initial store (index [-1], which is also the tail of the empty
    history) and at the store with three entries and one undo. *)
Lemma undo_redo_boundaries_example :
  (currentIndex (run []) <= 0 /\ undo (run []) = (None, run []))
  /\ (currentIndex (run []) = JS.length (history (run [])) - 1
      /\ redo (run []) = (None, run []))
  /\ (0 < currentIndex (run Examples.threeThenUndo)
      /\ currentIndex (snd (undo (run Examples.threeThenUndo))) = 0)
  /\ (currentIndex (run Examples.threeThenUndo)
      <> JS.length (history (run Examples.threeThenUndo)) - 1
      /\ currentIndex (snd (redo (run Examples.threeThenUndo))) = 2).
Proof.
  destruct (undo_redo_boundaries []) as (U0 & R0 & _ & _).
  destruct (undo_redo_boundaries Examples.threeThenUndo)
    as (_ & _ & U1 & R1).
  assert (H0 : currentIndex (run []) <= 0) by (vm_compute; discriminate).
  assert (H1 : currentIndex (run []) = JS.length (history (run [])) - 1)
    by (vm_compute; reflexivity).
  assert (H2 : 0 < currentIndex (run Examples.threeThenUndo))
    by (vm_compute; reflexivity).
  assert (H3 : currentIndex (run Examples.threeThenUndo)
               <> JS.length (history (run Examples.threeThenUndo)) - 1)
    by (vm_compute; discriminate).
  split; [split; [exact H0 | exact (U0 H0)] |].
  split; [split; [exact H1 | exact (R0 H1)] |].
  split.
  - split; [exact H2 |]. destruct (U1 H2) as (r & _ & E). rewrite E.
    vm_compute. reflexivity.
  - split; [exact H3 |]. destruct (R1 H3) as (r & _ & E). rewrite E.
    vm_compute. reflexivity.
Defined.

End HistoryFacts.


(** ** Numbers *)

Module NumFacts.

Open Scope Q_scope.

Lemma ltb_lt (a b : Q) : JS.ltb a b = true <-> a < b.
Proof.
  unfold JS.ltb. rewrite Qlt_alt.
  destruct (a ?= b); split; intros H; try reflexivity; try discriminate.
Qed.

Lemma ltb_ge (a b : Q) : JS.ltb a b = false <-> b <= a.
Proof.
  split; intros H.
  - apply Qnot_lt_le. intros C. apply ltb_lt in C. congruence.
  - destruct (JS.ltb a b) eqn:E; [| reflexivity].
    apply ltb_lt in E. exfalso. apply (Qlt_not_le _ _ E H).
Qed.

Lemma sum_of_squares_nonneg (a b : Q) : 0 <= a * a + b * b.
Proof.
  assert (H : forall c : Q, 0 <= c * c).
  { intros [n d]. unfold Qle, Qmult. cbn. nia. }
  pose proof (H a). pose proof (H b). lra.
Qed.

(** Comparing [Math_sqrt a] with a positive integer is comparing [a] with
    the square of that integer: the rounding of the root does not show. *)
Lemma Math_sqrt_lt_int (a : Q) (n : Z) :
  0 <= a -> (0 < n)%Z ->
  (Num.Math_sqrt a < inject_Z n <-> a < inject_Z (n * n)).
Proof.
  intros Ha Hn. unfold Num.Math_sqrt, Qlt, inject_Z. cbn [Qnum Qden].
  destruct a as [p q]. cbn [Qnum Qden]. unfold Qle in Ha. cbn in Ha.
  rewrite !Z.mul_1_r.
  assert (Hp : (0 <= p)%Z) by lia.
  set (K := (2 ^ 52)%Z).
  assert (HK : (0 < K)%Z) by (unfold K; reflexivity).
  replace (Z.pos (2 ^ 52)) with K by reflexivity.
  replace (4 ^ 52)%Z with (K * K)%Z by reflexivity.
  set (m := (p * (K * K) / Z.pos q)%Z).
  assert (Hm : (0 <= m)%Z) by (apply Z.div_pos; nia).
  rewrite <- (Z.sqrt_lt_square m (n * K)) by nia.
  unfold m. split; intros H.
  - assert ((p * (K * K) < n * K * (n * K) * Z.pos q)%Z).
    { apply Z.nle_gt. intros C.
      assert (n * K * (n * K) <= p * (K * K) / Z.pos q)%Z; [| lia].
      apply Z.div_le_lower_bound; lia. }
    nia.
  - apply Z.div_lt_upper_bound; [lia |]. nia.
Qed.

(** The closing test of the polygon tool,
    [Math.sqrt(dx * dx + dy * dy) < closeDistance], holds exactly when the
    squared distance is below [15 * 15]. *)
Lemma within_closeDistance (dx dy : Q) :
  JS.ltb (Num.Math_sqrt (dx * dx + dy * dy)) Canvas.closeDistance = true
  <-> dx * dx + dy * dy < 225.
Proof.
  rewrite ltb_lt.
  apply (Math_sqrt_lt_int (dx * dx + dy * dy) 15);
    [apply sum_of_squares_nonneg | reflexivity].
Qed.

End NumFacts.

(** ** Zoom *)

Module ZoomFacts.

Import Canvas.

Open Scope Q_scope.

Lemma limitZoom_cases (n : Q) :
  (n <= 20 /\ limitZoom n == 20)
  \/ (20 <= n <= 400 /\ limitZoom n == n)
  \/ (400 <= n /\ limitZoom n == 400).
Proof.
  unfold limitZoom.
  destruct (Q.min_spec 400 n) as [[H1 E1] | [H1 E1]];
  destruct (Q.max_spec 20 (Qmin 400 n)) as [[H2 E2] | [H2 E2]];
  rewrite E1 in *; rewrite E2; clear E1 E2.
  - right. right. split; [lra | reflexivity].
  - exfalso. lra.
  - right. left. split; [lra | reflexivity].
  - left. split; [lra | reflexivity].
Qed.

(** The clamp of the store, [10 .. 1000], leaves a zoom limited to
    [20 .. 400] as it is. *)
Lemma setZoom_limitZoom (n : Q) (s : CanvasStore.t) :
  CanvasStore.zoom (CanvasStore.setZoom (limitZoom n) s) == limitZoom n.
Proof.
  unfold CanvasStore.setZoom, CanvasStore.MIN_ZOOM, CanvasStore.MAX_ZOOM.
  cbn [CanvasStore.zoom].
  assert (H : 20 <= limitZoom n <= 400)
    by (destruct (limitZoom_cases n) as [[_ E] | [[H E] | [_ E]]];
        rewrite E; lra).
  destruct (Q.max_spec (limitZoom n) 10) as [[H2 E2] | [H2 E2]];
    [exfalso; lra |].
  destruct (Q.min_spec (Qmax (limitZoom n) 10) 1000) as [[H1 E1] | [H1 E1]].
  - rewrite E1, E2. reflexivity.
  - rewrite E2 in H1. exfalso. lra.
Qed.

Lemma zoomChange_modifier (e : WheelEvent.t) (w : World) :
  WheelEvent.ctrlKey e || WheelEvent.metaKey e = true ->
  zoomChange e w
  == Qabs (limitZoom (CanvasStore.zoom (canvas w)
                      - WheelEvent.deltaY e * (4 # 10))
           - CanvasStore.zoom (canvas w)).
Proof.
  intros H. unfold zoomChange, handlePassiveWheel. rewrite H.
  unfold with_canvas. cbn [canvas]. rewrite setZoom_limitZoom. reflexivity.
Qed.

Lemma zoomChange_plain (e : WheelEvent.t) (w : World) :
  WheelEvent.ctrlKey e || WheelEvent.metaKey e = false ->
  zoomChange e w
  == Qabs (limitZoom (CanvasStore.zoom (canvas w) - WheelEvent.deltaY e / 10)
           - CanvasStore.zoom (canvas w)).
Proof.
  intros H. unfold zoomChange, handlePassiveWheel. rewrite H.
  unfold with_canvas. cbn [canvas]. rewrite setZoom_limitZoom. reflexivity.
Qed.

(** For the same [deltaY], a wheel event with ctrl or meta never changes
    the zoom by less than a plain wheel event does. *)
Lemma zoomChange_plain_le_modifier
  (w : World) (deltaY : JS.number) (ctrlKey metaKey : bool) :
  ctrlKey || metaKey = true ->
  zoomChange (WheelEvent.mk deltaY false false) w
  <= zoomChange (WheelEvent.mk deltaY ctrlKey metaKey) w.
Proof.
  intros H.
  rewrite (zoomChange_modifier (WheelEvent.mk deltaY ctrlKey metaKey) w)
    by exact H.
  rewrite (zoomChange_plain (WheelEvent.mk deltaY false false) w)
    by reflexivity.
  cbn [WheelEvent.deltaY].
  set (z := CanvasStore.zoom (canvas w)).
  destruct (limitZoom_cases (z - deltaY * (4 # 10)))
    as [[A EA] | [[A EA] | [A EA]]];
  destruct (limitZoom_cases (z - deltaY / 10))
    as [[B EB] | [[B EB] | [B EB]]];
  rewrite EA, EB;
  assert (E : deltaY / 10 == deltaY * (1 # 10)) by field;
  repeat (apply Qabs_case; intros); lra.
Qed.

(** C7 fails on the code.  The branch of the wheel listener for ctrl or
    meta multiplies [deltaY] by [zoomFactor = 0.4], a factor its comment
    says lowers the sensitivity, while the plain branch divides [deltaY] by
    10.  So, for the same [deltaY], the change of the zoom with ctrl or meta
    is never smaller than the change without; and at zoom 100 with
    [deltaY = 10] the zoom goes to 96 with ctrl and to 99 without, a change
    of 4 against 1. *)
Theorem wheel_modifier_changes_zoom_more :
  let modified := WheelEvent.mk 10 true false in
  let plain := WheelEvent.mk 10 false false in
  (forall (w : World) (deltaY : JS.number) (ctrlKey metaKey : bool),
     ctrlKey || metaKey = true ->
     zoomChange (WheelEvent.mk deltaY false false) w
     <= zoomChange (WheelEvent.mk deltaY ctrlKey metaKey) w)
  /\ CanvasStore.zoom (canvas mounted) == 100
  /\ CanvasStore.zoom (canvas (fire (handlePassiveWheel modified) mounted))
     == 96
  /\ CanvasStore.zoom (canvas (fire (handlePassiveWheel plain) mounted))
     == 99
  /\ zoomChange plain mounted < zoomChange modified mounted
  /\ ~ (zoomChange modified mounted < zoomChange plain mounted).
Proof.
  cbv zeta. split; [exact zoomChange_plain_le_modifier |].
  repeat split; vm_compute; try reflexivity. discriminate.
Qed.

End ZoomFacts.


(** ** The canvas handlers *)

Module CanvasFacts.

Import Canvas.

Open Scope Q_scope.

(** Names the components of a world, so that projections compute. *)
Ltac open_world w :=
  destruct w as [[sh sid gl an ag drw sp cid0 cp lm isp lp cd lpts ls js mc
                    et] tool cv dr h ts];
  cbn [ui activeTool canvas drawing history timers
       shapes selectedId guidelines annotations alignmentGuides isDrawing
       startPoint currentShapeId currentPath lastMousePos isSpacePressed
       lastPosition continuousDrawing linePoints lineSegments joints
       mouseCaptured editingText] in *.

(** Runs a sequence of setters on an opened world; the stores and the
    values written are left as they are. *)
Ltac run_updates :=
  cbv beta iota zeta delta
    [fire seq skip with_ui with_canvas with_history with_timers setTimeout
     setShapesWith setJointsWith
     setShapes setSelectedId setGuidelines setAnnotations setAlignmentGuides
     setIsDrawing setStartPoint setCurrentShapeId setCurrentPath
     setLastMousePos setIsSpacePressed setLastPosition setContinuousDrawing
     setLinePoints setLineSegments setJoints setMouseCaptured setEditingText
     recordHistory
     ui activeTool canvas drawing history timers
     shapes selectedId guidelines annotations alignmentGuides isDrawing
     startPoint currentShapeId currentPath lastMousePos isSpacePressed
     lastPosition continuousDrawing linePoints lineSegments joints
     mouseCaptured editingText].

(** *** The keyboard handler and [editingText] *)

Lemma ignores_skip : IgnoresEditingText skip.
Proof. intros ed p. reflexivity. Qed.

Lemma ignores_seq (u v : Update) :
  IgnoresEditingText u -> IgnoresEditingText v -> IgnoresEditingText (u ;; v).
Proof. intros Hu Hv ed p. unfold seq. rewrite Hu, Hv. reflexivity. Qed.

Lemma ignores_if (b : bool) (u v : Update) :
  IgnoresEditingText u -> IgnoresEditingText v ->
  IgnoresEditingText (if b then u else v).
Proof. destruct b; auto. Qed.

Lemma ignores_handleUndo : IgnoresEditingText handleUndo.
Proof.
  intros ed p. unfold handleUndo. cbn [history setEditingText with_ui].
  destruct (HistoryStore.undo (history p)) as [[st |] h]; reflexivity.
Qed.

Lemma ignores_handleRedo : IgnoresEditingText handleRedo.
Proof.
  intros ed p. unfold handleRedo. cbn [history setEditingText with_ui].
  destruct (HistoryStore.redo (history p)) as [[st |] h]; reflexivity.
Qed.

(** Follows the shape of an update: sequences and conditionals by the
    lemmas above, a setter of another cell by computation. *)
Ltac ignores :=
  lazymatch goal with
  | |- IgnoresEditingText (seq _ _) => apply ignores_seq; ignores
  | |- IgnoresEditingText (if _ then _ else _) => apply ignores_if; ignores
  | |- IgnoresEditingText skip => apply ignores_skip
  | |- IgnoresEditingText handleUndo => apply ignores_handleUndo
  | |- IgnoresEditingText handleRedo => apply ignores_handleRedo
  | |- IgnoresEditingText _ => intros ? ?; reflexivity
  end.

Lemma ignores_handleKeyboardDown (e : KeyboardEvent.t) (w : World) :
  IgnoresEditingText (handleKeyboardDown e w).
Proof.
  unfold handleKeyboardDown.
  destruct (selectedId (ui w)), (editingText (ui w)); ignores.
Qed.

(** The handler reads nothing of its closure that depends on
    [editingText]: the final guard does the same in both branches. *)
Lemma handleKeyboardDown_closure
  (e : KeyboardEvent.t) (w : World) (editing : option string) (p : World) :
  handleKeyboardDown e (setEditingText editing w) p
  = handleKeyboardDown e w p.
Proof.
  unfold handleKeyboardDown.
  cbn [ui setEditingText with_ui shapes selectedId annotations editingText].
  destruct editing, (editingText (ui w)); reflexivity.
Qed.

Lemma handleKeyboardDown_editingText
  (e : KeyboardEvent.t) (w : World) (editing : option string) :
  fire (handleKeyboardDown e) (setEditingText editing w)
  = setEditingText editing (fire (handleKeyboardDown e) w).
Proof.
  unfold fire. rewrite handleKeyboardDown_closure.
  apply ignores_handleKeyboardDown.
Qed.

(** *** The history of a reachable world *)

Lemma inv_skip : KeepsHistoryInv skip.
Proof. intros p H. exact H. Qed.

Lemma inv_seq (u v : Update) :
  KeepsHistoryInv u -> KeepsHistoryInv v -> KeepsHistoryInv (u ;; v).
Proof. intros Hu Hv p H. unfold seq. apply Hv, Hu, H. Qed.

Lemma inv_if (b : bool) (u v : Update) :
  KeepsHistoryInv u -> KeepsHistoryInv v ->
  KeepsHistoryInv (if b then u else v).
Proof. destruct b; auto. Qed.

Lemma inv_addHistory (st : HistoryStore.HistoryState) (d : string) :
  KeepsHistoryInv (with_history (HistoryStore.addHistory st d)).
Proof. intros p H. apply HistoryFacts.Inv_addHistory, H. Qed.

Lemma inv_recordHistory (w : World) (d : string) :
  KeepsHistoryInv (recordHistory w d).
Proof. apply inv_addHistory. Qed.

Lemma inv_handleUndo : KeepsHistoryInv handleUndo.
Proof.
  intros p H. unfold handleUndo.
  pose proof (HistoryFacts.Inv_undo (history p) H) as H'.
  destruct (HistoryStore.undo (history p)) as [[st |] h]; exact H'.
Qed.

Lemma inv_handleRedo : KeepsHistoryInv handleRedo.
Proof.
  intros p H. unfold handleRedo.
  pose proof (HistoryFacts.Inv_redo (history p) H) as H'.
  destruct (HistoryStore.redo (history p)) as [[st |] h]; exact H'.
Qed.

(** Follows the shape of an update; opens the [match]es and [let]s it
    meets, and leaves the history alone at a setter of the component or of
    the canvas store. *)
Ltac keeps_inv :=
  lazymatch goal with
  | |- KeepsHistoryInv (seq _ _) => apply inv_seq; keeps_inv
  | |- KeepsHistoryInv skip => apply inv_skip
  | |- KeepsHistoryInv handleUndo => apply inv_handleUndo
  | |- KeepsHistoryInv handleRedo => apply inv_handleRedo
  | |- KeepsHistoryInv (recordHistory _ _) => apply inv_recordHistory
  | |- KeepsHistoryInv (with_history (HistoryStore.addHistory _ _)) =>
      apply inv_addHistory
  | |- KeepsHistoryInv (match ?x with _ => _ end) =>
      first [apply inv_if | destruct x]; keeps_inv
  | |- KeepsHistoryInv (let _ := _ in _) => cbv zeta; keeps_inv
  | |- KeepsHistoryInv _ => intros ? H; exact H
  end.

Lemma inv_handleKeyboardDown (e : KeyboardEvent.t) (w : World) :
  KeepsHistoryInv (handleKeyboardDown e w).
Proof. unfold handleKeyboardDown. keeps_inv. Qed.

Lemma inv_penDown (x y : JS.number) (id : string) (w : World) :
  KeepsHistoryInv (penDown x y id w).
Proof. unfold penDown. keeps_inv. Qed.

Lemma inv_handleMouseDown (e : MouseEvent.t) (id : string) (w : World) :
  KeepsHistoryInv (handleMouseDown e id w).
Proof.
  unfold handleMouseDown. cbv zeta.
  destruct (isSpacePressed (ui w)); [keeps_inv |].
  destruct (getStagePointerPosition w (MouseEvent.pointer e)) as [[x y] |];
    [| keeps_inv].
  apply inv_seq; [keeps_inv |]. apply inv_seq; [keeps_inv |].
  repeat (apply inv_if; [keeps_inv |]).
  destruct (Tool.eqb (activeTool w) Tool.path); [apply inv_penDown |].
  keeps_inv.
Qed.

Lemma inv_handleMouseMove (e : MouseEvent.t) (g : list Guideline.t)
  (w : World) :
  KeepsHistoryInv (handleMouseMove e g w).
Proof. unfold handleMouseMove. keeps_inv. Qed.

Lemma inv_polygonUp (shape : Shape.t) (points : list JS.number)
  (cid jointId : string) (w : World) :
  KeepsHistoryInv (polygonUp shape points cid jointId w).
Proof. unfold polygonUp. keeps_inv. Qed.

Lemma inv_handleMouseUp (e : MouseEvent.t) (g : list Guideline.t)
  (jointId : string) (w : World) :
  KeepsHistoryInv (handleMouseUp e g jointId w).
Proof.
  unfold handleMouseUp. cbv zeta.
  destruct (isSpacePressed (ui w) && mouseCaptured (ui w)); [keeps_inv |].
  apply inv_seq; [keeps_inv |].
  destruct (isDrawing (ui w)), (startPoint (ui w)) as [start |],
    (currentShapeId (ui w)) as [cid |]; try (keeps_inv; fail).
  destruct (cid =? "")%string; [keeps_inv |].
  destruct (getStagePointerPosition w (MouseEvent.pointer e)) as [[x y] |];
    [| keeps_inv].
  destruct (alignment w cid x y) as [[guides snapToX] snapToY].
  repeat (apply inv_seq; [keeps_inv |]).
  apply inv_if; [keeps_inv |].
  destruct (Tool.eqb (activeTool w) Tool.polygon);
    [destruct (findShape cid (shapes (ui w))) as [shape |];
     [destruct (Shape.points shape) as [points |] |] |];
    try apply inv_polygonUp; keeps_inv.
Qed.

Lemma inv_runTimer (t : Timer) (newId : string) :
  KeepsHistoryInv (runTimer t newId).
Proof. destruct t; cbn [runTimer]; keeps_inv. Qed.

Lemma Inv_dispatch (w : World) (ev : Event) :
  HistoryStore.Inv (history w) -> HistoryStore.Inv (history (dispatch w ev)).
Proof.
  intros H. destruct ev; cbn [dispatch]; unfold fire.
  - apply inv_handleKeyboardDown, H.
  - unfold handleKeyboardUp.
    destruct (KeyboardEvent.code e =? "Space")%string; exact H.
  - apply inv_handleMouseDown, H.
  - apply inv_handleMouseMove, H.
  - apply inv_handleMouseUp, H.
  - unfold handleDblClick. cbv zeta.
    destruct (continuousDrawing (ui w)
              && (JS.length (linePoints (ui w)) >=? 4)%Z); exact H.
  - unfold handlePassiveWheel. cbv zeta.
    destruct (WheelEvent.ctrlKey e || WheelEvent.metaKey e); exact H.
  - exact H.
  - exact H.
  - destruct (timers w) as [| t rest]; [exact H |].
    apply inv_runTimer. exact H.
Qed.

(** Every world reached from the mounted component has a history store
    that satisfies the invariant of the store. *)
Lemma Inv_play (evs : list Event) (w : World) :
  HistoryStore.Inv (history w) ->
  HistoryStore.Inv (history (play evs w)).
Proof.
  revert w. induction evs as [| ev evs IH]; intros w H; cbn.
  - exact H.
  - apply IH, Inv_dispatch, H.
Qed.

Lemma Inv_mounted : HistoryStore.Inv (history mounted).
Proof.
  apply (HistoryFacts.Inv_addHistory _ _ _ HistoryFacts.Inv_initial).
Qed.

Lemma Inv_reachable (evs : list Event) :
  HistoryStore.Inv (history (play evs mounted)).
Proof. apply Inv_play, Inv_mounted. Qed.

(** *** Delete and Backspace *)

Lemma removeShape_In (sel : string) (l : list Shape.t) (s : Shape.t) :
  In s (removeShape sel l) <-> In s l /\ Shape.id s <> sel.
Proof.
  unfold removeShape. rewrite filter_In, negb_true_iff, String.eqb_neq.
  reflexivity.
Qed.

Lemma removeAnnotations_In (sel : string) (l : list Annotation.t)
  (a : Annotation.t) :
  In a (removeAnnotations sel l) <-> In a l /\ Annotation.shapeId a <> sel.
Proof.
  unfold removeAnnotations.
  rewrite filter_In, negb_true_iff, String.eqb_neq. reflexivity.
Qed.

Lemma truthy_nonempty (sel : string) :
  sel <> "" -> JS.truthy (Some sel) = true.
Proof.
  intros H. unfold JS.truthy. apply negb_true_iff, String.eqb_neq, H.
Qed.

(** What the handler does to the document, the selection and the history
    on Delete or Backspace with a selection. *)
Lemma handleKeyboardDown_delete
  (w : World) (e : KeyboardEvent.t) (sel : string) :
  KeyboardEvent.key e = "Delete" \/ KeyboardEvent.key e = "Backspace" ->
  selectedId (ui w) = Some sel ->
  sel <> "" ->
  let w' := fire (handleKeyboardDown e) w in
  shapes (ui w') = removeShape sel (shapes (ui w))
  /\ annotations (ui w') = removeAnnotations sel (annotations (ui w))
  /\ selectedId (ui w') = None
  /\ editingText (ui w') = editingText (ui w)
  /\ history w'
     = HistoryStore.addHistory
         (HistoryStore.mkState
            (removeShape sel (shapes (ui w)))
            (removeAnnotations sel (annotations (ui w))))
         ("删除形状 #" ++ sel)%string (history w).
Proof.
  intros Hkey Hsel Hne w'. unfold w', fire, handleKeyboardDown.
  cbv zeta.
  rewrite Hsel, (truthy_nonempty sel Hne).
  assert (Hz : (KeyboardEvent.key e =? "z")%string = false)
    by (destruct Hkey as [K | K]; rewrite K; reflexivity).
  assert (Hy : (KeyboardEvent.key e =? "y")%string = false)
    by (destruct Hkey as [K | K]; rewrite K; reflexivity).
  assert (Hd : ((KeyboardEvent.key e =? "Delete")
                || (KeyboardEvent.key e =? "Backspace"))%string = true)
    by (destruct Hkey as [K | K]; rewrite K; reflexivity).
  rewrite Hz, Hy, Hd, !andb_false_r. cbn [andb].
  clear w'. open_world w.
  destruct (KeyboardEvent.code e =? "Space")%string;
  destruct (KeyboardEvent.code e =? "Escape")%string;
  destruct et; run_updates; repeat split; reflexivity.
Qed.

(** When the selected id is neither [null] nor the empty string, Delete or
    Backspace removes the shapes with that id and the annotations that
    refer to it and keeps the rest, calls [addHistory] once, with the pruned
    document (which is the current history entry afterwards, the store
    being one that calls of the store produce), and clears the
    selection. *)
Lemma delete_removes_selection
  (w : World) (e : KeyboardEvent.t) (sel : string) :
  KeyboardEvent.key e = "Delete" \/ KeyboardEvent.key e = "Backspace" ->
  selectedId (ui w) = Some sel ->
  sel <> "" ->
  let w' := fire (handleKeyboardDown e) w in
  let pruned :=
    HistoryStore.mkState
      (removeShape sel (shapes (ui w)))
      (removeAnnotations sel (annotations (ui w))) in
  (forall s, In s (shapes (ui w')) <->
             In s (shapes (ui w)) /\ Shape.id s <> sel)
  /\ (forall a, In a (annotations (ui w')) <->
                In a (annotations (ui w)) /\ Annotation.shapeId a <> sel)
  /\ shapes (ui w') = HistoryStore.shapes pruned
  /\ annotations (ui w') = HistoryStore.annotations pruned
  /\ history w'
     = HistoryStore.addHistory pruned ("删除形状 #" ++ sel)%string
         (history w)
  /\ (HistoryStore.Inv (history w) ->
      HistoryStore.getCurrentState (history w') = Some pruned)
  /\ selectedId (ui w') = None.
Proof.
  intros Hkey Hsel Hne w' pruned.
  destruct (handleKeyboardDown_delete w e sel Hkey Hsel Hne)
    as (Hs & Ha & Hn & _ & Hh).
  fold w' in Hs, Ha, Hn, Hh.
  split; [intros s; rewrite Hs; apply removeShape_In |].
  split; [intros a; rewrite Ha; apply removeAnnotations_In |].
  split; [exact Hs |]. split; [exact Ha |]. split; [exact Hh |].
  split; [| exact Hn].
  intros HI. rewrite Hh. apply HistoryFacts.getCurrentState_addHistory, HI.
Qed.

(** On a committed rectangle ["b"] that is selected: Delete leaves only
    the text shape ["t"] in the document, clears the selection and makes the
    pruned document the current history entry. *)
Lemma delete_removes_selection_example :
  let w := play Examples.selectedWhileEditing mounted in
  let w' := fire (handleKeyboardDown (Examples.pressed "Delete")) w in
  (selectedId (ui w) = Some "b" /\ HistoryStore.Inv (history w))
  /\ (map Shape.id (shapes (ui w)) = ["b"; "t"]
      /\ map Shape.id (shapes (ui w')) = ["t"])
  /\ HistoryStore.getCurrentState (history w')
     = Some (HistoryStore.mkState
               (removeShape "b" (shapes (ui w)))
               (removeAnnotations "b" (annotations (ui w))))
  /\ selectedId (ui w') = None.
Proof.
  intros w w'.
  assert (Hsel : selectedId (ui w) = Some "b") by (vm_compute; reflexivity).
  assert (HI : HistoryStore.Inv (history w)).
  { unfold HistoryStore.Inv. split; [vm_compute; reflexivity |].
    split; [vm_compute; discriminate |].
    right. split; vm_compute; [discriminate | reflexivity]. }
  assert (Hne : "b" <> "") by discriminate.
  destruct (delete_removes_selection w (Examples.pressed "Delete") "b"
              (or_introl eq_refl) Hsel Hne)
    as (_ & _ & _ & _ & _ & Hc & Hn).
  split; [split; assumption |].
  split; [split; vm_compute; reflexivity |].
  split; [exact (Hc HI) | exact Hn].
Defined.

(** The handler tests the selection with [... && selectedId], which the
    empty string fails as [null] does: with the empty string as selected
    id, Delete and Backspace leave the document, the selection and the
    history as they are. *)
Lemma handleKeyboardDown_delete_empty_id
  (w : World) (e : KeyboardEvent.t) :
  KeyboardEvent.key e = "Delete" \/ KeyboardEvent.key e = "Backspace" ->
  selectedId (ui w) = Some "" ->
  let w' := fire (handleKeyboardDown e) w in
  shapes (ui w') = shapes (ui w)
  /\ annotations (ui w') = annotations (ui w)
  /\ selectedId (ui w') = Some ""
  /\ editingText (ui w') = editingText (ui w)
  /\ history w' = history w.
Proof.
  intros Hkey Hsel w'. unfold w', fire, handleKeyboardDown.
  cbv zeta. rewrite Hsel.
  change (JS.truthy (Some "")) with false.
  assert (Hz : (KeyboardEvent.key e =? "z")%string = false)
    by (destruct Hkey as [K | K]; rewrite K; reflexivity).
  assert (Hy : (KeyboardEvent.key e =? "y")%string = false)
    by (destruct Hkey as [K | K]; rewrite K; reflexivity).
  rewrite Hz, Hy, !andb_false_r.
  clear w'. open_world w. cbn [selectedId] in Hsel. subst sid.
  destruct (KeyboardEvent.code e =? "Space")%string;
  destruct (KeyboardEvent.code e =? "Escape")%string;
  destruct et; run_updates; repeat split; reflexivity.
Qed.

(** C8 fails on the code for a selected shape whose id is the empty string.
    [generateId()] gives that id when [Math.random()] returns [0].  A text
    put on the canvas with that id, completed with Enter and then clicked
    with the select tool is the selected shape ([selectedId] is [''], not
    [null]); Delete leaves it in the document, leaves the selection as it
    is and pushes no history entry.  The handler tests [... && selectedId],
    under the comment that Delete deletes the selected shape. *)
Theorem delete_keeps_selected_shape_with_empty_id :
  let c :=
    Component.perform MoreExamples.emptyIdTextSelected Component.initial in
  let w := Component.world c in
  let w' := fire (handleKeyboardDown (Examples.pressed "Delete")) w in
  (selectedId (ui w) = Some "" /\ editingText (ui w) = None)
  /\ (map Shape.id (shapes (ui w)) = [""]
      /\ map Shape.text (shapes (ui w)) = [Some "hello"])
  /\ shapes (ui w') = shapes (ui w)
  /\ annotations (ui w') = annotations (ui w)
  /\ selectedId (ui w') = Some ""
  /\ history w' = history w.
Proof.
  intros c w w'.
  assert (Hsel : selectedId (ui w) = Some "") by (vm_compute; reflexivity).
  destruct (handleKeyboardDown_delete_empty_id w (Examples.pressed "Delete")
              (or_introl eq_refl) Hsel) as (Hs & Ha & Hn & _ & Hh).
  split; [split; [exact Hsel | vm_compute; reflexivity] |].
  split; [split; vm_compute; reflexivity |].
  split; [exact Hs |]. split; [exact Ha |]. split; [exact Hn | exact Hh].
Qed.

(** The keydown handler does the same whatever [editingText] holds:
    starting it with any value of [editingText], empty or not, gives the
    state it gives otherwise, with that value untouched.  So with Delete or
    Backspace and a selected id that passes the handler's test, the selected
    shape and its annotations are removed also while a text is being
    edited. *)
Lemma delete_runs_while_editing_text
  (w : World) (e : KeyboardEvent.t) (editing : option string) :
  let w' := fire (handleKeyboardDown e) (setEditingText editing w) in
  w' = setEditingText editing (fire (handleKeyboardDown e) w)
  /\ forall sel,
       KeyboardEvent.key e = "Delete" \/ KeyboardEvent.key e = "Backspace" ->
       selectedId (ui w) = Some sel ->
       JS.truthy (selectedId (ui w)) = true ->
       shapes (ui w') = removeShape sel (shapes (ui w))
       /\ annotations (ui w') = removeAnnotations sel (annotations (ui w))
       /\ (forall s, In s (shapes (ui w')) -> Shape.id s <> sel)
       /\ (forall a, In a (annotations (ui w')) ->
                     Annotation.shapeId a <> sel)
       /\ editingText (ui w') = editing.
Proof.
  intros w'. split; [apply handleKeyboardDown_editingText |].
  intros sel Hkey Hsel Htruthy.
  assert (Hne : sel <> "").
  { rewrite Hsel in Htruthy. unfold JS.truthy in Htruthy.
    apply negb_true_iff, String.eqb_neq in Htruthy. exact Htruthy. }
  destruct (handleKeyboardDown_delete (setEditingText editing w) e sel
              Hkey Hsel Hne) as (Hs & Ha & _ & He & _).
  fold w' in Hs, Ha, He.
  change (shapes (ui (setEditingText editing w))) with (shapes (ui w)) in Hs.
  change (annotations (ui (setEditingText editing w)))
    with (annotations (ui w)) in Ha.
  split; [exact Hs |]. split; [exact Ha |].
  split; [intros s Hin; rewrite Hs in Hin; apply removeShape_In in Hin;
          apply Hin |].
  split; [intros a Hin; rewrite Ha in Hin;
          apply removeAnnotations_In in Hin; apply Hin |].
  exact He.
Qed.

(** On the rectangle ["b"], selected while the text ["t"] is being edited:
    Backspace removes the rectangle and the editing goes on. *)
Lemma delete_runs_while_editing_text_example :
  let w := play Examples.selectedWhileEditing mounted in
  let w' :=
    fire (handleKeyboardDown (Examples.pressed "Backspace"))
      (setEditingText (Some "t") w) in
  (editingText (ui w) = Some "t"
   /\ selectedId (ui w) = Some "b"
   /\ JS.truthy (selectedId (ui w)) = true)
  /\ (map Shape.id (shapes (ui w)) = ["b"; "t"]
      /\ map Shape.id (shapes (ui w')) = ["t"])
  /\ shapes (ui w') = removeShape "b" (shapes (ui w))
  /\ editingText (ui w') = Some "t".
Proof.
  intros w w'.
  assert (Hed : editingText (ui w) = Some "t") by (vm_compute; reflexivity).
  assert (Hsel : selectedId (ui w) = Some "b") by (vm_compute; reflexivity).
  assert (Ht : JS.truthy (selectedId (ui w)) = true)
    by (vm_compute; reflexivity).
  destruct (delete_runs_while_editing_text w (Examples.pressed "Backspace")
              (Some "t")) as [_ H].
  destruct (H "b" (or_intror eq_refl) Hsel Ht) as (Hs & _ & _ & _ & He).
  split; [repeat split; assumption |].
  split; [split; vm_compute; reflexivity |].
  split; [exact Hs | exact He].
Defined.

(** C10 fails on the code for a selected shape whose id is the empty
    string, by the test [... && selectedId] that C8 fails on.  The branches
    of the handler do run before the guard on [editingText], and a selected
    id that passes the test is deleted during a text edit
    ([delete_runs_while_editing_text]).  But with the text of id [''],
    selected by a click while a second text, ["u"], is being edited,
    Backspace removes neither shape and pushes no history entry. *)
Theorem delete_while_editing_keeps_shape_with_empty_id :
  let c :=
    Component.perform MoreExamples.emptyIdTextSelectedWhileEditing
      Component.initial in
  let w := Component.world c in
  let w' := fire (handleKeyboardDown (Examples.pressed "Backspace")) w in
  (selectedId (ui w) = Some "" /\ editingText (ui w) = Some "u")
  /\ (map Shape.id (shapes (ui w)) = [""; "u"]
      /\ map Shape.id (shapes (ui w')) = [""; "u"])
  /\ shapes (ui w') = shapes (ui w)
  /\ annotations (ui w') = annotations (ui w)
  /\ selectedId (ui w') = Some ""
  /\ editingText (ui w') = Some "u"
  /\ history w' = history w.
Proof.
  intros c w w'.
  assert (Hsel : selectedId (ui w) = Some "") by (vm_compute; reflexivity).
  assert (Hed : editingText (ui w) = Some "u") by (vm_compute; reflexivity).
  destruct (handleKeyboardDown_delete_empty_id w
              (Examples.pressed "Backspace") (or_intror eq_refl) Hsel)
    as (Hs & Ha & Hn & He & Hh).
  split; [split; [exact Hsel | exact Hed] |].
  split; [split; vm_compute; reflexivity |].
  split; [exact Hs |]. split; [exact Ha |]. split; [exact Hn |].
  split; [exact (eq_trans He Hed) | exact Hh].
Qed.


(** *** Pointer up and the ids of the shapes *)

Lemma findShape_id (cid : string) (l : list Shape.t) (s : Shape.t) :
  findShape cid l = Some s -> Shape.id s = cid.
Proof.
  unfold findShape. intros H. apply find_some in H.
  apply String.eqb_eq, H.
Qed.

Lemma ids_updateShape (cid : string) (f : Shape.t -> Shape.t)
  (l : list Shape.t) :
  (forall s, Shape.id (f s) = Shape.id s) ->
  map Shape.id (updateShape cid f l) = map Shape.id l.
Proof.
  intros Hf. unfold updateShape. rewrite map_map. apply map_ext.
  intros s. destruct (Shape.id s =? cid)%string; [apply Hf | reflexivity].
Qed.

Lemma id_moveShape (start : Point) (x y sx sy : JS.number) (s : Shape.t) :
  Shape.id (moveShape start x y sx sy s) = Shape.id s.
Proof.
  unfold moveShape. destruct start as [startX startY].
  repeat match goal with
         | |- context [if ?c then _ else _] => destruct c
         end; reflexivity.
Qed.

Lemma id_upShape (start : Point) (x y sx sy : JS.number) (s : Shape.t) :
  Shape.id (upShape start x y sx sy s) = Shape.id s.
Proof.
  unfold upShape.
  repeat match goal with
         | |- context [if ?c then _ else _] => destruct c
         end; try reflexivity; apply id_moveShape.
Qed.

Lemma keeps_skip (ids : list string) : KeepsShapeIds ids skip.
Proof. intros p H. exact H. Qed.

Lemma keeps_seq (ids : list string) (u v : Update) :
  KeepsShapeIds ids u -> KeepsShapeIds ids v -> KeepsShapeIds ids (u ;; v).
Proof. intros Hu Hv p H. unfold seq. apply Hv, Hu, H. Qed.

Lemma keeps_if (ids : list string) (b : bool) (u v : Update) :
  KeepsShapeIds ids u -> KeepsShapeIds ids v ->
  KeepsShapeIds ids (if b then u else v).
Proof. destruct b; auto. Qed.

Lemma keeps_setShapes (ids : list string) (l : list Shape.t) :
  map Shape.id l = ids -> KeepsShapeIds ids (setShapes l).
Proof. intros H p _. exact H. Qed.

Lemma keeps_setShapesWith (ids : list string)
  (f : list Shape.t -> list Shape.t) :
  (forall l, map Shape.id (f l) = map Shape.id l) ->
  KeepsShapeIds ids (setShapesWith f).
Proof.
  intros Hf p H. unfold setShapesWith.
  change (map Shape.id (f (shapes (ui p))) = ids). rewrite Hf. exact H.
Qed.

(** Updates built from [seq], [if] and setters of other cells keep the ids;
    what is left to prove is about the [setShapes] calls. *)
Ltac keeps :=
  lazymatch goal with
  | |- KeepsShapeIds _ (seq _ _) => apply keeps_seq; keeps
  | |- KeepsShapeIds _ (if _ then _ else _) => apply keeps_if; keeps
  | |- KeepsShapeIds _ skip => apply keeps_skip
  | |- KeepsShapeIds _ (setShapes _) => apply keeps_setShapes
  | |- KeepsShapeIds _ (setShapesWith _) => apply keeps_setShapesWith
  | |- KeepsShapeIds _ _ => first [intros ? H; exact H | idtac]
  end.

Lemma keeps_polygonUp (w : World) (shape : Shape.t)
  (points : list JS.number) (cid jointId : string) :
  Shape.id shape = cid ->
  KeepsShapeIds (map Shape.id (shapes (ui w)))
    (polygonUp shape points cid jointId w).
Proof.
  intros Hid. unfold polygonUp. cbv zeta. keeps.
  intros l. rewrite map_map. apply map_ext. intros s.
  destruct (Shape.id s =? cid)%string eqn:E; [| reflexivity].
  apply String.eqb_eq in E. cbn. congruence.
Qed.

(** Pointer-up removes no shape unless the size test of the rectangle and
    circle tools succeeds on the shape being drawn. *)
Lemma keeps_handleMouseUp (w : World) (e : MouseEvent.t)
  (g : list Guideline.t) (jointId : string) :
  (forall cid shape,
     currentShapeId (ui w) = Some cid ->
     findShape cid (shapes (ui w)) = Some shape ->
     (Tool.eqb (activeTool w) Tool.rectangle
      || Tool.eqb (activeTool w) Tool.circle) && tooSmall shape = false) ->
  KeepsShapeIds (map Shape.id (shapes (ui w))) (handleMouseUp e g jointId w).
Proof.
  intros Hkeep. unfold handleMouseUp. cbv zeta.
  destruct (isSpacePressed (ui w) && mouseCaptured (ui w)); [keeps |].
  destruct (isDrawing (ui w)), (startPoint (ui w)) as [start |],
    (currentShapeId (ui w)) as [cid |] eqn:Ec; try (keeps; fail).
  destruct (cid =? "")%string; [keeps |].
  destruct (getStagePointerPosition w (MouseEvent.pointer e)) as [[x y] |];
    [| keeps].
  destruct (alignment w cid x y) as [[guides snapToX] snapToY].
  destruct (findShape cid (shapes (ui w))) as [shape |] eqn:Ef.
  - rewrite (Hkeep cid shape eq_refl Ef).
    destruct (Tool.eqb (activeTool w) Tool.polygon);
      [destruct (Shape.points shape) as [points |] |];
      destruct (Tool.eqb (activeTool w) Tool.line);
      destruct (toolName (activeTool w));
      keeps;
      try (apply ids_updateShape; intros;
           first [apply id_upShape | reflexivity]);
      try (apply keeps_polygonUp; apply (findShape_id _ _ _ Ef)).
  - rewrite andb_false_r.
    destruct (Tool.eqb (activeTool w) Tool.polygon);
      destruct (Tool.eqb (activeTool w) Tool.line);
      destruct (toolName (activeTool w));
      keeps;
      try (apply ids_updateShape; intros;
           first [apply id_upShape | reflexivity]).
Qed.

Lemma handleMouseUp_keeps_ids (w : World) (e : MouseEvent.t)
  (g : list Guideline.t) (jointId : string) :
  (forall cid shape,
     currentShapeId (ui w) = Some cid ->
     findShape cid (shapes (ui w)) = Some shape ->
     (Tool.eqb (activeTool w) Tool.rectangle
      || Tool.eqb (activeTool w) Tool.circle) && tooSmall shape = false) ->
  map Shape.id (shapes (ui (fire (handleMouseUp e g jointId) w)))
  = map Shape.id (shapes (ui w)).
Proof.
  intros H. unfold fire. apply (keeps_handleMouseUp w e g jointId H).
  reflexivity.
Qed.

(** Pointer-up that passes the size test removes the shape being drawn and
    commits nothing. *)
Lemma handleMouseUp_discards (w : World) (e : MouseEvent.t)
  (g : list Guideline.t) (jointId : string)
  (start pos : Point) (cid : string) (cur : Shape.t) :
  isSpacePressed (ui w) && mouseCaptured (ui w) = false ->
  isDrawing (ui w) = true ->
  startPoint (ui w) = Some start ->
  currentShapeId (ui w) = Some cid ->
  cid <> "" ->
  getStagePointerPosition w (MouseEvent.pointer e) = Some pos ->
  findShape cid (shapes (ui w)) = Some cur ->
  (Tool.eqb (activeTool w) Tool.rectangle
   || Tool.eqb (activeTool w) Tool.circle) && tooSmall cur = true ->
  let w' := fire (handleMouseUp e g jointId) w in
  shapes (ui w') = removeShape cid (shapes (ui w))
  /\ guidelines (ui w') = []
  /\ annotations (ui w') = annotations (ui w)
  /\ isDrawing (ui w') = false
  /\ currentShapeId (ui w') = None
  /\ history w' = history w.
Proof.
  intros Hsp Hd Hs Hc Hne Hp Hf Hsmall w'. unfold w', fire, handleMouseUp.
  cbv zeta. rewrite Hsp, Hd, Hs, Hc, Hp, Hf, Hsmall.
  apply String.eqb_neq in Hne. rewrite Hne. destruct pos as [x y].
  destruct (alignment w cid x y) as [[guides snapToX] snapToY].
  clear. open_world w. run_updates. repeat split; reflexivity.
Qed.

Lemma tooSmall_spec (cur : Shape.t) :
  tooSmall cur = true <->
  (Shape.type cur = "rectangle"
   /\ JS.or_zero (Shape.width cur) < 5
   /\ JS.or_zero (Shape.height cur) < 5)
  \/ (Shape.type cur = "circle" /\ JS.or_zero (Shape.radius cur) < 5).
Proof.
  unfold tooSmall.
  rewrite orb_true_iff, !andb_true_iff, !String.eqb_eq, !NumFacts.ltb_lt.
  tauto.
Qed.

Lemma tool_not_rectangle_circle (tool : Tool.t) :
  tool <> Tool.rectangle -> tool <> Tool.circle ->
  Tool.eqb tool Tool.rectangle || Tool.eqb tool Tool.circle = false.
Proof. destruct tool; intros; try reflexivity; congruence. Qed.

(** C9. On pointer-up,
    - with an active tool other than rectangle and circle (line, polygon,
      brush, the pen tool, ...) no shape is removed: the ids of the shapes
      are what they were;
    - when the handler finishes the shape [cur] being drawn, that shape is
      removed exactly when the tool is rectangle or circle and the size test
      holds of it, and otherwise no shape is removed;
    - the size test holds of a rectangle exactly when its width and its
      height are both below 5, of a circle exactly when its radius is below
      5, and of no other shape. *)
Theorem small_shape_discard (w : World) (e : MouseEvent.t)
  (g : list Guideline.t) (jointId : string) :
  let w' := fire (handleMouseUp e g jointId) w in
  (activeTool w <> Tool.rectangle -> activeTool w <> Tool.circle ->
   map Shape.id (shapes (ui w')) = map Shape.id (shapes (ui w)))
  /\ (forall start pos cid cur,
        isSpacePressed (ui w) && mouseCaptured (ui w) = false ->
        isDrawing (ui w) = true ->
        startPoint (ui w) = Some start ->
        currentShapeId (ui w) = Some cid ->
        cid <> "" ->
        getStagePointerPosition w (MouseEvent.pointer e) = Some pos ->
        findShape cid (shapes (ui w)) = Some cur ->
        if (Tool.eqb (activeTool w) Tool.rectangle
            || Tool.eqb (activeTool w) Tool.circle) && tooSmall cur
        then shapes (ui w') = removeShape cid (shapes (ui w))
        else map Shape.id (shapes (ui w')) = map Shape.id (shapes (ui w)))
  /\ (forall cur,
        tooSmall cur = true <->
        (Shape.type cur = "rectangle"
         /\ JS.or_zero (Shape.width cur) < 5
         /\ JS.or_zero (Shape.height cur) < 5)
        \/ (Shape.type cur = "circle"
            /\ JS.or_zero (Shape.radius cur) < 5)).
Proof.
  intros w'. split; [| split].
  - intros Hr Hc. apply handleMouseUp_keeps_ids. intros cid shape _ _.
    rewrite (tool_not_rectangle_circle _ Hr Hc). reflexivity.
  - intros start pos cid cur Hsp Hd Hs Hc Hne Hp Hf.
    destruct ((Tool.eqb (activeTool w) Tool.rectangle
               || Tool.eqb (activeTool w) Tool.circle) && tooSmall cur)
      eqn:Hsmall.
    + apply (handleMouseUp_discards w e g jointId start pos cid cur);
        assumption.
    + apply handleMouseUp_keeps_ids. intros cid' shape Hc' Hf'.
      rewrite Hc in Hc'. injection Hc' as <-. rewrite Hf in Hf'.
      injection Hf' as <-. exact Hsmall.
  - apply tooSmall_spec.
Qed.

(** Evaluates the state cell [c] of a concrete world to [Some v] and names
    [v]. *)
Ltac read_cell c name H :=
  lazymatch eval vm_compute in c with
  | Some ?v => pose (name := v);
               assert (H : c = Some name) by (vm_compute; reflexivity)
  end.

(** C9 on two rectangles drawn with the rectangle tool: the one of width 2
    and height 100 stays in the document on pointer-up and a history entry
    is pushed; the one of width 2 and height 1 is removed and no entry is
    pushed. *)
Lemma small_shape_discard_example :
  let thin := play Examples.thinRectangle mounted in
  let tiny := play Examples.tinyRectangle mounted in
  let thin' := fire (handleMouseUp (Examples.onStageAt 12 110) [] "j") thin in
  let tiny' := fire (handleMouseUp (Examples.onStageAt 12 11) [] "j") tiny in
  (isDrawing (ui thin) = true /\ currentShapeId (ui thin) = Some "b"
   /\ isDrawing (ui tiny) = true /\ currentShapeId (ui tiny) = Some "b")
  /\ (map (fun s => (Shape.id s, option_map Qred (Shape.width s),
                     option_map Qred (Shape.height s))) (shapes (ui thin))
      = [("b", Some 2, Some 100)]
      /\ map (fun s => (Shape.id s, option_map Qred (Shape.width s),
                        option_map Qred (Shape.height s))) (shapes (ui tiny))
         = [("b", Some 2, Some 1)])
  /\ map Shape.id (shapes (ui thin')) = map Shape.id (shapes (ui thin))
  /\ shapes (ui tiny') = removeShape "b" (shapes (ui tiny))
  /\ (map Shape.id (shapes (ui thin')) = ["b"] /\ shapes (ui tiny') = [])
  /\ (HistoryStore.currentIndex (history thin) = 0%Z
      /\ HistoryStore.currentIndex (history thin') = 1%Z
      /\ HistoryStore.currentIndex (history tiny') = 0%Z).
Proof.
  intros thin tiny thin' tiny'.
  assert (Hne : "b" <> "") by discriminate.
  assert (Hsp1 : isSpacePressed (ui thin) && mouseCaptured (ui thin) = false)
    by (vm_compute; reflexivity).
  assert (Hd1 : isDrawing (ui thin) = true) by (vm_compute; reflexivity).
  assert (Hc1 : currentShapeId (ui thin) = Some "b")
    by (vm_compute; reflexivity).
  read_cell (startPoint (ui thin)) start1 Hs1.
  read_cell (getStagePointerPosition thin
               (MouseEvent.pointer (Examples.onStageAt 12 110))) pos1 Hp1.
  read_cell (findShape "b" (shapes (ui thin))) cur1 Hf1.
  assert (Hsp2 : isSpacePressed (ui tiny) && mouseCaptured (ui tiny) = false)
    by (vm_compute; reflexivity).
  assert (Hd2 : isDrawing (ui tiny) = true) by (vm_compute; reflexivity).
  assert (Hc2 : currentShapeId (ui tiny) = Some "b")
    by (vm_compute; reflexivity).
  read_cell (startPoint (ui tiny)) start2 Hs2.
  read_cell (getStagePointerPosition tiny
               (MouseEvent.pointer (Examples.onStageAt 12 11))) pos2 Hp2.
  read_cell (findShape "b" (shapes (ui tiny))) cur2 Hf2.
  destruct (small_shape_discard thin (Examples.onStageAt 12 110) [] "j")
    as (_ & H1 & _).
  destruct (small_shape_discard tiny (Examples.onStageAt 12 11) [] "j")
    as (_ & H2 & _).
  specialize (H1 start1 pos1 "b" cur1 Hsp1 Hd1 Hs1 Hc1 Hne Hp1 Hf1).
  specialize (H2 start2 pos2 "b" cur2 Hsp2 Hd2 Hs2 Hc2 Hne Hp2 Hf2).
  assert (E1 : (Tool.eqb (activeTool thin) Tool.rectangle
                || Tool.eqb (activeTool thin) Tool.circle)
               && tooSmall cur1 = false) by (vm_compute; reflexivity).
  assert (E2 : (Tool.eqb (activeTool tiny) Tool.rectangle
                || Tool.eqb (activeTool tiny) Tool.circle)
               && tooSmall cur2 = true) by (vm_compute; reflexivity).
  rewrite E1 in H1. rewrite E2 in H2.
  split; [repeat split; assumption |].
  split; [split; vm_compute; reflexivity |].
  split; [exact H1 |]. split; [exact H2 |].
  split; [split; vm_compute; reflexivity |].
  repeat split; vm_compute; reflexivity.
Defined.

(** *** Closing a polygon *)

(** The first segment of a polygon records its end point only: with no
    point recorded yet, what pointer-up stores in [linePoints] is
    [points[2], points[3]] of the segment, and its start [points[0],
    points[1]] is stored nowhere. *)
Lemma polygonUp_first_segment (w p : World) (shape : Shape.t)
  (points : list JS.number) (cid jointId : string) :
  linePoints (ui w) = [] ->
  let p' := polygonUp shape points cid jointId w p in
  linePoints (ui p') = [Num.nth points 2; Num.nth points 3]
  /\ joints (ui p') = joints (ui p)
  /\ continuousDrawing (ui p') = true.
Proof.
  intros Hl p'. unfold p', polygonUp. cbv zeta. rewrite Hl.
  rewrite andb_false_r. cbn [andb JS.length List.length Z.of_nat Z.geb
                             Z.compare app].
  clear. open_world p. run_updates. repeat split; reflexivity.
Qed.

(** The closing branch of pointer-up: the segment ends on the point
    recorded first, the session leaves continuous drawing, and the joints
    are left as they were. *)
Lemma polygonUp_closes (w p : World) (shape : Shape.t)
  (points : list JS.number) (cid jointId : string) :
  continuousDrawing (ui w) = true ->
  (2 <= JS.length (linePoints (ui w)))%Z ->
  let firstX := Num.nth (linePoints (ui w)) 0 in
  let firstY := Num.nth (linePoints (ui w)) 1 in
  let dx := Num.nth points 2 - firstX in
  let dy := Num.nth points 3 - firstY in
  dx * dx + dy * dy < 225 ->
  let p' := polygonUp shape points cid jointId w p in
  shapes (ui p')
  = map (fun s0 => if (Shape.id s0 =? cid)%string
                   then Shape.with_points
                          [Num.nth points 0; Num.nth points 1; firstX; firstY]
                          shape
                   else s0) (shapes (ui p))
  /\ joints (ui p') = joints (ui p)
  /\ continuousDrawing (ui p') = false
  /\ isDrawing (ui p') = false
  /\ currentShapeId (ui p') = None
  /\ linePoints (ui p') = []
  /\ timers p' = timers p.
Proof.
  intros Hc Hl firstX firstY dx dy Hd p'. unfold p', polygonUp. cbv zeta.
  fold firstX firstY dx dy.
  apply NumFacts.within_closeDistance in Hd. rewrite Hc, Hd.
  replace (JS.length (linePoints (ui w)) >=? 2)%Z with true
    by (symmetry; rewrite Z.geb_leb; apply Z.leb_le; exact Hl).
  cbn [andb]. clear. open_world p. run_updates. repeat split; reflexivity.
Qed.

(** The other branch of pointer-up: with no recorded point, or an end point
    15 units or more from the point recorded first, the session goes on.
    The end point is recorded, a joint is put on it when a point was
    recorded before, and the next segment is scheduled. *)
Lemma polygonUp_continues (w p : World) (shape : Shape.t)
  (points : list JS.number) (cid jointId : string) :
  let firstX := Num.nth (linePoints (ui w)) 0 in
  let firstY := Num.nth (linePoints (ui w)) 1 in
  let dx := Num.nth points 2 - firstX in
  let dy := Num.nth points 3 - firstY in
  continuousDrawing (ui w) = false
  \/ (JS.length (linePoints (ui w)) < 2)%Z
  \/ 225 <= dx * dx + dy * dy ->
  let p' := polygonUp shape points cid jointId w p in
  linePoints (ui p')
  = linePoints (ui w) ++ [Num.nth points 2; Num.nth points 3]
  /\ joints (ui p')
     = joints (ui p) ++
       (if (JS.length (linePoints (ui w)) >=? 2)%Z
        then [Joint.mk jointId (Num.nth points 2) (Num.nth points 3)
                (DrawingStore.strokeWidth (drawing w) * (4 # 10))
                (DrawingStore.strokeColor (drawing w))
                (DrawingStore.strokeColor (drawing w))]
        else [])
  /\ continuousDrawing (ui p') = true
  /\ timers p'
     = timers p ++
       [NextSegment (shapes (ui w)) (Num.nth points 2) (Num.nth points 3)
          (DrawingStore.strokeColor (drawing w))
          (DrawingStore.strokeWidth (drawing w))].
Proof.
  intros firstX firstY dx dy H p'. unfold p', polygonUp. cbv zeta.
  fold firstX firstY dx dy.
  assert (Hc : continuousDrawing (ui w)
               && (JS.length (linePoints (ui w)) >=? 2)%Z
               && JS.ltb (Num.Math_sqrt (dx * dx + dy * dy)) closeDistance
               = false).
  { destruct H as [H | [H | H]].
    - rewrite H. reflexivity.
    - replace (JS.length (linePoints (ui w)) >=? 2)%Z with false
        by (symmetry; rewrite Z.geb_leb; apply Z.leb_gt; exact H).
      rewrite andb_false_r. reflexivity.
    - destruct (JS.ltb (Num.Math_sqrt (dx * dx + dy * dy)) closeDistance)
        eqn:E; [| apply andb_false_r].
      apply NumFacts.within_closeDistance in E. exfalso.
      apply (Qlt_not_le _ _ E H). }
  rewrite Hc. clear Hc H.
  destruct (JS.length (linePoints (ui w)) >=? 2)%Z;
    open_world p; run_updates; repeat split;
    rewrite ?app_nil_r; reflexivity.
Qed.

(** The sibling path: closing by double click does add a joint, at the
    point recorded first. *)
Lemma handleDblClick_closing_joint (w : World) (id jointId : string) :
  continuousDrawing (ui w) = true ->
  (4 <= JS.length (linePoints (ui w)))%Z ->
  let w' := fire (handleDblClick id jointId) w in
  joints (ui w')
  = joints (ui w) ++
    [Joint.mk jointId (Num.nth (linePoints (ui w)) 0)
       (Num.nth (linePoints (ui w)) 1)
       (DrawingStore.strokeWidth (drawing w) * (4 # 10))
       (DrawingStore.strokeColor (drawing w))
       (DrawingStore.strokeColor (drawing w))]
  /\ continuousDrawing (ui w') = false.
Proof.
  intros Hc Hl w'. unfold w', fire, handleDblClick. cbv zeta. rewrite Hc.
  replace (JS.length (linePoints (ui w)) >=? 4)%Z with true
    by (symmetry; rewrite Z.geb_leb; apply Z.leb_le; exact Hl).
  cbn [andb]. clear. open_world w. run_updates. split; reflexivity.
Qed.

(** C5 on the polygon of the specification.  After the segments
    [(0,0) -> (50,0)] and [(50,0) -> (50,50)], a third segment is released
    at [(5,3)], within 15 units of the first vertex [(0,0)].  Its end point
    is [(0,0)] (the alignment with the first segment puts it there), but
    the point recorded first is [(50,0)], the end of the first segment: the
    session does not close.  It stays in continuous drawing, adds the
    ordinary joint of a turning point and starts a fourth segment.  The
    session closes, without a joint of its own, when a segment ends within
    15 units of [(50,0)]; closing by double click adds a joint. *)
Theorem polygon_close_misses_first_vertex :
  let w := play Examples.polygonSession mounted in
  let next := dispatch w (Timeout "d") in
  let closed := play Examples.polygonSessionContinued mounted in
  let points := fun id l =>
    option_map (map Qred)
      (match findShape id l with
       | Some s => Shape.points s
       | None => None
       end) in
  points "c" (shapes (ui w)) = Some [50; 50; 0; 0]
  /\ map Qred (linePoints (ui w)) = [50; 0; 50; 50; 0; 0]
  /\ continuousDrawing (ui w) = true
  /\ map Joint.id (joints (ui w)) = ["j2"; "j3"]
  /\ (isDrawing (ui next) = true /\ currentShapeId (ui next) = Some "d")
  /\ (points "d" (shapes (ui closed)) = Some [0; 0; 50; 0]
      /\ continuousDrawing (ui closed) = false
      /\ map Joint.id (joints (ui closed)) = ["j2"; "j3"])
  /\ map Joint.id (joints (ui (dispatch w (DblClick "x" "jx"))))
     = ["j2"; "j3"; "jx"].
Proof. vm_compute. repeat split; reflexivity. Qed.

(** *** Snapping *)

Lemma snapX_hit (w : World) (x anchor : JS.number) (acc : Snap) :
  Qabs (x - anchor) < alignmentThreshold ->
  snd (fst (snapX w x anchor acc)) = Some anchor.
Proof.
  intros H. apply NumFacts.ltb_lt in H. unfold snapX.
  destruct acc as [[guides sx] sy]. rewrite H. reflexivity.
Qed.

Lemma snapY_hit (w : World) (y anchor : JS.number) (acc : Snap) :
  Qabs (y - anchor) < alignmentThreshold ->
  snd (snapY w y anchor acc) = Some anchor.
Proof.
  intros H. apply NumFacts.ltb_lt in H. unfold snapY.
  destruct acc as [[guides sx] sy]. rewrite H. reflexivity.
Qed.

(** What pointer-move does to the shape being drawn and to the alignment
    guides, when a drawing is in progress. *)
Lemma handleMouseMove_draws (w : World) (e : MouseEvent.t)
  (g : list Guideline.t) (start : Point) (cid : string) (x y : JS.number) :
  isSpacePressed (ui w) && mouseCaptured (ui w) = false ->
  getStagePointerPosition w (MouseEvent.pointer e) = Some (x, y) ->
  isDrawing (ui w) = true ->
  startPoint (ui w) = Some start ->
  currentShapeId (ui w) = Some cid ->
  cid <> "" ->
  let w' := fire (handleMouseMove e g) w in
  let snapToX := snd (fst (alignment w cid x y)) in
  let snapToY := snd (alignment w cid x y) in
  shapes (ui w')
  = updateShape cid
      (moveShape start x y (snapped snapToX x) (snapped snapToY y))
      (shapes (ui w))
  /\ alignmentGuides (ui w') = fst (fst (alignment w cid x y)).
Proof.
  intros Hsp Hp Hd Hs Hc Hne w' snapToX snapToY.
  unfold w', snapToX, snapToY, fire, handleMouseMove. cbv zeta.
  rewrite Hsp, Hp, Hd, Hs, Hc.
  apply String.eqb_neq in Hne. rewrite Hne.
  destruct (alignment w cid x y) as [[guides sx] sy]. cbn [fst snd].
  clear. open_world w. run_updates. split; reflexivity.
Qed.

(** A line being drawn ends on the snapped position. *)
Lemma moveShape_line (start : Point) (x y snappedX snappedY : JS.number)
  (shape : Shape.t) :
  Shape.type shape = "line" ->
  Shape.points (moveShape start x y snappedX snappedY shape)
  = Some [fst start; snd start; snappedX; snappedY].
Proof.
  intros H. unfold moveShape. destruct start as [startX startY].
  rewrite H. reflexivity.
Qed.

(** A rectangle being drawn does not depend on the snapped position: its
    case of the [switch] reads the pointer position only. *)
Lemma moveShape_rectangle (start : Point) (x y snappedX snappedY : JS.number)
  (shape : Shape.t) :
  Shape.type shape = "rectangle" ->
  moveShape start x y snappedX snappedY shape
  = Shape.with_rect (Qabs (x - fst start)) (Qabs (y - snd start))
      (Qmin (fst start) x) (Qmin (snd start) y) shape.
Proof.
  intros H. unfold moveShape. destruct start as [startX startY].
  rewrite H. reflexivity.
Qed.

(** C6 on the example of the specification.  A rectangle has its right
    edge at [x = 110]; a second rectangle is being drawn from [(200,100)]
    and the pointer is at [(109,150)].  The handler finds the candidate
    (the alignment guide at [x = 110] is shown) but the left edge of the
    rectangle being drawn is at 109, not at 110.  A line drawn in the same
    way ends at [x = 110]. *)
Theorem rectangle_edge_not_snapped :
  let w := play Examples.rectangleBesideEdge mounted in
  let l := play Examples.lineBesideEdge mounted in
  map (fun g => map Qred (AlignmentGuide.points g)) (alignmentGuides (ui w))
  = [[110; 0; 110; 4000]]
  /\ map (fun s => (Shape.id s, Qred (Shape.x s),
                    option_map Qred (Shape.width s))) (shapes (ui w))
     = [("b", 10, Some 100); ("a", 109, Some 91)]
  /\ map (fun s => (Shape.id s, option_map (map Qred) (Shape.points s)))
       (shapes (ui l))
     = [("b", None); ("a", Some [200; 100; 110; 150])].
Proof. vm_compute. repeat split; reflexivity. Qed.

End CanvasFacts.

(** ** The history store, continued *)

Module HistoryMore.

Import HistoryStore.

Lemma canUndo_spec (s : t) : canUndo s = true <-> 0 < currentIndex s.
Proof. unfold canUndo. rewrite Z.gtb_ltb. apply Z.ltb_lt. Qed.

Lemma canRedo_spec (s : t) :
  canRedo s = true <-> currentIndex s < JS.length (history s) - 1.
Proof. unfold canRedo. apply Z.ltb_lt. Qed.

Lemma undo_at_bottom (s : t) : currentIndex s <= 0 -> undo s = (None, s).
Proof.
  intros H. unfold undo.
  replace (currentIndex s <=? 0) with true by (symmetry; apply Z.leb_le; lia).
  reflexivity.
Qed.

Lemma undo_above_bottom (s : t) :
  0 < currentIndex s ->
  undo s = (state_at s (currentIndex s - 1),
            set_index (currentIndex s - 1) s).
Proof.
  intros H. unfold undo.
  replace (currentIndex s <=? 0) with false
    by (symmetry; apply Z.leb_gt; lia).
  reflexivity.
Qed.

Lemma redo_at_tail (s : t) :
  JS.length (history s) - 1 <= currentIndex s -> redo s = (None, s).
Proof.
  intros H. unfold redo.
  replace (currentIndex s >=? JS.length (history s) - 1) with true
    by (symmetry; rewrite Z.geb_leb; apply Z.leb_le; lia).
  reflexivity.
Qed.

Lemma redo_below_tail (s : t) :
  currentIndex s < JS.length (history s) - 1 ->
  redo s = (state_at s (currentIndex s + 1),
            set_index (currentIndex s + 1) s).
Proof.
  intros H. unfold redo.
  replace (currentIndex s >=? JS.length (history s) - 1) with false
    by (symmetry; rewrite Z.geb_leb; apply Z.leb_gt; lia).
  reflexivity.
Qed.

Lemma Inv_nonempty (s : t) :
  Inv s -> -1 < currentIndex s -> 0 <= currentIndex s < JS.length (history s).
Proof.
  intros (_ & _ & [[Hi _] | Hi]) H; lia.
Qed.

(** X1. In a store reached by calls of the store, [canUndo()] holds exactly
    when [undo()] returns a snapshot, and when it does not hold [undo()]
    returns [null] and leaves the store as it is; the same for [canRedo()]
    and [redo()]. *)
Theorem canUndo_canRedo_agree (cs : list Call) :
  let s := run cs in
  (canUndo s = true <-> exists st, fst (undo s) = Some st)
  /\ (canUndo s = false <-> undo s = (None, s))
  /\ (canRedo s = true <-> exists st, fst (redo s) = Some st)
  /\ (canRedo s = false <-> redo s = (None, s)).
Proof.
  intros s. pose proof (HistoryFacts.Inv_run cs) as HI. fold s in HI.
  assert (U1 : canUndo s = true -> exists st, fst (undo s) = Some st).
  { intros H. apply canUndo_spec in H.
    rewrite (undo_above_bottom s H). cbn [fst].
    pose proof (Inv_nonempty s HI ltac:(lia)) as Hr.
    destruct (HistoryFacts.state_at_in_range s (currentIndex s - 1)
                ltac:(lia)) as (r & _ & E).
    rewrite E. eauto. }
  assert (U0 : canUndo s = false -> undo s = (None, s)).
  { intros H. apply undo_at_bottom. destruct (Z.lt_ge_cases 0 (currentIndex s))
      as [C | C]; [| exact C].
    apply canUndo_spec in C. congruence. }
  assert (R1 : canRedo s = true -> exists st, fst (redo s) = Some st).
  { intros H. apply canRedo_spec in H.
    rewrite (redo_below_tail s H). cbn [fst].
    assert (Hlow : -1 <= currentIndex s)
      by (apply HistoryFacts.Inv_index_lower, HI).
    destruct (HistoryFacts.state_at_in_range s (currentIndex s + 1)
                ltac:(lia)) as (r & _ & E).
    rewrite E. eauto. }
  assert (R0 : canRedo s = false -> redo s = (None, s)).
  { intros H. apply redo_at_tail.
    destruct (Z.lt_ge_cases (currentIndex s) (JS.length (history s) - 1))
      as [C | C]; [| exact C].
    apply canRedo_spec in C. congruence. }
  repeat split; try assumption.
  - intros [st E]. destruct (canUndo s) eqn:C; [reflexivity |].
    rewrite (U0 eq_refl) in E. discriminate.
  - intros E. destruct (canUndo s) eqn:C; [| reflexivity].
    destruct (U1 eq_refl) as [st E']. rewrite E in E'. discriminate.
  - intros [st E]. destruct (canRedo s) eqn:C; [reflexivity |].
    rewrite (R0 eq_refl) in E. discriminate.
  - intros E. destruct (canRedo s) eqn:C; [| reflexivity].
    destruct (R1 eq_refl) as [st E']. rewrite E in E'. discriminate.
Qed.

Lemma get_nonneg {A} (l : list A) (i : Z) :
  0 <= i -> JS.get l i = nth_error l (Z.to_nat i).
Proof.
  intros H. unfold JS.get.
  replace (i <? 0) with false by (symmetry; apply Z.ltb_ge; lia).
  reflexivity.
Qed.

(** X2. In a store reached by calls of the store, [getCurrentState()] is
    [null] exactly when the history is empty, which is exactly when
    [currentIndex] is [-1]; in every case it is the state of the entry at
    [currentIndex]. *)
Theorem getCurrentState_null_iff_empty (cs : list Call) :
  let s := run cs in
  (getCurrentState s = None <-> history s = [])
  /\ (history s = [] <-> currentIndex s = -1)
  /\ getCurrentState s = state_at s (currentIndex s).
Proof.
  intros s. pose proof (HistoryFacts.Inv_run cs) as HI. fold s in HI.
  destruct HI as (Hmax & Hlen & [[Hi Hh] | Hi]).
  - assert (E : getCurrentState s = None)
      by (unfold getCurrentState; rewrite Hi; reflexivity).
    rewrite E. unfold state_at. rewrite Hi. cbn. tauto.
  - rewrite (HistoryFacts.getCurrentState_in_range s Hi).
    destruct (HistoryFacts.state_at_in_range s _ Hi) as (r & _ & E).
    rewrite E.
    assert (Hne : history s <> []).
    { intros C. rewrite C in Hi. unfold JS.length in Hi. simpl in Hi. lia. }
    repeat split; intros; try congruence; try lia.
Qed.

(** The store after [addHistory], in the two cases of a reachable store. *)
Lemma addHistory_shape (st : HistoryState) (d : string) (s : t) :
  Inv s ->
  let s' := addHistory st d s in
  exists k : nat,
    history s'
    = skipn k (firstn (Z.to_nat (currentIndex s + 1)) (history s)
               ++ [newRecord st d])
    /\ currentIndex s' = currentIndex s + 1 - Z.of_nat k
    /\ Z.of_nat k <= Z.max 0 (currentIndex s).
Proof.
  intros HI s'. pose proof (HistoryFacts.Inv_index_lower s HI) as Hlow.
  pose proof (HistoryFacts.addHistory_history st d s Hlow) as Hh.
  pose proof (HistoryFacts.addHistory_index st d s) as Hi.
  fold s' in Hh, Hi.
  destruct HI as (Hmax & Hlen & Hidx).
  set (kept := firstn (Z.to_nat (currentIndex s + 1)) (history s)) in *.
  assert (Hk : JS.length kept = currentIndex s + 1).
  { unfold kept. apply HistoryFacts.length_firstn_Z.
    pose proof (JSFacts.length_nonneg (history s)). lia. }
  assert (Hf : JS.length (kept ++ [newRecord st d]) = currentIndex s + 2).
  { rewrite JSFacts.length_app, Hk. unfold JS.length. simpl. lia. }
  rewrite Hf, Hmax in Hh.
  exists (Z.to_nat (currentIndex s + 2 - 30)).
  split; [exact Hh |].
  split.
  - rewrite Hi, Hh.
    destruct (Z.le_gt_cases (currentIndex s + 2) 30) as [C | C].
    + replace (Z.to_nat (currentIndex s + 2 - 30)) with 0%nat by lia.
      cbn [skipn]. rewrite Hf. lia.
    + rewrite HistoryFacts.length_skipn_Z by (rewrite Hf; lia).
      rewrite Hf. lia.
  - lia.
Qed.

(** After a push, [undo] gives back the snapshot that was current before
    it, and [redo] the pushed one. *)
Lemma undo_after_push (st : HistoryState) (d : string) (s : t) :
  Inv s ->
  let s' := addHistory st d s in
  fst (undo s') = getCurrentState s
  /\ canRedo s' = false
  /\ (canUndo s' = true <-> history s <> [])
  /\ (history s <> [] ->
      canRedo (snd (undo s')) = true
      /\ fst (redo (snd (undo s'))) = Some st).
Proof.
  intros HI s'.
  pose proof (HistoryFacts.Inv_addHistory st d s HI) as HI'. fold s' in HI'.
  pose proof (HistoryFacts.getCurrentState_addHistory st d s HI) as Hcur.
  fold s' in Hcur.
  destruct (addHistory_shape st d s HI) as (k & Hh & Hi & Hk).
  fold s' in Hh, Hi.
  pose proof (HistoryFacts.addHistory_index st d s) as Htail. fold s' in Htail.
  assert (Hredo : canRedo s' = false).
  { destruct (canRedo s') eqn:C; [| reflexivity].
    apply canRedo_spec in C. lia. }
  destruct HI as (Hmax & Hlen & [[Hidx Hempty] | Hidx]).
  - (* first entry *)
    assert (H0 : currentIndex s' = 0) by lia.
    rewrite (undo_at_bottom s') by lia. cbn [fst].
    split; [unfold getCurrentState; rewrite Hidx; reflexivity |].
    split; [exact Hredo |].
    split; [| intros C; contradiction].
    split; [intros C; apply canUndo_spec in C; lia | intros C; contradiction].
  - assert (Hpos : 0 < currentIndex s') by lia.
    rewrite (undo_above_bottom s' Hpos). cbn [fst snd].
    assert (Hprev : state_at s' (currentIndex s' - 1)
                    = state_at s (currentIndex s)).
    { unfold state_at. rewrite !get_nonneg by lia. rewrite Hh.
      rewrite nth_error_skipn.
      replace (k + Z.to_nat (currentIndex s' - 1))%nat
        with (Z.to_nat (currentIndex s)) by lia.
      rewrite nth_error_app1
        by (rewrite length_firstn; unfold JS.length in Hidx; lia).
      rewrite nth_error_firstn.
      replace (Z.to_nat (currentIndex s) <? Z.to_nat (currentIndex s + 1))%nat
        with true by (symmetry; apply Nat.ltb_lt; lia).
      reflexivity. }
    split.
    { rewrite Hprev. symmetry.
      apply HistoryFacts.getCurrentState_in_range, Hidx. }
    split; [exact Hredo |].
    assert (Hne : history s <> []).
    { intros C. rewrite C in Hidx. unfold JS.length in Hidx. simpl in Hidx.
      lia. }
    split; [split; [intros _; exact Hne | intros _; apply canUndo_spec, Hpos]
           |].
    intros _.
    split; [apply canRedo_spec; cbn [currentIndex history set_index]; lia |].
    rewrite redo_below_tail
      by (cbn [currentIndex history set_index]; lia).
    cbn [fst currentIndex set_index].
    replace (currentIndex s' - 1 + 1) with (currentIndex s') by lia.
    rewrite <- Hcur.
    rewrite (HistoryFacts.getCurrentState_in_range s') by lia.
    reflexivity.
Qed.

(** X3. In a store reached by calls of the store, [undo()] right after
    [addHistory(st)] returns the snapshot that was current before the push
    ([null] when there was none), also when the push evicted the oldest
    entry; after the push there is nothing to redo, there is something to
    undo exactly when the history was not empty, and then [redo()] after
    that [undo()] returns [st]. *)
Theorem undo_after_addHistory
  (cs : list Call) (st : HistoryState) (d : string) :
  let s := run cs in
  let s' := addHistory st d s in
  fst (undo s') = getCurrentState s
  /\ canRedo s' = false
  /\ (canUndo s' = true <-> history s <> [])
  /\ (history s <> [] ->
      canRedo (snd (undo s')) = true
      /\ fst (redo (snd (undo s'))) = Some st).
Proof.
  intros s s'. apply undo_after_push, HistoryFacts.Inv_run.
Qed.

(** [k] calls of [undo], of [redo]. *)
Lemma undo_repeated (k : nat) (s : t) :
  let u := fold_left call (repeat Undo k) s in
  history u = history s
  /\ currentIndex u
     = Z.max (Z.min (currentIndex s) 0) (currentIndex s - Z.of_nat k).
Proof.
  revert s. induction k as [| k IH]; intros s; cbn zeta.
  - cbn. split; [reflexivity | lia].
  - cbn [repeat fold_left call].
    destruct (IH (snd (undo s))) as [Hh Hi]. rewrite Hh, Hi.
    destruct (Z.le_gt_cases (currentIndex s) 0) as [C | C].
    + rewrite (undo_at_bottom s C). cbn [snd]. split; [reflexivity | lia].
    + rewrite (undo_above_bottom s) by lia.
      cbn [snd history currentIndex set_index]. split; [reflexivity | lia].
Qed.

Lemma redo_repeated (k : nat) (s : t) :
  let r := fold_left call (repeat Redo k) s in
  history r = history s
  /\ currentIndex r
     = Z.max (currentIndex s)
         (Z.min (JS.length (history s) - 1) (currentIndex s + Z.of_nat k)).
Proof.
  revert s. induction k as [| k IH]; intros s; cbn zeta.
  - cbn. split; [reflexivity | lia].
  - cbn [repeat fold_left call].
    destruct (IH (snd (redo s))) as [Hh Hi]. rewrite Hh, Hi.
    destruct (Z.le_gt_cases (JS.length (history s) - 1) (currentIndex s))
      as [C | C].
    + rewrite (redo_at_tail s C). cbn [snd]. split; [reflexivity | lia].
    + rewrite (redo_below_tail s) by lia.
      cbn [snd history currentIndex set_index]. split; [reflexivity | lia].
Qed.

(** X4. [k] calls of [undo()] leave the entries as they are and move the
    index down by [k], but not below the first entry (an empty store stays
    at [-1]); [k] calls of [redo()] move it up by [k], but not beyond the
    last entry.  After as many undos as the index, [canUndo()] is false;
    after as many redos as there are entries above it, [canRedo()] is
    false. *)
Theorem undo_redo_repeated (cs : list Call) (k : nat) :
  let s := run cs in
  let u := run (cs ++ repeat Undo k) in
  let r := run (cs ++ repeat Redo k) in
  history u = history s
  /\ currentIndex u
     = (if currentIndex s =? -1 then -1
        else Z.max 0 (currentIndex s - Z.of_nat k))
  /\ history r = history s
  /\ currentIndex r
     = Z.min (JS.length (history s) - 1) (currentIndex s + Z.of_nat k)
  /\ (currentIndex s <= Z.of_nat k -> canUndo u = false)
  /\ (JS.length (history s) - 1 - currentIndex s <= Z.of_nat k ->
      canRedo r = false).
Proof.
  intros s u r. pose proof (HistoryFacts.Inv_run cs) as HI. fold s in HI.
  unfold u, r, run. rewrite !fold_left_app. fold (run cs). fold s.
  destruct (undo_repeated k s) as [Uh Ui].
  destruct (redo_repeated k s) as [Rh Ri].
  cbn zeta in Uh, Ui, Rh, Ri.
  set (u' := fold_left call (repeat Undo k) s) in *.
  set (r' := fold_left call (repeat Redo k) s) in *.
  destruct HI as (Hmax & Hlen & Hidx).
  assert (Hu : currentIndex u'
    = (if currentIndex s =? -1 then -1
       else Z.max 0 (currentIndex s - Z.of_nat k))).
  { rewrite Ui. destruct (currentIndex s =? -1) eqn:E.
    - apply Z.eqb_eq in E. lia.
    - apply Z.eqb_neq in E. lia. }
  assert (Hr : currentIndex r'
    = Z.min (JS.length (history s) - 1) (currentIndex s + Z.of_nat k)).
  { rewrite Ri.
    assert (currentIndex s <= JS.length (history s) - 1).
    { destruct Hidx as [[Hi Hh] | Hi]; [| lia].
      rewrite Hh, Hi. unfold JS.length. simpl. lia. }
    lia. }
  repeat split; try assumption.
  - intros H. destruct (canUndo u') eqn:C; [| reflexivity].
    apply canUndo_spec in C. rewrite Ui in C. lia.
  - intros H. destruct (canRedo r') eqn:C; [| reflexivity].
    apply canRedo_spec in C. rewrite Rh, Ri in C. lia.
Qed.

End HistoryMore.

(** ** Simplifying a stroke *)

Module NumMore.

Open Scope Q_scope.

(** What the loop of [simplifyPoints] appends: whole points, and no more
    than the points it visits. *)
Lemma simplifyLoop_appends (n : nat) (points : list JS.number)
  (tolerance : JS.number) (i : Z) (result : list JS.number) :
  exists middle,
    Num.simplifyLoop n points tolerance i result = result ++ middle
    /\ Nat.even (List.length middle) = true
    /\ (Z.of_nat (List.length middle)
        <= Z.max 0 (JS.length points - 1 - i))%Z.
Proof.
  revert i result. induction n as [| n IH]; intros i result.
  - exists []. cbn. rewrite app_nil_r. repeat split. lia.
  - cbn [Num.simplifyLoop].
    destruct (i <? JS.length points - 2)%Z eqn:E.
    + apply Z.ltb_lt in E. cbv zeta.
      match goal with
      | |- context [if ?c then _ else _] => destruct c
      end.
      * destruct (IH (i + 2)%Z
                    (result ++ [Num.nth points i; Num.nth points (i + 1)]))
          as (m & Hm & He & Hl).
        exists ([Num.nth points i; Num.nth points (i + 1)] ++ m).
        rewrite Hm, <- app_assoc. split; [reflexivity |].
        split; [exact He |]. cbn [List.length app]. lia.
      * destruct (IH (i + 2)%Z result) as (m & Hm & He & Hl).
        exists m. split; [exact Hm |]. split; [exact He | lia].
    + exists []. rewrite app_nil_r. repeat split. cbn. lia.
Qed.

(** The loop ends by its own test: fuel beyond the number of rounds is not
    used. *)
Lemma simplifyLoop_fuel (n m : nat) (points : list JS.number)
  (tolerance : JS.number) (i : Z) (result : list JS.number) :
  (JS.length points - 2 - i <= Z.of_nat n)%Z ->
  (JS.length points - 2 - i <= Z.of_nat m)%Z ->
  Num.simplifyLoop n points tolerance i result
  = Num.simplifyLoop m points tolerance i result.
Proof.
  revert m i result. induction n as [| n IH]; intros m i result Hn Hm.
  - destruct m as [| m]; [reflexivity |]. cbn [Num.simplifyLoop].
    replace (i <? JS.length points - 2)%Z with false
      by (symmetry; apply Z.ltb_ge; lia).
    reflexivity.
  - destruct m as [| m]; cbn [Num.simplifyLoop].
    + replace (i <? JS.length points - 2)%Z with false
        by (symmetry; apply Z.ltb_ge; lia).
      reflexivity.
    + destruct (i <? JS.length points - 2)%Z; [| reflexivity].
      cbv zeta. apply IH; lia.
Qed.

Lemma Math_sqrt_zero (a : Q) : a == 0 -> Num.Math_sqrt a == 0.
Proof.
  intros H. unfold Num.Math_sqrt. unfold Qeq in *. cbn in *.
  rewrite Z.mul_1_r in H. rewrite H. reflexivity.
Qed.

(** The distance to a segment of a point that is the start of the segment:
    [A] and [B] are [0], so is [dot], and the point found on the segment is
    the start itself, whether the segment has a length or not. *)
Lemma pointToLineDistance_at_start (px py x1 y1 x2 y2 : Q) :
  px == x1 -> py == y1 ->
  Num.pointToLineDistance px py x1 y1 x2 y2 == 0.
Proof.
  intros Hx Hy. unfold Num.pointToLineDistance. cbv zeta.
  set (C := x2 - x1). set (D := y2 - y1).
  assert (Hdot : (px - x1) * C + (py - y1) * D == 0)
    by (rewrite Hx, Hy; ring).
  destruct (Qeq_bool (C * C + D * D) 0) eqn:E.
  - change (JS.ltb (- (1)) 0) with true. cbv iota.
    apply Math_sqrt_zero. rewrite Hx, Hy. ring.
  - assert (Hlen : ~ C * C + D * D == 0) by (apply Qeq_bool_neq; exact E).
    set (param := ((px - x1) * C + (py - y1) * D) / (C * C + D * D)).
    assert (Hp : param == 0).
    { unfold param. rewrite Hdot. field. exact Hlen. }
    destruct (JS.ltb param 0) eqn:E0.
    { apply NumFacts.ltb_lt in E0. exfalso. lra. }
    unfold JS.gtb. destruct (JS.ltb 1 param) eqn:E1.
    { apply NumFacts.ltb_lt in E1. exfalso. lra. }
    apply Math_sqrt_zero. rewrite Hp, Hx, Hy. ring.
Qed.

(** What the loop of [simplifyPoints] appends, by index: points of the
    array from [i] on, in their order, none of which repeats the point
    before it. *)
Lemma simplifyLoop_kept (n : nat) (points : list JS.number)
  (tolerance : Q) (i : Z) (result : list JS.number) :
  0 <= tolerance ->
  Z.even i = true ->
  exists kept,
    Num.simplifyLoop n points tolerance i result
    = result
      ++ flat_map (fun j => [Num.nth points j; Num.nth points (j + 1)]) kept
    /\ StronglySorted Z.lt kept
    /\ Forall (fun j => (i <= j < JS.length points - 2)%Z
                        /\ Z.even j = true
                        /\ ~ (Num.nth points j == Num.nth points (j - 2)
                              /\ Num.nth points (j + 1)
                                 == Num.nth points (j - 1))) kept.
Proof.
  intros Htol. revert i result.
  induction n as [| n IH]; intros i result Hev.
  - exists []. cbn. rewrite app_nil_r. repeat constructor.
  - cbn [Num.simplifyLoop].
    assert (Hev' : Z.even (i + 2) = true)
      by (rewrite Z.even_add, Hev; reflexivity).
    destruct (i <? JS.length points - 2)%Z eqn:E.
    + apply Z.ltb_lt in E. cbv zeta.
      match goal with
      | |- context [if ?c then _ else _] => destruct c eqn:G
      end.
      * destruct (IH (i + 2)%Z
                    (result ++ [Num.nth points i; Num.nth points (i + 1)])
                    Hev')
          as (kept & Hk & Hs & Hall).
        exists (i :: kept). rewrite Hk, <- app_assoc.
        split; [reflexivity |]. split.
        -- constructor; [exact Hs |].
           eapply Forall_impl; [| exact Hall].
           cbv beta. intros j [Hj _]. lia.
        -- constructor.
           ++ split; [lia |]. split; [exact Hev |]. intros [Rx Ry].
              unfold JS.gtb in G. apply NumFacts.ltb_lt in G.
              rewrite (pointToLineDistance_at_start _ _ _ _ _ _ Rx Ry) in G.
              lra.
           ++ eapply Forall_impl; [| exact Hall].
              cbv beta. intros j [Hj Hr]. split; [lia | exact Hr].
      * destruct (IH (i + 2)%Z result Hev') as (kept & Hk & Hs & Hall).
        exists kept. split; [exact Hk |]. split; [exact Hs |].
        eapply Forall_impl; [| exact Hall].
        cbv beta. intros j [Hj Hr]. split; [lia | exact Hr].
    + exists []. cbn. rewrite app_nil_r. repeat constructor.
Qed.

(** X5. [simplifyPoints] returns an array of at most 4 numbers as it is.
    For a longer one the result starts with the first point and ends with
    the last point of the input, holds whole points (an even number of
    coordinates), is at most one number longer than the input and, for an
    input of whole points, not longer than the input.  The loop ends by
    its own test: more fuel than the length of the input changes
    nothing. *)
Theorem simplifyPoints_keeps_ends
  (points : list JS.number) (tolerance : JS.number) :
  let n := JS.length points in
  let r := Num.simplifyPoints points tolerance in
  ((n <= 4)%Z -> r = points)
  /\ ((4 < n)%Z ->
      (exists middle,
         r = [Num.nth points 0; Num.nth points 1] ++ middle
             ++ [Num.nth points (n - 2); Num.nth points (n - 1)])
      /\ Nat.even (List.length r) = true
      /\ (JS.length r <= n + 1)%Z
      /\ (Z.even n = true -> (JS.length r <= n)%Z))
  /\ (forall extra : nat,
        Num.simplifyLoop (List.length points + extra) points tolerance 2
          [Num.nth points 0; Num.nth points 1]
        = Num.simplifyLoop (List.length points) points tolerance 2
            [Num.nth points 0; Num.nth points 1]).
Proof.
  intros n r. split; [| split].
  - intros H. unfold r, Num.simplifyPoints. fold n.
    replace (n <=? 4)%Z with true by (symmetry; apply Z.leb_le; exact H).
    reflexivity.
  - intros H. unfold r, Num.simplifyPoints. fold n.
    replace (n <=? 4)%Z with false by (symmetry; apply Z.leb_gt; exact H).
    cbv zeta.
    destruct (simplifyLoop_appends (List.length points) points tolerance 2
                [Num.nth points 0; Num.nth points 1]) as (m & Hm & He & Hl).
    rewrite Hm. fold n in Hl.
    split; [exists m; rewrite <- app_assoc; reflexivity |].
    assert (Hlen : List.length
                     (([Num.nth points 0; Num.nth points 1] ++ m)
                      ++ [Num.nth points (n - 2); Num.nth points (n - 1)])
                   = S (S (S (S (List.length m))))).
    { rewrite !length_app. cbn [List.length]. lia. }
    unfold JS.length at 1 2. rewrite Hlen.
    split; [cbn [Nat.even]; exact He |].
    split; [lia |].
    intros Hev.
    assert (Hm2 : exists k, List.length m = (2 * k)%nat).
    { apply Nat.even_spec in He. destruct He as [k Hk]. exists k. exact Hk. }
    destruct Hm2 as [k Hk].
    apply Z.even_spec in Hev. destruct Hev as [j Hj]. lia.
  - intros extra. apply simplifyLoop_fuel; unfold JS.length; lia.
Qed.

(** X6. For a tolerance that is not negative, what [simplifyPoints] returns
    for an array of more than 4 numbers is the first point, then some of
    the points between the first and the last, in their order, then the
    last point.  A point that repeats the point before it (the pointer
    rested) is never among the points kept: its distance to the segment
    between its neighbours is computed as [0], whatever the neighbours
    are. *)
Theorem simplifyPoints_drops_repeated_point
  (points : list JS.number) (tolerance : Q) :
  0 <= tolerance ->
  (4 < JS.length points)%Z ->
  let n := JS.length points in
  exists kept : list Z,
    Num.simplifyPoints points tolerance
    = [Num.nth points 0; Num.nth points 1]
      ++ flat_map (fun i => [Num.nth points i; Num.nth points (i + 1)]) kept
      ++ [Num.nth points (n - 2); Num.nth points (n - 1)]
    /\ StronglySorted Z.lt kept
    /\ Forall (fun i => (2 <= i < n - 2)%Z
                        /\ Z.even i = true
                        /\ ~ (Num.nth points i == Num.nth points (i - 2)
                              /\ Num.nth points (i + 1)
                                 == Num.nth points (i - 1))) kept.
Proof.
  intros Htol Hlen n. unfold Num.simplifyPoints. fold n.
  replace (n <=? 4)%Z with false by (symmetry; apply Z.leb_gt; exact Hlen).
  cbv zeta.
  destruct (simplifyLoop_kept (List.length points) points tolerance 2
              [Num.nth points 0; Num.nth points 1] Htol eq_refl)
    as (kept & Hk & Hs & Hall).
  exists kept. rewrite Hk, <- app_assoc.
  split; [reflexivity |]. split; [exact Hs | exact Hall].
Qed.

(** A stroke that rests at its start and then turns at [(5,5)]: the
    repeated point is dropped and the corner is kept. *)
Lemma simplifyPoints_drops_repeated_point_example :
  (0 <= 1 /\ (4 < JS.length [0; 0; 0; 0; 5; 5; 10; 0])%Z)
  /\ Num.simplifyPoints [0; 0; 0; 0; 5; 5; 10; 0] 1 = [0; 0; 5; 5; 10; 0]
  /\ exists kept : list Z,
       Num.simplifyPoints [0; 0; 0; 0; 5; 5; 10; 0] 1
       = [0; 0]
         ++ flat_map
              (fun i => [Num.nth [0; 0; 0; 0; 5; 5; 10; 0] i;
                         Num.nth [0; 0; 0; 0; 5; 5; 10; 0] (i + 1)]) kept
         ++ [10; 0]
       /\ Forall (fun i => (2 <= i < 6)%Z) kept.
Proof.
  assert (Htol : 0 <= 1) by discriminate.
  assert (Hlen : (4 < JS.length [0; 0; 0; 0; 5; 5; 10; 0])%Z)
    by reflexivity.
  split; [split; assumption |].
  split; [vm_compute; reflexivity |].
  destruct (simplifyPoints_drops_repeated_point
              [0; 0; 0; 0; 5; 5; 10; 0] 1 Htol Hlen)
    as (kept & Hk & _ & Hall).
  exists kept. split; [exact Hk |].
  eapply Forall_impl; [| exact Hall].
  cbv beta. intros i [Hi _]. exact Hi.
Defined.

End NumMore.

(** ** Zoom controls *)

Module ControlsFacts.

Import Canvas Controls.

Open Scope Q_scope.

(** The clamp of the store leaves a zoom between 10 and 1000 as it is. *)
Lemma setZoom_id (n : Q) (s : CanvasStore.t) :
  10 <= n <= 1000 -> CanvasStore.zoom (CanvasStore.setZoom n s) == n.
Proof.
  intros H. unfold CanvasStore.setZoom, CanvasStore.MIN_ZOOM,
    CanvasStore.MAX_ZOOM. cbn [CanvasStore.zoom].
  destruct (Q.max_spec n 10) as [[H2 E2] | [H2 E2]];
  destruct (Q.min_spec (Qmax n 10) 1000) as [[H1 E1] | [H1 E1]];
  rewrite E1; rewrite ?E2 in *; lra.
Qed.

Lemma zoom_handleZoomIn (w : World) :
  Frame.zoomInRange w ->
  CanvasStore.zoom (canvas (fire handleZoomIn w))
  == Qmin (CanvasStore.zoom (canvas w) + 10) 400.
Proof.
  unfold Frame.zoomInRange. intros H. unfold fire, handleZoomIn, with_canvas.
  cbn [canvas]. apply setZoom_id.
  destruct (Q.min_spec (CanvasStore.zoom (canvas w) + 10) 400)
    as [[H1 E1] | [H1 E1]]; rewrite E1; lra.
Qed.

Lemma zoom_handleZoomOut (w : World) :
  Frame.zoomInRange w ->
  CanvasStore.zoom (canvas (fire handleZoomOut w))
  == Qmax (CanvasStore.zoom (canvas w) - 10) 20.
Proof.
  unfold Frame.zoomInRange. intros H. unfold fire, handleZoomOut, with_canvas.
  cbn [canvas]. apply setZoom_id.
  destruct (Q.max_spec (CanvasStore.zoom (canvas w) - 10) 20)
    as [[H1 E1] | [H1 E1]]; rewrite E1; lra.
Qed.

Lemma zoom_handleZoomReset (w : World) :
  CanvasStore.zoom (canvas (fire handleZoomReset w)) == 100.
Proof.
  unfold fire, handleZoomReset, with_canvas. cbn [canvas].
  apply setZoom_id. lra.
Qed.

Lemma zoom_handlePassiveWheel (e : WheelEvent.t) (w : World) :
  CanvasStore.zoom (canvas (fire (handlePassiveWheel e) w))
  == limitZoom
       (CanvasStore.zoom (canvas w)
        - (if WheelEvent.ctrlKey e || WheelEvent.metaKey e
           then WheelEvent.deltaY e * (4 # 10)
           else WheelEvent.deltaY e / 10)).
Proof.
  unfold fire, handlePassiveWheel. cbv zeta.
  destruct (WheelEvent.ctrlKey e || WheelEvent.metaKey e);
    unfold with_canvas; cbn [canvas]; apply ZoomFacts.setZoom_limitZoom.
Qed.

Lemma limitZoom_range (n : Q) : 20 <= limitZoom n <= 400.
Proof.
  destruct (ZoomFacts.limitZoom_cases n) as [[_ E] | [[H E] | [_ E]]];
    rewrite E; lra.
Qed.

Lemma inRange_handleZoomIn (w : World) :
  Frame.zoomInRange w -> Frame.zoomInRange (fire handleZoomIn w).
Proof.
  intros H. unfold Frame.zoomInRange. rewrite (zoom_handleZoomIn w H).
  unfold Frame.zoomInRange in H.
  destruct (Q.min_spec (CanvasStore.zoom (canvas w) + 10) 400)
    as [[H1 E1] | [H1 E1]]; rewrite E1; lra.
Qed.

Lemma inRange_handleZoomOut (w : World) :
  Frame.zoomInRange w -> Frame.zoomInRange (fire handleZoomOut w).
Proof.
  intros H. unfold Frame.zoomInRange. rewrite (zoom_handleZoomOut w H).
  unfold Frame.zoomInRange in H.
  destruct (Q.max_spec (CanvasStore.zoom (canvas w) - 10) 20)
    as [[H1 E1] | [H1 E1]]; rewrite E1; lra.
Qed.

(** X7. With the zoom between 20 and 400, the zoom-in button sets it to
    [min(zoom + 10, 400)], the zoom-out button to [max(zoom - 10, 20)] and
    the reset button to 100 (the clamp of the store, 10 to 1000, never
    acts).  Zoom-in never lowers the zoom and stops at 400, which it
    reaches from 390 on; zoom-out never raises it and stops at 20, which
    it reaches from 30 down.  From a zoom that is a whole number, as the
    mount, the reset and the buttons themselves leave it, the buttons give
    whole numbers again (sums of whole numbers of this size are exact), and
    there zoom-in then zoom-out gives the zoom back up to 390, zoom-out
    then zoom-in from 30 on. *)
Theorem zoom_buttons_roundtrip (w : World) :
  Frame.zoomInRange w ->
  let z := CanvasStore.zoom (canvas w) in
  let zoomOf := fun w' => CanvasStore.zoom (canvas w') in
  zoomOf (fire handleZoomIn w) == Qmin (z + 10) 400
  /\ zoomOf (fire handleZoomOut w) == Qmax (z - 10) 20
  /\ zoomOf (fire handleZoomReset w) == 100
  /\ (z <= zoomOf (fire handleZoomIn w) <= 400)
  /\ (20 <= zoomOf (fire handleZoomOut w) <= z)
  /\ (390 <= z -> zoomOf (fire handleZoomIn w) == 400)
  /\ (z <= 30 -> zoomOf (fire handleZoomOut w) == 20)
  /\ (forall n : Z,
        z == inject_Z n ->
        (exists m : Z, zoomOf (fire handleZoomIn w) == inject_Z m)
        /\ (exists m : Z, zoomOf (fire handleZoomOut w) == inject_Z m)
        /\ ((n <= 390)%Z ->
            zoomOf (fire handleZoomOut (fire handleZoomIn w)) == z)
        /\ ((30 <= n)%Z ->
            zoomOf (fire handleZoomIn (fire handleZoomOut w)) == z)).
Proof.
  intros H z zoomOf. unfold zoomOf.
  pose proof (zoom_handleZoomIn w H) as Hin.
  pose proof (zoom_handleZoomOut w H) as Hout.
  pose proof (zoom_handleZoomOut _ (inRange_handleZoomIn w H)) as Hio.
  pose proof (zoom_handleZoomIn _ (inRange_handleZoomOut w H)) as Hoi.
  fold z in Hin, Hout. rewrite Hin in Hio. rewrite Hout in Hoi.
  unfold Frame.zoomInRange in H. fold z in H.
  split; [exact Hin |]. split; [exact Hout |].
  split; [apply zoom_handleZoomReset |].
  rewrite Hin, Hout.
  destruct (Q.min_spec (z + 10) 400) as [[H1 E1] | [H1 E1]];
  destruct (Q.max_spec (z - 10) 20) as [[H2 E2] | [H2 E2]];
  rewrite E1, E2;
  (split; [lra |]); (split; [lra |]);
  (split; [intros; lra |]); (split; [intros; lra |]);
  intros n Hn.
  all: split;
    [first [exists (n + 10)%Z; rewrite Hin, E1, Hn, inject_Z_plus;
            reflexivity
           | exists 400%Z; rewrite Hin, E1; reflexivity] |].
  all: split;
    [first [exists (n - 10)%Z; rewrite Hout, E2, Hn; unfold Qminus, Z.sub;
            rewrite inject_Z_plus, inject_Z_opp; reflexivity
           | exists 20%Z; rewrite Hout, E2; reflexivity] |].
  all: split; intros C.
  all: try (rewrite Hio, E1).
  all: try (rewrite Hoi, E2).
  all: try (assert (Cq : z <= 390)
              by (rewrite Hn; change 390 with (inject_Z 390);
                  rewrite <- Zle_Qle; exact C)).
  all: try (assert (Cq : 30 <= z)
              by (rewrite Hn; change 30 with (inject_Z 30);
                  rewrite <- Zle_Qle; exact C)).
  all: match goal with
       | |- Qmax ?a ?b == _ =>
           destruct (Q.max_spec a b) as [[H3 E3] | [H3 E3]]; rewrite E3; lra
       | |- Qmin ?a ?b == _ =>
           destruct (Q.min_spec a b) as [[H3 E3] | [H3 E3]]; rewrite E3; lra
       end.
Qed.

(** At the mounted component, where the zoom is 100. *)
Lemma zoom_buttons_roundtrip_example :
  (Frame.zoomInRange mounted
   /\ CanvasStore.zoom (canvas mounted) == inject_Z 100)
  /\ CanvasStore.zoom (canvas (fire handleZoomIn mounted)) == 110
  /\ CanvasStore.zoom
       (canvas (fire handleZoomOut (fire handleZoomIn mounted))) == 100.
Proof.
  assert (H : Frame.zoomInRange mounted)
    by (unfold Frame.zoomInRange; vm_compute; split; discriminate).
  assert (Hn : CanvasStore.zoom (canvas mounted) == inject_Z 100)
    by (vm_compute; reflexivity).
  destruct (zoom_buttons_roundtrip mounted H)
    as (Hin & _ & _ & _ & _ & _ & _ & Hwhole).
  destruct (Hwhole 100%Z Hn) as (_ & _ & Hio & _).
  assert (E : Qmin (CanvasStore.zoom (canvas mounted) + 10) 400 == 110)
    by (vm_compute; reflexivity).
  assert (C : (100 <= 390)%Z) by (vm_compute; discriminate).
  split; [split; [exact H | exact Hn] |].
  split; [exact (Qeq_trans _ _ _ Hin E) |].
  exact (Qeq_trans _ _ _ (Hio C) Hn).
Defined.

(** X8. After a wheel event the zoom is between 20 and 400, whatever it was
    before.  From a zoom in that range, a wheel turned down ([deltaY >= 0])
    never raises the zoom, a wheel turned up never lowers it, and
    [deltaY = 0] leaves it as it is. *)
Theorem wheel_zoom_range_and_direction (e : WheelEvent.t) (w : World) :
  let z := CanvasStore.zoom (canvas w) in
  let z' := CanvasStore.zoom (canvas (fire (handlePassiveWheel e) w)) in
  20 <= z' <= 400
  /\ (Frame.zoomInRange w -> 0 <= WheelEvent.deltaY e -> z' <= z)
  /\ (Frame.zoomInRange w -> WheelEvent.deltaY e <= 0 -> z <= z')
  /\ (WheelEvent.deltaY e == 0 -> Frame.zoomInRange w -> z' == z).
Proof.
  intros z z'. unfold z'. rewrite zoom_handlePassiveWheel. fold z.
  set (d := if WheelEvent.ctrlKey e || WheelEvent.metaKey e
            then WheelEvent.deltaY e * (4 # 10)
            else WheelEvent.deltaY e / 10).
  assert (Hd : d == WheelEvent.deltaY e * (4 # 10)
               \/ d == WheelEvent.deltaY e * (1 # 10)).
  { unfold d. destruct (WheelEvent.ctrlKey e || WheelEvent.metaKey e);
      [left; reflexivity | right; field]. }
  split; [apply limitZoom_range |].
  unfold Frame.zoomInRange. fold z.
  repeat split; intros;
    destruct (ZoomFacts.limitZoom_cases (z - d)) as [[A E] | [[A E] | [A E]]];
    rewrite E; destruct Hd as [Hd | Hd]; rewrite Hd in *; lra.
Qed.

(** X9. The second keydown listener does, on Cmd with [+] or [=], exactly
    what the zoom-in button does and, on Cmd with [-], exactly what the
    zoom-out button does; without Cmd, or on any other key, it changes
    nothing. *)
Theorem cmd_keys_are_zoom_buttons (e : KeyboardEvent.t) (w : World) :
  fire (handleKeydown e) w
  = if KeyboardEvent.metaKey e
    then if String.eqb (KeyboardEvent.key e) "+"
            || String.eqb (KeyboardEvent.key e) "="
         then fire handleZoomIn w
         else if String.eqb (KeyboardEvent.key e) "-"
              then fire handleZoomOut w
              else w
    else w.
Proof.
  unfold fire, handleKeydown, handleZoomIn, handleZoomOut. cbv zeta.
  destruct (KeyboardEvent.metaKey e),
    (String.eqb (KeyboardEvent.key e) "+"),
    (String.eqb (KeyboardEvent.key e) "="),
    (String.eqb (KeyboardEvent.key e) "-"); reflexivity.
Qed.

End ControlsFacts.

(** ** The canvas handlers, continued *)

Module FrameFacts.

Import Canvas Frame.

Open Scope Q_scope.

Lemma preserves_skip {A} (proj : World -> A) : Preserves proj skip.
Proof. intros p. reflexivity. Qed.

Lemma preserves_seq {A} (proj : World -> A) (u v : Update) :
  Preserves proj u -> Preserves proj v -> Preserves proj (u ;; v).
Proof. intros Hu Hv p. unfold seq. rewrite Hv. apply Hu. Qed.

Lemma preserves_if {A} (proj : World -> A) (b : bool) (u v : Update) :
  Preserves proj u -> Preserves proj v ->
  Preserves proj (if b then u else v).
Proof. destruct b; auto. Qed.

(** Follows the shape of an update; a setter of a cell that [proj] does not
    read is left to computation. *)
Ltac preserves :=
  lazymatch goal with
  | |- Preserves _ (seq _ _) => apply preserves_seq; preserves
  | |- Preserves _ skip => apply preserves_skip
  | |- Preserves _ handleUndo =>
      let p := fresh "p" in
      intros p; unfold handleUndo;
      destruct (HistoryStore.undo (history p)) as [[? |] ?]; reflexivity
  | |- Preserves _ handleRedo =>
      let p := fresh "p" in
      intros p; unfold handleRedo;
      destruct (HistoryStore.redo (history p)) as [[? |] ?]; reflexivity
  | |- Preserves _ (match ?x with _ => _ end) =>
      first [apply preserves_if | destruct x]; preserves
  | |- Preserves _ (let _ := _ in _) => cbv zeta; preserves
  | |- Preserves _ _ => intros ?; reflexivity
  end.

Lemma grows_skip : GrowsJoints skip.
Proof. intros p. exists []. rewrite app_nil_r. reflexivity. Qed.

Lemma grows_seq (u v : Update) :
  GrowsJoints u -> GrowsJoints v -> GrowsJoints (u ;; v).
Proof.
  intros Hu Hv p. unfold seq.
  destruct (Hu p) as [a Ha]. destruct (Hv (u p)) as [b Hb].
  exists (a ++ b). rewrite Hb, Ha, app_assoc. reflexivity.
Qed.

Lemma grows_if (b : bool) (u v : Update) :
  GrowsJoints u -> GrowsJoints v -> GrowsJoints (if b then u else v).
Proof. destruct b; auto. Qed.

Lemma grows_preserves (u : Update) :
  Preserves (fun p => joints (ui p)) u -> GrowsJoints u.
Proof.
  intros H p. exists []. rewrite app_nil_r. apply H.
Qed.

Lemma grows_push (j : Joint.t) :
  GrowsJoints (setJointsWith (fun prevJoints => prevJoints ++ [j])).
Proof. intros p. exists [j]. reflexivity. Qed.

Ltac grows :=
  lazymatch goal with
  | |- GrowsJoints (seq _ _) => apply grows_seq; grows
  | |- GrowsJoints skip => apply grows_skip
  | |- GrowsJoints (setJointsWith _) => apply grows_push
  | |- GrowsJoints (match ?x with _ => _ end) =>
      first [apply grows_if | destruct x]; grows
  | |- GrowsJoints (let _ := _ in _) => cbv zeta; grows
  | |- GrowsJoints _ => apply grows_preserves; preserves
  end.

Lemma grows_handleKeyboardDown (e : KeyboardEvent.t) (w : World) :
  GrowsJoints (handleKeyboardDown e w).
Proof. unfold handleKeyboardDown. grows. Qed.

Lemma grows_handleMouseDown (e : MouseEvent.t) (id : string) (w : World) :
  GrowsJoints (handleMouseDown e id w).
Proof. unfold handleMouseDown, penDown. grows. Qed.

Lemma grows_handleMouseMove (e : MouseEvent.t) (g : list Guideline.t)
  (w : World) : GrowsJoints (handleMouseMove e g w).
Proof. unfold handleMouseMove. grows. Qed.

Lemma grows_handleMouseUp (e : MouseEvent.t) (g : list Guideline.t)
  (jointId : string) (w : World) : GrowsJoints (handleMouseUp e g jointId w).
Proof. unfold handleMouseUp, polygonUp. grows. Qed.

Lemma grows_handleDblClick (id jointId : string) (w : World) :
  GrowsJoints (handleDblClick id jointId w).
Proof. unfold handleDblClick. grows. Qed.

Lemma grows_runTimer (t : Timer) (newId : string) :
  GrowsJoints (runTimer t newId).
Proof. destruct t; cbn [runTimer]; grows. Qed.

End FrameFacts.

Module CanvasMore.

Import Canvas Frame CanvasFacts FrameFacts.

Open Scope Q_scope.

Lemma updateShape_nth (cid : string) (f : Shape.t -> Shape.t)
  (l : list Shape.t) (i : nat) (s : Shape.t) :
  nth_error l i = Some s ->
  Shape.id s <> cid ->
  nth_error (updateShape cid f l) i = Some s.
Proof.
  intros Hn Hne. unfold updateShape. rewrite nth_error_map, Hn. cbn.
  apply String.eqb_neq in Hne. rewrite Hne. reflexivity.
Qed.

(** The shapes after pointer-move: the shapes before it, the one being
    drawn redrawn. *)
Lemma handleMouseMove_shapes (w : World) (e : MouseEvent.t)
  (g : list Guideline.t) :
  shapes (ui (fire (handleMouseMove e g) w)) = shapes (ui w)
  \/ exists cid f,
       currentShapeId (ui w) = Some cid
       /\ (forall s, Shape.id (f s) = Shape.id s)
       /\ shapes (ui (fire (handleMouseMove e g) w))
          = updateShape cid f (shapes (ui w)).
Proof.
  unfold fire, handleMouseMove. cbv zeta.
  destruct (isSpacePressed (ui w) && mouseCaptured (ui w)).
  { left. destruct (MouseEvent.pointer e) as [[px py] |]; [| reflexivity].
    destruct (CanvasStore.pan (canvas w)). reflexivity. }
  destruct (getStagePointerPosition w (MouseEvent.pointer e)) as [[x y] |];
    [| left; reflexivity].
  destruct (isDrawing (ui w)), (startPoint (ui w)) as [start |],
    (currentShapeId (ui w)) as [cid |]; try (left; reflexivity).
  destruct (cid =? "")%string; [left; reflexivity |].
  destruct (alignment w cid x y) as [[guides sx] sy].
  right. exists cid. eexists. split; [reflexivity |].
  split; [| reflexivity]. intros s. apply id_moveShape.
Qed.

(** X10. Pointer-move changes neither the annotations, the joints, the
    selection, the history, the pending timers nor the zoom; it starts and
    ends no drawing and leaves the polygon session as it is; the shapes
    keep their ids and their order, and every shape other than the one
    being drawn is untouched. *)
Theorem handleMouseMove_frame (w : World) (e : MouseEvent.t)
  (g : list Guideline.t) :
  let w' := fire (handleMouseMove e g) w in
  annotations (ui w') = annotations (ui w)
  /\ joints (ui w') = joints (ui w)
  /\ selectedId (ui w') = selectedId (ui w)
  /\ history w' = history w
  /\ timers w' = timers w
  /\ CanvasStore.zoom (canvas w') = CanvasStore.zoom (canvas w)
  /\ (isDrawing (ui w'), startPoint (ui w'), currentShapeId (ui w'))
     = (isDrawing (ui w), startPoint (ui w), currentShapeId (ui w))
  /\ (continuousDrawing (ui w'), linePoints (ui w'))
     = (continuousDrawing (ui w), linePoints (ui w))
  /\ map Shape.id (shapes (ui w')) = map Shape.id (shapes (ui w))
  /\ (forall i s,
        nth_error (shapes (ui w)) i = Some s ->
        currentShapeId (ui w) <> Some (Shape.id s) ->
        nth_error (shapes (ui w')) i = Some s).
Proof.
  intros w'. unfold w'.
  assert (F : forall (A : Type) (proj : World -> A),
            Preserves proj (handleMouseMove e g w) ->
            proj (fire (handleMouseMove e g) w) = proj w)
    by (intros A proj H; apply H).
  split; [apply (F _ (fun p => annotations (ui p)));
          unfold handleMouseMove; preserves |].
  split; [apply (F _ (fun p => joints (ui p)));
          unfold handleMouseMove; preserves |].
  split; [apply (F _ (fun p => selectedId (ui p)));
          unfold handleMouseMove; preserves |].
  split; [apply (F _ (fun p => history p));
          unfold handleMouseMove; preserves |].
  split; [apply (F _ (fun p => timers p));
          unfold handleMouseMove; preserves |].
  split; [apply (F _ (fun p => CanvasStore.zoom (canvas p)));
          unfold handleMouseMove; preserves |].
  split; [apply (F _ (fun p => (isDrawing (ui p), startPoint (ui p),
                                 currentShapeId (ui p))));
          unfold handleMouseMove; preserves |].
  split; [apply (F _ (fun p => (continuousDrawing (ui p),
                                 linePoints (ui p))));
          unfold handleMouseMove; preserves |].
  destruct (handleMouseMove_shapes w e g) as [E | (cid & f & Hc & Hf & E)];
    rewrite E.
  - split; [reflexivity | intros; assumption].
  - split; [apply ids_updateShape, Hf |].
    intros i s Hn Hne. apply updateShape_nth; [exact Hn |].
    intros C. apply Hne. rewrite Hc, C. reflexivity.
Qed.

(** X11. While the canvas is not being panned and no drawing is in progress
    (nothing being drawn, or no start point, or no current shape, or a
    current shape with the empty id), pointer-move changes nothing at all
    and pointer-up only clears [mouseCaptured]. *)
Theorem idle_pointer_changes_nothing (w : World) (e : MouseEvent.t)
  (g : list Guideline.t) (jointId : string) :
  isSpacePressed (ui w) && mouseCaptured (ui w) = false ->
  isDrawing (ui w) = false \/ startPoint (ui w) = None
  \/ currentShapeId (ui w) = None \/ currentShapeId (ui w) = Some "" ->
  fire (handleMouseMove e g) w = w
  /\ fire (handleMouseUp e g jointId) w = setMouseCaptured false w.
Proof.
  intros Hsp Hidle. unfold fire, handleMouseMove, handleMouseUp. cbv zeta.
  rewrite Hsp.
  split.
  - destruct (getStagePointerPosition w (MouseEvent.pointer e))
      as [[x y] |]; [| reflexivity].
    destruct Hidle as [H | [H | [H | H]]]; rewrite H; try reflexivity;
      destruct (isDrawing (ui w)); try reflexivity;
      destruct (startPoint (ui w)); reflexivity.
  - unfold seq.
    destruct Hidle as [H | [H | [H | H]]]; rewrite H; try reflexivity;
      destruct (isDrawing (ui w)); try reflexivity;
      destruct (startPoint (ui w)); reflexivity.
Qed.

(** At the mounted component, where nothing is being drawn. *)
Lemma idle_pointer_changes_nothing_example :
  (isSpacePressed (ui mounted) && mouseCaptured (ui mounted) = false
   /\ isDrawing (ui mounted) = false)
  /\ fire (handleMouseMove (Examples.onStageAt 5 5) []) mounted = mounted
  /\ fire (handleMouseUp (Examples.onStageAt 5 5) [] "j") mounted
     = setMouseCaptured false mounted.
Proof.
  assert (H1 : isSpacePressed (ui mounted) && mouseCaptured (ui mounted)
               = false) by (vm_compute; reflexivity).
  assert (H2 : isDrawing (ui mounted) = false) by (vm_compute; reflexivity).
  split; [split; assumption |].
  exact (idle_pointer_changes_nothing mounted (Examples.onStageAt 5 5) []
           "j" H1 (or_introl H2)).
Defined.

(** X12. With Space up, a press on the empty stage with the rectangle,
    circle, line, brush or text tool, or with the polygon tool outside a
    polygon session, appends exactly one shape: it has the generated id,
    the type of the tool (a polygon segment is a line, a brush stroke a
    path) and is draggable.  The drawing starts at the pointer position,
    the selection is cleared, annotations, joints and history are left as
    they are, and only the text tool schedules a timer. *)
Theorem handleMouseDown_starts_shape (w : World) (e : MouseEvent.t)
  (id : string) (x y : JS.number) :
  isSpacePressed (ui w) = false ->
  getStagePointerPosition w (MouseEvent.pointer e) = Some (x, y) ->
  MouseEvent.onStage e = true ->
  activeTool w = Tool.rectangle \/ activeTool w = Tool.circle
  \/ activeTool w = Tool.line \/ activeTool w = Tool.brush
  \/ activeTool w = Tool.text
  \/ (activeTool w = Tool.polygon /\ continuousDrawing (ui w) = false) ->
  let w' := fire (handleMouseDown e id) w in
  exists s,
    shapes (ui w') = shapes (ui w) ++ [s]
    /\ Shape.id s = id
    /\ Shape.type s
       = match activeTool w with
         | Tool.rectangle => "rectangle"
         | Tool.circle => "circle"
         | Tool.brush => "path"
         | Tool.text => "text"
         | _ => "line"
         end
    /\ Shape.draggable s = true
    /\ isDrawing (ui w') = true
    /\ startPoint (ui w') = Some (x, y)
    /\ currentShapeId (ui w') = Some id
    /\ selectedId (ui w') = None
    /\ annotations (ui w') = annotations (ui w)
    /\ joints (ui w') = joints (ui w)
    /\ history w' = history w
    /\ timers w'
       = timers w ++ match activeTool w with
                     | Tool.text => [EnterTextEdit id]
                     | _ => []
                     end.
Proof.
  intros Hsp Hp Hst Htool w'. unfold w', fire, handleMouseDown. cbv zeta.
  rewrite Hsp, Hp, Hst. cbn [negb orb].
  clear w'. open_world w. cbn [activeTool] in Htool.
  destruct Htool as [H | [H | [H | [H | [H | [H Hc]]]]]]; subst tool;
    try subst cd; cbn [Tool.eqb orb andb]; rewrite ?andb_false_r;
    cbv iota; eexists; run_updates; cbn [Shape.id Shape.type Shape.draggable
      newShape newTextShape]; rewrite ?app_nil_r;
    repeat split; reflexivity.
Qed.

(** With the rectangle tool, a press at [(10,10)] on the empty stage. *)
Lemma handleMouseDown_starts_shape_example :
  let w := play MoreExamples.rectangleTool mounted in
  let w' := fire (handleMouseDown (Examples.onStageAt 10 10) "a") w in
  (isSpacePressed (ui w) = false /\ activeTool w = Tool.rectangle)
  /\ exists s,
       shapes (ui w') = shapes (ui w) ++ [s]
       /\ Shape.id s = "a"
       /\ Shape.type s = "rectangle"
       /\ currentShapeId (ui w') = Some "a".
Proof.
  intros w w'.
  assert (Hsp : isSpacePressed (ui w) = false) by (vm_compute; reflexivity).
  assert (Htool : activeTool w = Tool.rectangle)
    by (vm_compute; reflexivity).
  read_cell (getStagePointerPosition w
               (MouseEvent.pointer (Examples.onStageAt 10 10))) pos Hp.
  destruct (handleMouseDown_starts_shape w (Examples.onStageAt 10 10) "a"
              (fst pos) (snd pos) Hsp Hp eq_refl (or_introl Htool))
    as (s & Hs & Hid & Hty & _ & _ & _ & Hc & _).
  split; [split; assumption |].
  exists s. split; [exact Hs |]. split; [exact Hid |].
  split; [exact Hty | exact Hc].
Defined.

(** X13. With Space up, a press on a shape, or a press with the select, view,
    canvas or color tool, or with the polygon tool during a polygon
    session, starts no drawing and adds no shape: it records the pointer
    position and, on the empty stage, clears the selection; nothing else
    changes. *)
Theorem handleMouseDown_draws_nothing (w : World) (e : MouseEvent.t)
  (id : string) (x y : JS.number) :
  isSpacePressed (ui w) = false ->
  getStagePointerPosition w (MouseEvent.pointer e) = Some (x, y) ->
  MouseEvent.onStage e = false
  \/ activeTool w = Tool.select \/ activeTool w = Tool.view
  \/ activeTool w = Tool.canvas \/ activeTool w = Tool.color
  \/ (activeTool w = Tool.polygon /\ continuousDrawing (ui w) = true) ->
  fire (handleMouseDown e id) w
  = (setLastMousePos (Some (x, y)) ;;
     (if MouseEvent.onStage e then setSelectedId None else skip)) w.
Proof.
  intros Hsp Hp H. unfold fire, handleMouseDown. cbv zeta.
  rewrite Hsp, Hp. unfold seq at 1 2 3.
  destruct H as [H | [H | [H | [H | [H | [H Hc]]]]]]; rewrite H;
    try rewrite Hc; cbn [negb orb andb Tool.eqb];
    rewrite ?orb_true_r; try reflexivity.
  destruct (MouseEvent.onStage e); reflexivity.
Qed.

(** With the select tool, at the mounted component. *)
Lemma handleMouseDown_draws_nothing_example :
  exists x y,
    (isSpacePressed (ui mounted) = false
     /\ getStagePointerPosition mounted
          (MouseEvent.pointer (Examples.onStageAt 10 10)) = Some (x, y)
     /\ activeTool mounted = Tool.select)
    /\ fire (handleMouseDown (Examples.onStageAt 10 10) "a") mounted
       = (setLastMousePos (Some (x, y)) ;; setSelectedId None) mounted.
Proof.
  assert (Hsp : isSpacePressed (ui mounted) = false)
    by (vm_compute; reflexivity).
  assert (Htool : activeTool mounted = Tool.select)
    by (vm_compute; reflexivity).
  read_cell (getStagePointerPosition mounted
               (MouseEvent.pointer (Examples.onStageAt 10 10))) pos Hp.
  exists (fst pos), (snd pos).
  split; [split; [exact Hsp | split; [exact Hp | exact Htool]] |].
  exact (handleMouseDown_draws_nothing mounted (Examples.onStageAt 10 10)
           "a" (fst pos) (snd pos) Hsp Hp (or_intror (or_introl Htool))).
Defined.

(** *** Panning *)

Lemma last_cons {A} (a : A) (l : list A) (d : A) :
  last (a :: l) d = last l a.
Proof.
  revert a d. induction l as [| b l IH]; intros a d; [reflexivity |].
  change (last (a :: b :: l) d) with (last (b :: l) d).
  rewrite (IH b d), (IH b a). reflexivity.
Qed.

Lemma pan_none (a l k : Q) : a == a - (l - l) / k.
Proof. unfold Qdiv. ring. Qed.

Lemma pan_telescope (a p l q k : Q) :
  a - (p - l) / k - (q - p) / k == a - (q - l) / k.
Proof. unfold Qdiv. ring. Qed.

Lemma play_cons (ev : Event) (evs : list Event) (w : World) :
  play (ev :: evs) w = play evs (dispatch w ev).
Proof. reflexivity. Qed.

(** One pointer-move while panning. *)
Lemma handleMouseMove_pans (w : World) (e : MouseEvent.t)
  (g : list Guideline.t) (px py : JS.number) :
  isSpacePressed (ui w) = true ->
  mouseCaptured (ui w) = true ->
  MouseEvent.pointer e = Some (px, py) ->
  fire (handleMouseMove e g) w
  = (with_canvas
       (CanvasStore.setPan
          (fst (CanvasStore.pan (canvas w))
           - (px - fst (lastPosition (ui w))) / scale w)
          (snd (CanvasStore.pan (canvas w))
           - (py - snd (lastPosition (ui w))) / scale w)) ;;
     setLastPosition (px, py)) w.
Proof.
  intros Hs Hm Hp. unfold fire, handleMouseMove. cbv zeta.
  rewrite Hs, Hm, Hp. cbn [andb].
  destruct (CanvasStore.pan (canvas w)) as [panx pany]. reflexivity.
Qed.

(** A sequence of pointer-moves while panning, in the exact arithmetic of
    the embedding, where the quotients the moves subtract add up to the
    quotient of the whole displacement. *)
Lemma pan_after_moves (w : World) (onStage : bool)
  (g : list Guideline.t) (path : list Point) :
  isSpacePressed (ui w) = true ->
  mouseCaptured (ui w) = true ->
  let moves :=
    map (fun p => MouseMove (MouseEvent.mk (Some p) onStage) g) path in
  let w' := play moves w in
  let final := last path (lastPosition (ui w)) in
  ui w' = ui (setLastPosition final w)
  /\ fst (CanvasStore.pan (canvas w'))
     == fst (CanvasStore.pan (canvas w))
        - (fst final - fst (lastPosition (ui w))) / scale w
  /\ snd (CanvasStore.pan (canvas w'))
     == snd (CanvasStore.pan (canvas w))
        - (snd final - snd (lastPosition (ui w))) / scale w
  /\ CanvasStore.zoom (canvas w') = CanvasStore.zoom (canvas w)
  /\ history w' = history w.
Proof.
  intros Hs Hm. cbv zeta. revert w Hs Hm.
  induction path as [| [px py] path IH]; intros w Hs Hm.
  - cbn [map play fold_left last]. open_world w. cbn.
    repeat split; try reflexivity; apply pan_none.
  - cbn [map]. rewrite play_cons. cbn [dispatch].
    rewrite (handleMouseMove_pans w
               (MouseEvent.mk (Some (px, py)) onStage) g px py Hs Hm
               eq_refl).
    rewrite last_cons.
    set (w1 := (with_canvas _ ;; setLastPosition (px, py)) w).
    assert (Hs1 : isSpacePressed (ui w1) = true) by exact Hs.
    assert (Hm1 : mouseCaptured (ui w1) = true) by exact Hm.
    destruct (IH w1 Hs1 Hm1) as (Hu & Hx & Hy & Hz & Hh).
    assert (Hl : lastPosition (ui w1) = (px, py)) by reflexivity.
    assert (Hsc : scale w1 = scale w) by reflexivity.
    rewrite Hl, Hsc in Hx, Hy. rewrite Hl in Hu.
    split; [rewrite Hu; clear; open_world w; reflexivity |].
    split; [rewrite Hx; unfold w1; clear; open_world w; cbn;
            apply pan_telescope |].
    split; [rewrite Hy; unfold w1; clear; open_world w; cbn;
            apply pan_telescope |].
    split; [rewrite Hz; reflexivity | rewrite Hh; reflexivity].
Qed.

Lemma sorted_last {A} (f : A -> Q) (a : A) (l : list A) :
  Sorted (fun p q => f p <= f q) (a :: l) -> f a <= f (last l a).
Proof.
  revert a. induction l as [| b l IH]; intros a H.
  - cbn. apply Qle_refl.
  - apply Sorted_inv in H. destruct H as [Hs Hh]. apply HdRel_inv in Hh.
    rewrite last_cons. apply (Qle_trans _ (f b)); [exact Hh |].
    apply IH, Hs.
Qed.

Lemma sorted_last_rev {A} (f : A -> Q) (a : A) (l : list A) :
  Sorted (fun p q => f q <= f p) (a :: l) -> f (last l a) <= f a.
Proof.
  revert a. induction l as [| b l IH]; intros a H.
  - cbn. apply Qle_refl.
  - apply Sorted_inv in H. destruct H as [Hs Hh]. apply HdRel_inv in Hh.
    rewrite last_cons. apply (Qle_trans _ (f b)); [| exact Hh].
    apply IH, Hs.
Qed.

Lemma quotient_sign (d k : Q) : 0 < k -> 0 <= d -> 0 <= d / k.
Proof.
  intros Hk Hd. unfold Qdiv. apply Qmult_le_0_compat; [exact Hd |].
  apply Qlt_le_weak, Qinv_lt_0_compat, Hk.
Qed.

Lemma pan_step_down (a d k : Q) : 0 < k -> 0 <= d -> a - d / k <= a.
Proof. intros Hk Hd. pose proof (quotient_sign d k Hk Hd). lra. Qed.

Lemma pan_step_up (a d k : Q) : 0 < k -> d <= 0 -> a <= a - d / k.
Proof.
  intros Hk Hd. pose proof (quotient_sign (- d) k Hk ltac:(lra)) as H.
  assert (E : - d / k == - (d / k)) by (unfold Qdiv; ring). lra.
Qed.

Lemma pan_at_scale_one (a d k : Q) : k == 1 -> a - d / k == a - d.
Proof. intros H. rewrite H. unfold Qdiv. change (/ 1) with 1. ring. Qed.

(** X14. While Space is held and the pointer is captured, a sequence of
    pointer-moves changes, of the component state, only [lastPosition],
    which ends at the last position of the pointer; zoom and history are
    left as they are.  Each move subtracts from the pan the displacement of
    the pointer divided by the scale: along a path that never goes left the
    pan never grows in [x], along a path that never goes right it never
    shrinks, and the same for [y].  At zoom 100, with a pan and pointer
    positions that are whole numbers of at most [2^50] (where these sums
    and quotients are exact), the pan ends at the pan at the start minus
    the displacement from the first position to the last. *)
Theorem pan_follows_pointer (w : World) (onStage : bool)
  (g : list Guideline.t) (path : list Point) :
  isSpacePressed (ui w) = true ->
  mouseCaptured (ui w) = true ->
  Frame.zoomInRange w ->
  let moves :=
    map (fun p => MouseMove (MouseEvent.mk (Some p) onStage) g) path in
  let w' := play moves w in
  let start := lastPosition (ui w) in
  let final := last path start in
  let pan := CanvasStore.pan (canvas w) in
  let pan' := CanvasStore.pan (canvas w') in
  ui w' = ui (setLastPosition final w)
  /\ CanvasStore.zoom (canvas w') = CanvasStore.zoom (canvas w)
  /\ history w' = history w
  /\ (Sorted (fun p q => fst p <= fst q) (start :: path) ->
      fst pan' <= fst pan)
  /\ (Sorted (fun p q => fst q <= fst p) (start :: path) ->
      fst pan <= fst pan')
  /\ (Sorted (fun p q => snd p <= snd q) (start :: path) ->
      snd pan' <= snd pan)
  /\ (Sorted (fun p q => snd q <= snd p) (start :: path) ->
      snd pan <= snd pan')
  /\ (CanvasStore.zoom (canvas w) == 100 ->
      Forall (fun p => exists a b : Z,
                (fst p == inject_Z a /\ snd p == inject_Z b)
                /\ (Z.abs a <= 2 ^ 50 /\ Z.abs b <= 2 ^ 50)%Z)
        (pan :: start :: path) ->
      fst pan' == fst pan - (fst final - fst start)
      /\ snd pan' == snd pan - (snd final - snd start)).
Proof.
  intros Hs Hm Hz. cbv zeta.
  destruct (pan_after_moves w onStage g path Hs Hm)
    as (Hu & Hx & Hy & Hzoom & Hh).
  assert (Hk : 0 < scale w).
  { unfold scale, zoomInRange in *.
    set (z := CanvasStore.zoom (canvas w)) in *.
    assert (E : z / 100 == z * (1 # 100)) by (unfold Qdiv; reflexivity).
    rewrite E. lra. }
  split; [exact Hu |]. split; [exact Hzoom |]. split; [exact Hh |].
  split.
  { intros S. rewrite Hx. apply pan_step_down; [exact Hk |].
    pose proof (sorted_last fst _ path S) as H.
    apply (Qplus_le_l _ _ (fst (lastPosition (ui w)))). ring_simplify.
    exact H. }
  split.
  { intros S. rewrite Hx. apply pan_step_up; [exact Hk |].
    pose proof (sorted_last_rev fst _ path S) as H.
    apply (Qplus_le_l _ _ (fst (lastPosition (ui w)))). ring_simplify.
    exact H. }
  split.
  { intros S. rewrite Hy. apply pan_step_down; [exact Hk |].
    pose proof (sorted_last snd _ path S) as H.
    apply (Qplus_le_l _ _ (snd (lastPosition (ui w)))). ring_simplify.
    exact H. }
  split.
  { intros S. rewrite Hy. apply pan_step_up; [exact Hk |].
    pose proof (sorted_last_rev snd _ path S) as H.
    apply (Qplus_le_l _ _ (snd (lastPosition (ui w)))). ring_simplify.
    exact H. }
  intros H100 _.
  assert (H1 : scale w == 1).
  { unfold scale. rewrite H100. reflexivity. }
  split; [rewrite Hx | rewrite Hy]; apply pan_at_scale_one, H1.
Qed.

(** Space held, pointer pressed at [(100,100)] and dragged over
    [(110,100)] to [(130,120)] at zoom 100: the pan ends at
    [(-30,-20)]. *)
Lemma pan_follows_pointer_example :
  let w := play MoreExamples.panning mounted in
  let path := [(110, 100); (130, 120)] in
  let moves :=
    map (fun p => MouseMove (MouseEvent.mk (Some p) true) []) path in
  (isSpacePressed (ui w) = true /\ mouseCaptured (ui w) = true
   /\ Frame.zoomInRange w)
  /\ fst (CanvasStore.pan (canvas (play moves w))) == - (30)
  /\ snd (CanvasStore.pan (canvas (play moves w))) == - (20).
Proof.
  intros w path moves.
  assert (Hs : isSpacePressed (ui w) = true) by (vm_compute; reflexivity).
  assert (Hm : mouseCaptured (ui w) = true) by (vm_compute; reflexivity).
  assert (Hz : Frame.zoomInRange w)
    by (unfold Frame.zoomInRange; vm_compute; split; discriminate).
  destruct (pan_follows_pointer w true [] path Hs Hm Hz)
    as (_ & _ & _ & _ & _ & _ & _ & Hexact).
  assert (H100 : CanvasStore.zoom (canvas w) == 100)
    by (vm_compute; reflexivity).
  assert (Hwhole :
            Forall (fun p : Point =>
                      exists a b : Z,
                        (fst p == inject_Z a /\ snd p == inject_Z b)
                        /\ (Z.abs a <= 2 ^ 50 /\ Z.abs b <= 2 ^ 50)%Z)
              (CanvasStore.pan (canvas w) :: lastPosition (ui w) :: path)).
  { constructor; [| constructor; [| constructor; [| constructor]]].
    - exists 0%Z, 0%Z.
      split; split; vm_compute; first [reflexivity | discriminate].
    - exists 100%Z, 100%Z.
      split; split; vm_compute; first [reflexivity | discriminate].
    - exists 110%Z, 100%Z.
      split; split; vm_compute; first [reflexivity | discriminate].
    - exists 130%Z, 120%Z.
      split; split; vm_compute; first [reflexivity | discriminate].
    - constructor. }
  destruct (Hexact H100 Hwhole) as [Hx Hy].
  assert (Ex : fst (CanvasStore.pan (canvas w))
               - (fst (last path (lastPosition (ui w)))
                  - fst (lastPosition (ui w))) == - (30))
    by (vm_compute; reflexivity).
  assert (Ey : snd (CanvasStore.pan (canvas w))
               - (snd (last path (lastPosition (ui w)))
                  - snd (lastPosition (ui w))) == - (20))
    by (vm_compute; reflexivity).
  split; [split; [exact Hs | split; [exact Hm | exact Hz]] |].
  split; [exact (Qeq_trans _ _ _ Hx Ex) | exact (Qeq_trans _ _ _ Hy Ey)].
Defined.

(** *** Pointer up *)

(** X15. Pointer-up that ends a drawing with a tool other than the polygon
    tool, the shape not being discarded as too small, leaves the geometry
    of every shape as the last pointer-move left it (the release position
    and the simplification of a brush stroke have no effect, their update
    being superseded in the same handler) and marks the drawn shape
    draggable; the guidelines become annotations of that shape; the
    drawing state is reset.  With the rectangle, circle, brush or pen tool
    one history entry is pushed, whose snapshot is the document of the
    render the handler ran in (without the annotations just added); with
    any other tool, the line tool included, the history is left as it
    is. *)
Theorem handleMouseUp_commits (w : World) (e : MouseEvent.t)
  (g : list Guideline.t) (jointId : string)
  (start pos : Point) (cid : string) (cur : Shape.t) :
  isSpacePressed (ui w) && mouseCaptured (ui w) = false ->
  isDrawing (ui w) = true ->
  startPoint (ui w) = Some start ->
  currentShapeId (ui w) = Some cid ->
  cid <> "" ->
  getStagePointerPosition w (MouseEvent.pointer e) = Some pos ->
  findShape cid (shapes (ui w)) = Some cur ->
  (Tool.eqb (activeTool w) Tool.rectangle
   || Tool.eqb (activeTool w) Tool.circle) && tooSmall cur = false ->
  activeTool w <> Tool.polygon ->
  let w' := fire (handleMouseUp e g jointId) w in
  shapes (ui w')
  = updateShape cid (Shape.with_draggable true) (shapes (ui w))
  /\ annotations (ui w')
     = annotations (ui w)
       ++ map (Annotation.of_guideline cid) (guidelines (ui w))
  /\ guidelines (ui w') = []
  /\ alignmentGuides (ui w') = []
  /\ (isDrawing (ui w'), startPoint (ui w'), currentShapeId (ui w'))
     = (false, None, None)
  /\ history w'
     = match activeTool w with
       | Tool.rectangle | Tool.circle | Tool.path | Tool.brush =>
           match toolName (activeTool w) with
           | Some name =>
               HistoryStore.addHistory
                 (HistoryStore.mkState (shapes (ui w)) (annotations (ui w)))
                 ("绘制" ++ name ++ " #" ++ cid)%string (history w)
           | None => history w
           end
       | _ => history w
       end.
Proof.
  intros Hsp Hd Hs Hc Hne Hp Hf Hbig Hpoly w'.
  unfold w', fire, handleMouseUp. cbv zeta.
  rewrite Hsp, Hd, Hs, Hc, Hp, Hf, Hbig.
  apply String.eqb_neq in Hne. rewrite Hne. destruct pos as [x y].
  destruct (alignment w cid x y) as [[guides snapToX] snapToY].
  clear - Hpoly. unfold permanentAnnotations. open_world w.
  destruct tool; try (exfalso; apply Hpoly; reflexivity);
    cbn [Tool.eqb toolName andb]; cbv iota;
    run_updates; repeat split; reflexivity.
Qed.

(** On the rectangle of width 2 and height 100: the pointer is released at
    the position of the last move, the rectangle stays as it was drawn and
    the drawing ends. *)
Lemma handleMouseUp_commits_example :
  let w := play Examples.thinRectangle mounted in
  let w' := fire (handleMouseUp (Examples.onStageAt 12 110) [] "j") w in
  (isDrawing (ui w) = true /\ currentShapeId (ui w) = Some "b"
   /\ activeTool w = Tool.rectangle)
  /\ shapes (ui w')
     = updateShape "b" (Shape.with_draggable true) (shapes (ui w))
  /\ (isDrawing (ui w'), startPoint (ui w'), currentShapeId (ui w'))
     = (false, None, None).
Proof.
  intros w w'.
  assert (Hne : "b" <> "") by discriminate.
  assert (Hsp : isSpacePressed (ui w) && mouseCaptured (ui w) = false)
    by (vm_compute; reflexivity).
  assert (Hd : isDrawing (ui w) = true) by (vm_compute; reflexivity).
  assert (Hc : currentShapeId (ui w) = Some "b")
    by (vm_compute; reflexivity).
  assert (Ht : activeTool w = Tool.rectangle) by (vm_compute; reflexivity).
  assert (Hpoly : activeTool w <> Tool.polygon)
    by (intros C; vm_compute in C; discriminate C).
  read_cell (startPoint (ui w)) start Hs.
  read_cell (getStagePointerPosition w
               (MouseEvent.pointer (Examples.onStageAt 12 110))) pos Hp.
  read_cell (findShape "b" (shapes (ui w))) cur Hf.
  assert (Hbig : (Tool.eqb (activeTool w) Tool.rectangle
                  || Tool.eqb (activeTool w) Tool.circle)
                 && tooSmall cur = false) by (vm_compute; reflexivity).
  destruct (handleMouseUp_commits w (Examples.onStageAt 12 110) [] "j"
              start pos "b" cur Hsp Hd Hs Hc Hne Hp Hf Hbig Hpoly)
    as (Hshapes & _ & _ & _ & Hstate & _).
  split; [repeat split; assumption |].
  split; [exact Hshapes | exact Hstate].
Defined.

(** X16. When pointer-up ends a polygon segment without closing the polygon,
    and the deferred callback then runs, the next segment is appended after
    the shapes as they were at the release: a line that starts and ends at
    the end point of the finished segment, and the drawing goes on from
    that point with the new id.  The end point is recorded in
    [linePoints], no timer is left, and the history has no new entry: a
    polygon segment is never recorded. *)
Theorem polygon_segments_chain (w : World) (e : MouseEvent.t)
  (g : list Guideline.t) (jointId newId : string)
  (start pos : Point) (cid : string) (cur : Shape.t)
  (points : list JS.number) :
  isSpacePressed (ui w) && mouseCaptured (ui w) = false ->
  isDrawing (ui w) = true ->
  startPoint (ui w) = Some start ->
  currentShapeId (ui w) = Some cid ->
  cid <> "" ->
  getStagePointerPosition w (MouseEvent.pointer e) = Some pos ->
  findShape cid (shapes (ui w)) = Some cur ->
  Shape.points cur = Some points ->
  activeTool w = Tool.polygon ->
  timers w = [] ->
  let endX := Num.nth points 2 in
  let endY := Num.nth points 3 in
  let dx := endX - Num.nth (linePoints (ui w)) 0 in
  let dy := endY - Num.nth (linePoints (ui w)) 1 in
  continuousDrawing (ui w) = false
  \/ (JS.length (linePoints (ui w)) < 2)%Z
  \/ 225 <= dx * dx + dy * dy ->
  let w1 := fire (handleMouseUp e g jointId) w in
  let w2 := dispatch w1 (Timeout newId) in
  (isDrawing (ui w1) = false /\ continuousDrawing (ui w1) = true
   /\ history w1 = history w)
  /\ shapes (ui w2)
     = shapes (ui w)
       ++ [Shape.mk newId "line" 0 0 None None None
             (Some [endX; endY; endX; endY]) None
             (DrawingStore.strokeColor (drawing w))
             (DrawingStore.strokeWidth (drawing w)) "transparent" true
             None None None None None]
  /\ (isDrawing (ui w2), startPoint (ui w2), currentShapeId (ui w2))
     = (true, Some (endX, endY), Some newId)
  /\ linePoints (ui w2) = linePoints (ui w) ++ [endX; endY]
  /\ timers w2 = []
  /\ history w2 = history w.
Proof.
  intros Hsp Hd Hs Hc Hne Hp Hf Hpts Htool Ht endX endY dx dy Hfar w1 w2.
  assert (Hcond : continuousDrawing (ui w)
                  && (JS.length (linePoints (ui w)) >=? 2)%Z
                  && JS.ltb (Num.Math_sqrt (dx * dx + dy * dy)) closeDistance
                  = false).
  { destruct Hfar as [H | [H | H]].
    - rewrite H. reflexivity.
    - replace (JS.length (linePoints (ui w)) >=? 2)%Z with false
        by (symmetry; rewrite Z.geb_leb; apply Z.leb_gt; exact H).
      rewrite andb_false_r. reflexivity.
    - destruct (JS.ltb (Num.Math_sqrt (dx * dx + dy * dy)) closeDistance)
        eqn:E; [| apply andb_false_r].
      apply NumFacts.within_closeDistance in E. exfalso.
      apply (Qlt_not_le _ _ E H). }
  unfold w2, w1, fire, handleMouseUp. cbv zeta.
  rewrite Hsp, Hd, Hs, Hc, Hp, Hf, Hpts, Htool.
  apply String.eqb_neq in Hne. rewrite Hne. destruct pos as [x y].
  destruct (alignment w cid x y) as [[guides snapToX] snapToY].
  cbn [Tool.eqb orb andb]. unfold polygonUp. cbv zeta.
  fold endX endY dx dy. rewrite Hcond.
  clear - Ht. open_world w. cbn [timers] in Ht. subst ts.
  destruct (JS.length lpts >=? 2)%Z;
    cbn [dispatch]; run_updates; cbn [app runTimer]; run_updates;
    repeat split; reflexivity.
Qed.

(** On the first segment of a polygon, from [(0,0)] to [(50,0)]: the next
    segment starts at [(50,0)]. *)
Lemma polygon_segments_chain_example :
  let w := play MoreExamples.polygonFirstSegment mounted in
  let w1 := fire (handleMouseUp (Examples.onStageAt 50 0) [] "j1") w in
  let w2 := dispatch w1 (Timeout "b") in
  (isDrawing (ui w) = true /\ currentShapeId (ui w) = Some "a"
   /\ activeTool w = Tool.polygon /\ timers w = []
   /\ continuousDrawing (ui w) = false)
  /\ (exists endX endY,
        (isDrawing (ui w2), startPoint (ui w2), currentShapeId (ui w2))
        = (true, Some (endX, endY), Some "b")
        /\ endX == 50 /\ endY == 0)
  /\ history w2 = history w.
Proof.
  intros w w1 w2.
  assert (Hne : "a" <> "") by discriminate.
  assert (Hsp : isSpacePressed (ui w) && mouseCaptured (ui w) = false)
    by (vm_compute; reflexivity).
  assert (Hd : isDrawing (ui w) = true) by (vm_compute; reflexivity).
  assert (Hc : currentShapeId (ui w) = Some "a")
    by (vm_compute; reflexivity).
  assert (Ht : activeTool w = Tool.polygon) by (vm_compute; reflexivity).
  assert (Htm : timers w = []) by (vm_compute; reflexivity).
  assert (Hcd : continuousDrawing (ui w) = false)
    by (vm_compute; reflexivity).
  read_cell (startPoint (ui w)) start Hs.
  read_cell (getStagePointerPosition w
               (MouseEvent.pointer (Examples.onStageAt 50 0))) pos Hp.
  read_cell (findShape "a" (shapes (ui w))) cur Hf.
  read_cell (Shape.points cur) points Hpts.
  destruct (polygon_segments_chain w (Examples.onStageAt 50 0) [] "j1" "b"
              start pos "a" cur points Hsp Hd Hs Hc Hne Hp Hf Hpts Ht Htm
              (or_introl Hcd))
    as (_ & _ & Hstate & _ & _ & Hh).
  split; [repeat split; assumption |].
  split; [| exact Hh].
  exists (Num.nth points 2), (Num.nth points 3).
  split; [exact Hstate |]. split; vm_compute; reflexivity.
Defined.

(** *** Double click *)


(** *** Keyboard *)

(** X18. Escape ends the polygon session and the drawing in progress
    ([continuousDrawing], [linePoints], [isDrawing], [currentShapeId] are
    reset) and removes nothing: shapes (the segment in progress included),
    annotations, guidelines, joints, selection, start point, history and
    pending timers are as before. *)
Theorem escape_keeps_document (w : World) (e : KeyboardEvent.t) :
  KeyboardEvent.code e = "Escape" ->
  KeyboardEvent.key e = "Escape" ->
  let w' := fire (handleKeyboardDown e) w in
  (continuousDrawing (ui w'), linePoints (ui w'), isDrawing (ui w'),
   currentShapeId (ui w'))
  = (false, [], false, None)
  /\ shapes (ui w') = shapes (ui w)
  /\ annotations (ui w') = annotations (ui w)
  /\ guidelines (ui w') = guidelines (ui w)
  /\ joints (ui w') = joints (ui w)
  /\ selectedId (ui w') = selectedId (ui w)
  /\ startPoint (ui w') = startPoint (ui w)
  /\ lineSegments (ui w') = lineSegments (ui w)
  /\ history w' = history w
  /\ timers w' = timers w.
Proof.
  intros Hcode Hkey w'. unfold w', fire, handleKeyboardDown. cbv zeta.
  rewrite Hcode, Hkey.
  change ("Escape" =? "Space")%string with false.
  change ("Escape" =? "Escape")%string with true.
  change ("Escape" =? "z")%string with false.
  change ("Escape" =? "y")%string with false.
  change ("Escape" =? "Delete")%string with false.
  change ("Escape" =? "Backspace")%string with false.
  rewrite !andb_false_r. cbn [orb andb].
  clear. open_world w. destruct et; run_updates; repeat split; reflexivity.
Qed.

(** After three segments of a polygon: Escape ends the session and leaves
    the segments, the last one included, in the document. *)
Lemma escape_keeps_document_example :
  let w := play Examples.polygonSession mounted in
  let w' := fire (handleKeyboardDown (Examples.pressed "Escape")) w in
  (KeyboardEvent.code (Examples.pressed "Escape") = "Escape"
   /\ KeyboardEvent.key (Examples.pressed "Escape") = "Escape")
  /\ (continuousDrawing (ui w'), linePoints (ui w'), isDrawing (ui w'),
      currentShapeId (ui w'))
     = (false, [], false, None)
  /\ shapes (ui w') = shapes (ui w)
  /\ timers w' = timers w
  /\ (map Shape.id (shapes (ui w)) = ["a"; "b"; "c"]
      /\ List.length (timers w) = 1%nat).
Proof.
  intros w w'.
  destruct (escape_keeps_document w (Examples.pressed "Escape")
              eq_refl eq_refl)
    as (Hstate & Hs & _ & _ & _ & _ & _ & _ & _ & Ht).
  split; [split; reflexivity |].
  split; [exact Hstate |]. split; [exact Hs |]. split; [exact Ht |].
  split; vm_compute; reflexivity.
Defined.

(** Ctrl+Z: the store steps back, and a snapshot it returns replaces the
    shapes and the annotations; nothing else of the document is touched. *)
Lemma handleKeyboardDown_undo (w : World) (z : KeyboardEvent.t) :
  KeyboardEvent.ctrlKey z = true ->
  KeyboardEvent.key z = "z" ->
  let w' := fire (handleKeyboardDown z) w in
  history w' = snd (HistoryStore.undo (history w))
  /\ (shapes (ui w'), annotations (ui w'))
     = match fst (HistoryStore.undo (history w)) with
       | Some st => (HistoryStore.shapes st, HistoryStore.annotations st)
       | None => (shapes (ui w), annotations (ui w))
       end
  /\ selectedId (ui w') = selectedId (ui w)
  /\ joints (ui w') = joints (ui w).
Proof.
  intros Hctrl Hkey w'. unfold w', fire, handleKeyboardDown. cbv zeta.
  rewrite Hctrl, Hkey.
  change ("z" =? "z")%string with true.
  change ("z" =? "y")%string with false.
  change ("z" =? "Delete")%string with false.
  change ("z" =? "Backspace")%string with false.
  cbn [orb andb]. clear. open_world w. unfold handleUndo.
  destruct (KeyboardEvent.code z =? "Space")%string;
  destruct (KeyboardEvent.code z =? "Escape")%string;
  destruct et; run_updates;
  destruct (HistoryStore.undo h) as [[st |] h']; run_updates;
  repeat split; reflexivity.
Qed.

(** Ctrl+Y, likewise. *)
Lemma handleKeyboardDown_redo (w : World) (y : KeyboardEvent.t) :
  KeyboardEvent.ctrlKey y = true ->
  KeyboardEvent.key y = "y" ->
  let w' := fire (handleKeyboardDown y) w in
  history w' = snd (HistoryStore.redo (history w))
  /\ (shapes (ui w'), annotations (ui w'))
     = match fst (HistoryStore.redo (history w)) with
       | Some st => (HistoryStore.shapes st, HistoryStore.annotations st)
       | None => (shapes (ui w), annotations (ui w))
       end
  /\ selectedId (ui w') = selectedId (ui w)
  /\ joints (ui w') = joints (ui w).
Proof.
  intros Hctrl Hkey w'. unfold w', fire, handleKeyboardDown. cbv zeta.
  rewrite Hctrl, Hkey.
  change ("y" =? "z")%string with false.
  change ("y" =? "y")%string with true.
  change ("y" =? "Delete")%string with false.
  change ("y" =? "Backspace")%string with false.
  cbn [orb andb]. clear. open_world w. unfold handleRedo.
  destruct (KeyboardEvent.code y =? "Space")%string;
  destruct (KeyboardEvent.code y =? "Escape")%string;
  destruct et; run_updates;
  destruct (HistoryStore.redo h) as [[st |] h']; run_updates;
  repeat split; reflexivity.
Qed.



(** X20. Where [canUndo()] holds, Ctrl+Z followed by Ctrl+Y leaves the store
    at the index and with the entries it had, and the document is the
    snapshot of that entry, whatever was on the screen before; the joints
    are left as they are. *)
Theorem ctrl_z_then_ctrl_y (w : World) (z y : KeyboardEvent.t) :
  HistoryStore.Inv (history w) ->
  HistoryStore.canUndo (history w) = true ->
  KeyboardEvent.ctrlKey z = true -> KeyboardEvent.key z = "z" ->
  KeyboardEvent.ctrlKey y = true -> KeyboardEvent.key y = "y" ->
  let w1 := fire (handleKeyboardDown z) w in
  let w2 := fire (handleKeyboardDown y) w1 in
  exists st,
    HistoryStore.getCurrentState (history w) = Some st
    /\ shapes (ui w2) = HistoryStore.shapes st
    /\ annotations (ui w2) = HistoryStore.annotations st
    /\ HistoryStore.currentIndex (history w2)
       = HistoryStore.currentIndex (history w)
    /\ HistoryStore.history (history w2) = HistoryStore.history (history w)
    /\ joints (ui w2) = joints (ui w).
Proof.
  intros HI Hcan Hzc Hzk Hyc Hyk w1 w2.
  destruct (handleKeyboardDown_undo w z Hzc Hzk) as (Uh & _ & _ & Uj).
  fold w1 in Uh, Uj.
  destruct (handleKeyboardDown_redo w1 y Hyc Hyk) as (Rh & Rd & _ & Rj).
  fold w2 in Rh, Rd, Rj.
  apply HistoryMore.canUndo_spec in Hcan.
  pose proof (HistoryMore.Inv_nonempty _ HI ltac:(lia)) as Hr.
  rewrite Uh in Rh, Rd.
  rewrite (HistoryMore.undo_above_bottom _ Hcan) in Rh, Rd.
  cbn [snd] in Rh, Rd.
  rewrite HistoryMore.redo_below_tail in Rh, Rd
    by (cbn [HistoryStore.currentIndex HistoryStore.history
             HistoryStore.set_index]; lia).
  cbn [fst snd HistoryStore.currentIndex HistoryStore.set_index] in Rh, Rd.
  replace (HistoryStore.currentIndex (history w) - 1 + 1)%Z
    with (HistoryStore.currentIndex (history w)) in Rh, Rd by lia.
  destruct (HistoryFacts.state_at_in_range (history w) _ Hr)
    as (r & _ & Hst).
  change (HistoryStore.state_at
            (HistoryStore.set_index
               (HistoryStore.currentIndex (history w) - 1) (history w))
            (HistoryStore.currentIndex (history w)))
    with (HistoryStore.state_at (history w)
            (HistoryStore.currentIndex (history w))) in Rd.
  rewrite Hst in Rd. injection Rd as Rs Ra.
  exists (HistoryStore.state r).
  split; [rewrite (HistoryFacts.getCurrentState_in_range _ Hr); exact Hst |].
  split; [exact Rs |]. split; [exact Ra |].
  rewrite Rh. cbn [HistoryStore.currentIndex HistoryStore.history
                   HistoryStore.set_index].
  repeat split. rewrite Rj. exact Uj.
Qed.

(** After a rectangle and a text: Ctrl+Z then Ctrl+Y leaves the index of
    the store where it was, on the entry recorded for the rectangle, and
    the document is that entry: the text, never recorded, is gone. *)
Lemma ctrl_z_then_ctrl_y_example :
  let w := play Examples.selectedWhileEditing mounted in
  let w1 := fire (handleKeyboardDown MoreExamples.ctrlZ) w in
  let w2 := fire (handleKeyboardDown MoreExamples.ctrlY) w1 in
  (HistoryStore.Inv (history w) /\ HistoryStore.canUndo (history w) = true)
  /\ HistoryStore.currentIndex (history w2)
     = HistoryStore.currentIndex (history w)
  /\ (map Shape.id (shapes (ui w)) = ["b"; "t"]
      /\ map Shape.id (shapes (ui w2)) = ["b"]).
Proof.
  intros w w1 w2.
  assert (HI : HistoryStore.Inv (history w)).
  { unfold HistoryStore.Inv. split; [vm_compute; reflexivity |].
    split; [vm_compute; discriminate |].
    right. split; vm_compute; [discriminate | reflexivity]. }
  assert (Hcan : HistoryStore.canUndo (history w) = true)
    by (vm_compute; reflexivity).
  destruct (ctrl_z_then_ctrl_y w MoreExamples.ctrlZ MoreExamples.ctrlY
              HI Hcan eq_refl eq_refl eq_refl eq_refl)
    as (st & _ & _ & _ & Hi & _).
  split; [split; assumption |].
  split; [exact Hi |].
  split; vm_compute; reflexivity.
Defined.

(** *** The pen tool *)



End CanvasMore.

(** ** Moving a shape *)

Module DraggingFacts.

Import Canvas Dragging CanvasFacts.

Open Scope Q_scope.

Lemma mapi_from_nth {A B} (f : A -> Z -> B) (l : list A) (i : Z) (k : nat) :
  nth_error (mapi_from i f l) k
  = option_map (fun v => f v (i + Z.of_nat k)%Z) (nth_error l k).
Proof.
  revert i k. induction l as [| a l IH]; intros i k.
  - destruct k; reflexivity.
  - destruct k as [| k]; cbn [mapi_from nth_error option_map].
    + rewrite Z.add_0_r. reflexivity.
    + rewrite IH. destruct (nth_error l k); cbn [option_map]; [| reflexivity].
      do 2 f_equal. lia.
Qed.

Lemma mapi_nth {A B} (f : A -> Z -> B) (l : list A) (k : nat) :
  nth_error (mapi f l) k
  = option_map (fun v => f v (Z.of_nat k)) (nth_error l k).
Proof. unfold mapi. rewrite mapi_from_nth. reflexivity. Qed.

Lemma mapi_from_length {A B} (f : A -> Z -> B) (l : list A) (i : Z) :
  List.length (mapi_from i f l) = List.length l.
Proof.
  revert i. induction l as [| a l IH]; intros i; cbn; [| rewrite IH];
    reflexivity.
Qed.

Lemma updateAnnotationsOf_nth (id : string)
  (f : Annotation.t -> Annotation.t) (l : list Annotation.t) (i : nat)
  (a : Annotation.t) :
  nth_error l i = Some a ->
  nth_error (updateAnnotationsOf id f l) i
  = Some (if (Annotation.shapeId a =? id)%string then f a else a).
Proof.
  intros H. unfold updateAnnotationsOf. rewrite nth_error_map, H. cbn.
  destruct (Annotation.shapeId a =? id)%string; reflexivity.
Qed.

Lemma updateAnnotationsOf_ids (id : string)
  (f : Annotation.t -> Annotation.t) (l : list Annotation.t) :
  (forall a, Annotation.shapeId (f a) = Annotation.shapeId a) ->
  map Annotation.shapeId (updateAnnotationsOf id f l)
  = map Annotation.shapeId l.
Proof.
  intros Hf. unfold updateAnnotationsOf. rewrite map_map. apply map_ext.
  intros a. destruct (negb (Annotation.shapeId a =? id)%string);
    [reflexivity | apply Hf].
Qed.

Lemma id_draggedShape (newX newY deltaX deltaY : JS.number) (s : Shape.t) :
  Shape.id (draggedShape newX newY deltaX deltaY s) = Shape.id s.
Proof.
  unfold draggedShape. cbv zeta. destruct (Shape.points s) as [pts |];
    [| reflexivity].
  destruct ((Shape.type s =? "line")%string && (JS.length pts >=? 4)%Z);
    reflexivity.
Qed.

Lemma position_draggedShape (newX newY deltaX deltaY : JS.number)
  (s : Shape.t) :
  Shape.x (draggedShape newX newY deltaX deltaY s) = newX
  /\ Shape.y (draggedShape newX newY deltaX deltaY s) = newY.
Proof.
  unfold draggedShape. cbv zeta. destruct (Shape.points s) as [pts |];
    [| split; reflexivity].
  destruct ((Shape.type s =? "line")%string && (JS.length pts >=? 4)%Z);
    split; reflexivity.
Qed.

Lemma size_draggedShape (newX newY deltaX deltaY : JS.number)
  (s : Shape.t) :
  Shape.type s <> "line" ->
  draggedShape newX newY deltaX deltaY s = with_position newX newY s.
Proof.
  intros H. unfold draggedShape. cbv zeta.
  apply String.eqb_neq in H. rewrite H.
  destruct (Shape.points s); reflexivity.
Qed.

Lemma updateShape_In (cid : string) (f : Shape.t -> Shape.t)
  (l : list Shape.t) (s' : Shape.t) :
  In s' (updateShape cid f l) ->
  (forall s, Shape.id (f s) = Shape.id s) ->
  Shape.id s' = cid ->
  exists s, In s l /\ Shape.id s = cid /\ s' = f s.
Proof.
  intros Hin Hf Hid. unfold updateShape in Hin. apply in_map_iff in Hin.
  destruct Hin as (s & E & Hs). exists s.
  destruct (Shape.id s =? cid)%string eqn:C.
  - apply String.eqb_eq in C. auto.
  - apply String.eqb_neq in C. subst s'. contradiction.
Qed.

(** The annotations after a move by [(deltaX, deltaY)] of the shape [id]:
    those of other shapes are untouched, those of the shape are shifted
    coordinate by coordinate, with their label. *)
Lemma annotations_shifted (id : string) (deltaX deltaY : JS.number)
  (l : list Annotation.t) (i : nat) (a : Annotation.t) :
  nth_error l i = Some a ->
  (Annotation.shapeId a <> id ->
   nth_error (updateAnnotationsOf id (shiftAnnotation deltaX deltaY) l) i
   = Some a)
  /\ (Annotation.shapeId a = id ->
      exists a',
        nth_error (updateAnnotationsOf id (shiftAnnotation deltaX deltaY) l) i
        = Some a'
        /\ Annotation.text a' = Annotation.text a
        /\ List.length (Annotation.points a')
           = List.length (Annotation.points a)
        /\ (forall k v,
              nth_error (Annotation.points a) k = Some v ->
              nth_error (Annotation.points a') k
              = Some (if (Z.of_nat k mod 2 =? 0)%Z
                      then v + deltaX else v + deltaY))
        /\ Annotation.textPosition a'
           = option_map (fun p => (fst p + deltaX, snd p + deltaY))
               (Annotation.textPosition a)).
Proof.
  intros Hn. rewrite (updateAnnotationsOf_nth _ _ _ _ _ Hn). split.
  - intros Hne. apply String.eqb_neq in Hne. rewrite Hne. reflexivity.
  - intros Hid. apply String.eqb_eq in Hid. rewrite Hid.
    eexists. split; [reflexivity |].
    unfold shiftAnnotation.
    cbn [Annotation.text Annotation.points Annotation.textPosition].
    split; [reflexivity |].
    split; [apply mapi_from_length |].
    split.
    + intros k v Hk. rewrite mapi_nth. unfold JS.number in *.
      rewrite Hk. reflexivity.
    + destruct (Annotation.textPosition a) as [[tx ty] |]; reflexivity.
Qed.

Lemma pairs_ind {A} (P : list A -> Prop) :
  P [] -> (forall a, P [a]) ->
  (forall a b l, P l -> P (a :: b :: l)) ->
  forall l, P l.
Proof.
  intros H0 H1 H2 l.
  assert (H : P l /\ forall a, P (a :: l)).
  { induction l as [| b l [IH1 IH2]]; [split; [exact H0 | exact H1] |].
    split; [apply IH2 |]. intros a. apply H2, IH1. }
  apply H.
Qed.

(** On an array of whole points the loop over pairs shifts each
    coordinate as the indexed [map] does. *)
Lemma shiftPairs_nth (deltaX deltaY : JS.number) (l : list JS.number) :
  Nat.even (List.length l) = true ->
  List.length (shiftPairs deltaX deltaY l) = List.length l
  /\ forall k v,
       nth_error l k = Some v ->
       nth_error (shiftPairs deltaX deltaY l) k
       = Some (if (Z.of_nat k mod 2 =? 0)%Z
               then v + deltaX else v + deltaY).
Proof.
  induction l as [| a | a b l IH] using pairs_ind; intros He.
  - split; [reflexivity |]. intros k v H. destruct k; discriminate.
  - discriminate.
  - cbn [List.length Nat.even] in He. destruct (IH He) as [IHl IHn].
    cbn [shiftPairs List.length]. split; [rewrite IHl; reflexivity |].
    intros k v H. destruct k as [| [| k]]; cbn [nth_error] in *.
    + injection H as <-. reflexivity.
    + injection H as <-. reflexivity.
    + rewrite (IHn k v H).
      replace (Z.of_nat (S (S k)) mod 2)%Z with (Z.of_nat k mod 2)%Z;
        [reflexivity |].
      replace (Z.of_nat (S (S k))) with (Z.of_nat k + 1 * 2)%Z by lia.
      symmetry. apply Z.mod_add. lia.
Qed.

(** X22. [handleShapeDragEnd] for an id that no shape has changes nothing.
    Otherwise every shape with that id is at the new position (a shape that
    is not a line is otherwise unchanged) and the other shapes are
    untouched; the annotations of other shapes are untouched and those of
    the moved shape are shifted, coordinate by coordinate and with their
    label, by the displacement of the first shape with that id; no shape
    or annotation is added or removed; one history entry is pushed, whose
    snapshot is the document before the move. *)
Theorem handleShapeDragEnd_moves (w : World) (id : string)
  (newX newY : JS.number) :
  let w' := fire (handleShapeDragEnd id newX newY) w in
  match findShape id (shapes (ui w)) with
  | None => w' = w
  | Some shape =>
      let deltaX := newX - Shape.x shape in
      let deltaY := newY - Shape.y shape in
      map Shape.id (shapes (ui w')) = map Shape.id (shapes (ui w))
      /\ (forall s', In s' (shapes (ui w')) -> Shape.id s' = id ->
            Shape.x s' = newX /\ Shape.y s' = newY)
      /\ (forall i s, nth_error (shapes (ui w)) i = Some s ->
            (Shape.id s <> id -> nth_error (shapes (ui w')) i = Some s)
            /\ (Shape.id s = id -> Shape.type s <> "line" ->
                nth_error (shapes (ui w')) i
                = Some (with_position newX newY s)))
      /\ map Annotation.shapeId (annotations (ui w'))
         = map Annotation.shapeId (annotations (ui w))
      /\ (forall i a, nth_error (annotations (ui w)) i = Some a ->
            (Annotation.shapeId a <> id ->
             nth_error (annotations (ui w')) i = Some a)
            /\ (Annotation.shapeId a = id ->
                exists a',
                  nth_error (annotations (ui w')) i = Some a'
                  /\ Annotation.text a' = Annotation.text a
                  /\ List.length (Annotation.points a')
                     = List.length (Annotation.points a)
                  /\ (forall k v,
                        nth_error (Annotation.points a) k = Some v ->
                        nth_error (Annotation.points a') k
                        = Some (if (Z.of_nat k mod 2 =? 0)%Z
                                then v + deltaX else v + deltaY))
                  /\ Annotation.textPosition a'
                     = option_map
                         (fun p => (fst p + deltaX, snd p + deltaY))
                         (Annotation.textPosition a)))
      /\ history w'
         = HistoryStore.addHistory
             (HistoryStore.mkState (shapes (ui w)) (annotations (ui w)))
             ("移动图形 #" ++ id)%string (history w)
      /\ selectedId (ui w') = selectedId (ui w)
      /\ joints (ui w') = joints (ui w)
  end.
Proof.
  intros w'. unfold w', fire, handleShapeDragEnd. cbv zeta.
  destruct (findShape id (shapes (ui w))) as [shape |] eqn:Ef;
    [| reflexivity].
  set (dx := newX - Shape.x shape). set (dy := newY - Shape.y shape).
  assert (Hs : shapes (ui ((setShapes
                 (updateShape id (draggedShape newX newY dx dy)
                    (shapes (ui w))) ;;
               setAnnotations
                 (updateAnnotationsOf id (shiftAnnotation dx dy)
                    (annotations (ui w))) ;;
               recordHistory w ("移动图形 #" ++ id)%string) w))
              = updateShape id (draggedShape newX newY dx dy)
                  (shapes (ui w))) by reflexivity.
  assert (Ha : annotations (ui ((setShapes
                 (updateShape id (draggedShape newX newY dx dy)
                    (shapes (ui w))) ;;
               setAnnotations
                 (updateAnnotationsOf id (shiftAnnotation dx dy)
                    (annotations (ui w))) ;;
               recordHistory w ("移动图形 #" ++ id)%string) w))
              = updateAnnotationsOf id (shiftAnnotation dx dy)
                  (annotations (ui w))) by reflexivity.
  rewrite Hs, Ha. clear Hs Ha.
  split; [apply ids_updateShape; intros; apply id_draggedShape |].
  split.
  { intros s' Hin Hid.
    destruct (updateShape_In _ _ _ _ Hin
                ltac:(intros; apply id_draggedShape) Hid)
      as (s & _ & _ & E).
    subst s'. apply position_draggedShape. }
  split.
  { intros i s Hn. split.
    - intros Hne. apply CanvasMore.updateShape_nth; assumption.
    - intros Hid Hty. unfold updateShape. rewrite nth_error_map, Hn. cbn.
      apply String.eqb_eq in Hid. rewrite Hid.
      rewrite size_draggedShape by exact Hty. reflexivity. }
  split; [apply updateAnnotationsOf_ids; reflexivity |].
  split; [intros i a Hn; apply annotations_shifted, Hn |].
  repeat split.
Qed.

(** X23. [updateAnnotations] with the new end points of a line leaves the
    annotations of other shapes, the shapes and the history as they are,
    and makes every annotation of the line run along the line itself:
    its coordinate [k] becomes coordinate [k mod 4] of the end points, and
    its label, when it has one, sits at the middle of the line, 20 above. *)
Theorem updateAnnotations_follows_line (w : World) (id : string)
  (x0 y0 x1 y1 : JS.number) :
  let w' := fire (updateAnnotations id 0 0 1 (Some [x0; y0; x1; y1])) w in
  map Annotation.shapeId (annotations (ui w'))
  = map Annotation.shapeId (annotations (ui w))
  /\ (forall i a, nth_error (annotations (ui w)) i = Some a ->
        (Annotation.shapeId a <> id ->
         nth_error (annotations (ui w')) i = Some a)
        /\ (Annotation.shapeId a = id ->
            exists a',
              nth_error (annotations (ui w')) i = Some a'
              /\ Annotation.text a' = Annotation.text a
              /\ (forall k v,
                    nth_error (Annotation.points a) k = Some v ->
                    nth_error (Annotation.points a') k
                    = nth_error [x0; y0; x1; y1] (k mod 4))
              /\ Annotation.textPosition a'
                 = option_map
                     (fun _ => ((x0 + x1) / 2, (y0 + y1) / 2 - 20))
                     (Annotation.textPosition a)))
  /\ shapes (ui w') = shapes (ui w)
  /\ history w' = history w.
Proof.
  intros w'. unfold w', fire, updateAnnotations.
  change (annotations (ui (setAnnotations ?l w))) with l.
  split; [apply updateAnnotationsOf_ids; reflexivity |].
  split; [| split; reflexivity].
  intros i a Hn. rewrite (updateAnnotationsOf_nth _ _ _ _ _ Hn). split.
  - intros Hne. apply String.eqb_neq in Hne. rewrite Hne. reflexivity.
  - intros Hid. apply String.eqb_eq in Hid. rewrite Hid.
    eexists. split; [reflexivity |].
    cbn [Annotation.text Annotation.points Annotation.textPosition].
    split; [reflexivity |].
    split.
    + intros k v Hk. rewrite mapi_nth. unfold JS.number in *.
      rewrite Hk. cbn [option_map].
      assert (Hm : (Z.of_nat k mod 4 = Z.of_nat (k mod 4))%Z)
        by (rewrite Nat2Z.inj_mod; reflexivity).
      assert (Hb : (k mod 4 < 4)%nat) by (apply Nat.mod_upper_bound; lia).
      assert (H2 : (Z.of_nat k mod 2 = Z.of_nat k mod 4 mod 2)%Z).
      { Z.to_euclidean_division_equations. lia. }
      rewrite H2, Hm.
      destruct (k mod 4)%nat as [| [| [| [| r]]]]; try lia; reflexivity.
    + destruct (Annotation.textPosition a) as [[tx ty] |]; reflexivity.
Qed.

End DraggingFacts.

(** ** The component *)

Module ComponentFacts.

Import Canvas Frame Component CanvasFacts FrameFacts.

Open Scope Q_scope.

(** *** What every state of the component satisfies *)

Lemma good_update (base : list Joint.t) (u : Update) :
  KeepsHistoryInv u ->
  Preserves (fun p => CanvasStore.zoom (canvas p)) u ->
  GrowsJoints u ->
  Frame.Keeps (Good base) u.
Proof.
  intros Hi Hz Hj p (HI & HZ & [a Ha]).
  split; [apply Hi, HI |]. split.
  - unfold zoomInRange. pose proof (Hz p) as E. cbv beta in E. rewrite E.
    exact HZ.
  - destruct (Hj p) as [b Hb]. exists (a ++ b).
    rewrite Hb, Ha, app_assoc. reflexivity.
Qed.

Lemma good_setZoom (base : list Joint.t) (z : JS.number) :
  20 <= z <= 400 ->
  Frame.Keeps (Good base) (with_canvas (CanvasStore.setZoom z)).
Proof.
  intros Hz p (HI & _ & HJ). split; [exact HI |]. split; [| exact HJ].
  unfold zoomInRange, with_canvas. cbn [canvas].
  rewrite ControlsFacts.setZoom_id; lra.
Qed.

(** A world-level update made of setters of the component and
    [recordHistory]. *)
Ltac good_atom :=
  apply good_update; [keeps_inv | preserves | grows].

Lemma good_handleKeyboardDown (base : list Joint.t) (e : KeyboardEvent.t)
  (w : World) : Frame.Keeps (Good base) (handleKeyboardDown e w).
Proof.
  apply good_update;
    [apply inv_handleKeyboardDown | unfold handleKeyboardDown; preserves
    | apply grows_handleKeyboardDown].
Qed.

Lemma good_handleMouseDown (base : list Joint.t) (e : MouseEvent.t)
  (id : string) (w : World) :
  Frame.Keeps (Good base) (handleMouseDown e id w).
Proof.
  apply good_update;
    [apply inv_handleMouseDown | unfold handleMouseDown, penDown; preserves
    | apply grows_handleMouseDown].
Qed.

Lemma good_handleMouseMove (base : list Joint.t) (e : MouseEvent.t)
  (g : list Guideline.t) (w : World) :
  Frame.Keeps (Good base) (handleMouseMove e g w).
Proof.
  apply good_update;
    [apply inv_handleMouseMove | unfold handleMouseMove; preserves
    | apply grows_handleMouseMove].
Qed.

Lemma good_handleMouseUp (base : list Joint.t) (e : MouseEvent.t)
  (g : list Guideline.t) (jointId : string) (w : World) :
  Frame.Keeps (Good base) (handleMouseUp e g jointId w).
Proof.
  apply good_update;
    [apply inv_handleMouseUp | unfold handleMouseUp, polygonUp; preserves
    | apply grows_handleMouseUp].
Qed.

Lemma good_runTimer (base : list Joint.t) (t : Timer) (newId : string) :
  Frame.Keeps (Good base) (Canvas.runTimer t newId).
Proof.
  apply good_update;
    [apply inv_runTimer | destruct t; cbn [Canvas.runTimer]; preserves
    | apply grows_runTimer].
Qed.

Lemma good_handlePassiveWheel (base : list Joint.t) (e : WheelEvent.t)
  (w : World) : Frame.Keeps (Good base) (handlePassiveWheel e w).
Proof.
  unfold handlePassiveWheel. cbv zeta.
  destruct (WheelEvent.ctrlKey e || WheelEvent.metaKey e);
    apply good_setZoom, ControlsFacts.limitZoom_range.
Qed.

Lemma good_dispatch (base : list Joint.t) (w : World) (ev : Event) :
  Good base w -> Good base (dispatch w ev).
Proof.
  intros H. destruct ev; cbn [dispatch]; unfold Canvas.fire.
  - apply good_handleKeyboardDown, H.
  - unfold handleKeyboardUp.
    destruct (KeyboardEvent.code e =? "Space")%string; [| exact H].
    revert H. apply (good_update base (setIsSpacePressed false));
      [keeps_inv | preserves | grows].
  - apply good_handleMouseDown, H.
  - apply good_handleMouseMove, H.
  - apply good_handleMouseUp, H.
  - revert H. apply good_update;
      [unfold handleDblClick; keeps_inv | unfold handleDblClick; preserves
      | apply grows_handleDblClick].
  - apply good_handlePassiveWheel, H.
  - exact H.
  - exact H.
  - destruct (timers w) as [| t rest]; [exact H |].
    apply good_runTimer. exact H.
Qed.

Lemma good_handleZoomIn (base : list Joint.t) (w : World) :
  zoomInRange w -> Frame.Keeps (Good base) (Controls.handleZoomIn w).
Proof.
  unfold zoomInRange. intros H. apply good_setZoom.
  destruct (Q.min_spec (CanvasStore.zoom (canvas w) + 10) 400)
    as [[H1 E1] | [H1 E1]]; rewrite E1; lra.
Qed.

Lemma good_handleZoomOut (base : list Joint.t) (w : World) :
  zoomInRange w -> Frame.Keeps (Good base) (Controls.handleZoomOut w).
Proof.
  unfold zoomInRange. intros H. apply good_setZoom.
  destruct (Q.max_spec (CanvasStore.zoom (canvas w) - 10) 20)
    as [[H1 E1] | [H1 E1]]; rewrite E1; lra.
Qed.

Lemma good_handleKeydown (base : list Joint.t) (e : KeyboardEvent.t)
  (w : World) :
  zoomInRange w -> Frame.Keeps (Good base) (Controls.handleKeydown e w).
Proof.
  intros H. unfold Controls.handleKeydown. cbv zeta.
  destruct (KeyboardEvent.metaKey e
            && ((KeyboardEvent.key e =? "+")%string
                || (KeyboardEvent.key e =? "-")%string
                || (KeyboardEvent.key e =? "=")%string));
    [| intros p Hp; exact Hp].
  destruct ((KeyboardEvent.key e =? "+")%string
            || (KeyboardEvent.key e =? "=")%string);
    [apply (good_handleZoomIn base w H) |].
  destruct (KeyboardEvent.key e =? "-")%string;
    [apply (good_handleZoomOut base w H) | intros p Hp; exact Hp].
Qed.

Lemma good_handleShapeDragEnd (base : list Joint.t) (id : string)
  (newX newY : JS.number) (w : World) :
  Frame.Keeps (Good base) (Dragging.handleShapeDragEnd id newX newY w).
Proof. unfold Dragging.handleShapeDragEnd. good_atom. Qed.

Lemma ckeeps_nothing (P : World -> Prop) : Component.Keeps P nothing.
Proof. intros p H. exact H. Qed.

Lemma ckeeps_seq (P : World -> Prop) (u v : CUpdate) :
  Component.Keeps P u -> Component.Keeps P v -> Component.Keeps P (u ;;; v).
Proof. intros Hu Hv p H. unfold andThen. apply Hv, Hu, H. Qed.

Lemma ckeeps_lift (P : World -> Prop) (u : Update) :
  Frame.Keeps P u -> Component.Keeps P (lift u).
Proof. intros Hu p H. apply Hu, H. Qed.

(** Follows the shape of an update of the component down to the updates of
    the world it lifts. *)
Ltac ckeeps :=
  lazymatch goal with
  | |- Component.Keeps _ (andThen _ _) => apply ckeeps_seq; ckeeps
  | |- Component.Keeps _ nothing => apply ckeeps_nothing
  | |- Component.Keeps _ (lift _) => apply ckeeps_lift
  | |- Component.Keeps _ (match ?x with _ => _ end) => destruct x; ckeeps
  | |- Component.Keeps _ (let _ := _ in _) => cbv zeta; ckeeps
  | |- Component.Keeps _ _ => intros ? H; exact H
  end.

Lemma good_runTimer_component (base : list Joint.t) (t : Timer)
  (newId : string) : Component.Keeps (Good base) (Component.runTimer t newId).
Proof. destruct t; cbn [Component.runTimer]; ckeeps;
  first [apply good_runTimer | good_atom]. Qed.

Lemma good_dragStart (base : list Joint.t) (shape : Shape.t)
  (nodeX nodeY : JS.number) (c : Component.t) :
  Component.Keeps (Good base) (dragStart shape nodeX nodeY c).
Proof. unfold dragStart, lineDragStart, bezierDragStart. ckeeps. Qed.

Lemma good_dragEnd (base : list Joint.t) (shape : Shape.t)
  (nodeX nodeY : JS.number) (c : Component.t) :
  Component.Keeps (Good base) (dragEnd shape nodeX nodeY c).
Proof.
  unfold dragEnd, lineDragEnd, bezierDragEnd. ckeeps;
    first [apply good_handleShapeDragEnd | good_atom].
Qed.

Lemma good_handleTextDblClick (base : list Joint.t) (id : string)
  (c : Component.t) : Component.Keeps (Good base) (handleTextDblClick id c).
Proof. unfold handleTextDblClick. ckeeps; good_atom. Qed.

Lemma good_handleTextareaKeyDown (base : list Joint.t)
  (e : KeyboardEvent.t) (c : Component.t) :
  Component.Keeps (Good base) (handleTextareaKeyDown e c).
Proof.
  unfold handleTextareaKeyDown, handleCancelTextEdit, handleCompleteTextEdit.
  ckeeps; good_atom.
Qed.

Lemma good_act (base : list Joint.t) (c : Component.t) (a : Action) :
  Good base (world c) -> Good base (world (act c a)).
Proof.
  intros H. destruct a; cbn [act].
  - destruct ev;
      try (apply (good_dispatch base (world c) _ H)).
    destruct (timers (world c)) as [| t rest] eqn:Et; [exact H |].
    apply good_runTimer_component. exact H.
  - apply (good_handleZoomIn base (world c)); [apply H | exact H].
  - apply (good_handleZoomOut base (world c)); [apply H | exact H].
  - apply good_setZoom; [lra | exact H].
  - apply (good_handleKeydown base e (world c)); [apply H | exact H].
  - destruct (nth_error (shapes (ui (world c))) index) as [shape |];
      [| exact H].
    apply good_dragStart. exact H.
  - destruct (nth_error (shapes (ui (world c))) index) as [shape |];
      [| exact H].
    apply good_dragEnd. exact H.
  - apply good_handleTextDblClick. exact H.
  - exact H.
  - apply good_handleTextareaKeyDown. exact H.
  - exact H.
Qed.

Lemma good_perform (base : list Joint.t) (actions : list Action)
  (c : Component.t) :
  Good base (world c) -> Good base (world (perform actions c)).
Proof.
  revert c. induction actions as [| a actions IH]; intros c H; cbn.
  - exact H.
  - apply IH, good_act, H.
Qed.

Lemma good_initial : Good [] (world Component.initial).
Proof.
  split; [apply Inv_mounted |].
  split; [unfold zoomInRange; vm_compute; split; discriminate |].
  exists []. reflexivity.
Qed.

(** X24. In every state the component reaches from its mount, by any sequence
    of canvas events, zoom controls, drags and text-box events, the
    history holds at most 30 entries and [currentIndex] is [-1] on an
    empty history or an index of it, and the zoom is between 20 and 400, so
    that the scale the pointer position is divided by is positive. *)
Theorem component_invariants (actions : list Action) :
  let w := world (perform actions Component.initial) in
  (JS.length (HistoryStore.history (history w)) <= 30)%Z
  /\ (HistoryStore.currentIndex (history w) = -1
      /\ HistoryStore.history (history w) = []
      \/ 0 <= HistoryStore.currentIndex (history w)
         < JS.length (HistoryStore.history (history w)))%Z
  /\ 20 <= CanvasStore.zoom (canvas w) <= 400
  /\ 0 < scale w.
Proof.
  intros w.
  destruct (good_perform [] actions Component.initial good_initial)
    as ((_ & Hlen & Hidx) & Hz & _).
  fold w in Hlen, Hidx, Hz. unfold zoomInRange in Hz.
  split; [exact Hlen |]. split; [exact Hidx |]. split; [exact Hz |].
  unfold scale.
  assert (E : CanvasStore.zoom (canvas w) / 100
              == CanvasStore.zoom (canvas w) * (1 # 100)) by field.
  rewrite E. lra.
Qed.

(** X25. From a state the component has reached, no sequence of actions
    removes or changes a joint: the joints afterwards are the joints
    before, followed by the joints added.  Deleting a segment, undo and
    redo leave the joints on the canvas. *)
Theorem joints_never_removed (before after : list Action) :
  let c := perform before Component.initial in
  let c' := perform after c in
  exists added,
    joints (ui (world c')) = joints (ui (world c)) ++ added.
Proof.
  intros c c'.
  destruct (good_perform [] before Component.initial good_initial)
    as (HI & HZ & _). fold c in HI, HZ.
  assert (G : Good (joints (ui (world c))) (world c)).
  { split; [exact HI |]. split; [exact HZ |]. exists [].
    rewrite app_nil_r. reflexivity. }
  apply (good_perform _ after c G).
Qed.

(** *** Editing a text *)

Lemma textOrDefault_nonempty (v : string) : textOrDefault v <> "".
Proof.
  unfold textOrDefault. destruct (v =? "")%string eqn:E; [discriminate |].
  apply String.eqb_neq, E.
Qed.

Lemma textOrDefault_id (v : string) : v <> "" -> textOrDefault v = v.
Proof.
  intros H. unfold textOrDefault. apply String.eqb_neq in H. rewrite H.
  reflexivity.
Qed.

(** What [handleCompleteTextEdit] does when a text is being edited and its
    shape exists. *)
Lemma handleCompleteTextEdit_commits (c : Component.t) (editing : string)
  (found : Shape.t) :
  editingText (ui (world c)) = Some editing ->
  findShape editing (shapes (ui (world c))) = Some found ->
  let w := world c in
  let c' := Component.fire handleCompleteTextEdit c in
  shapes (ui (world c'))
  = updateShape editing
      (with_text (textOrDefault (textValue c))
         (DrawingStore.fontSize (drawing w))
         (DrawingStore.fontFamily (drawing w))
         (DrawingStore.textAlign (drawing w))
         (DrawingStore.fontStyle (drawing w))
         (DrawingStore.textStrokeWidth (drawing w)))
      (shapes (ui w))
  /\ editingText (ui (world c')) = None
  /\ showTextHelp c' = false
  /\ textValue c' = textValue c
  /\ annotations (ui (world c')) = annotations (ui w)
  /\ history (world c')
     = HistoryStore.addHistory
         (HistoryStore.mkState (shapes (ui w)) (annotations (ui w)))
         ("编辑文本 #" ++ editing)%string (history w).
Proof.
  intros He Hf w c'. unfold c', Component.fire, handleCompleteTextEdit.
  cbv zeta. rewrite He, Hf. unfold w. clear.
  destruct c as [w tv help origin]. cbn [world textValue]. open_world w.
  repeat split.
Qed.

(** X26. [handleCompleteTextEdit] changes nothing when no text is being
    edited or no shape has the edited id (the box then stays open).
    Otherwise the shapes with that id get the text of the box, or ["文本"]
    when the box is empty, so never an empty text, together with the font
    settings and the text stroke width of the drawing store; the other
    shapes are untouched; the box is closed, and one history entry is
    pushed, whose snapshot is the document before the edit. *)
Theorem text_edit_never_stores_empty (c : Component.t) :
  let w := world c in
  let c' := Component.fire handleCompleteTextEdit c in
  match editingText (ui w) with
  | None => c' = c
  | Some editing =>
      match findShape editing (shapes (ui w)) with
      | None => c' = c
      | Some _ =>
          map Shape.id (shapes (ui (world c'))) = map Shape.id (shapes (ui w))
          /\ (forall s', In s' (shapes (ui (world c'))) ->
                Shape.id s' = editing ->
                Shape.text s' = Some (textOrDefault (textValue c))
                /\ Shape.text s' <> Some ""
                /\ Shape.text s' <> None
                /\ Shape.fontSize s'
                   = Some (DrawingStore.fontSize (drawing w))
                /\ Shape.strokeWidth s'
                   = DrawingStore.textStrokeWidth (drawing w))
          /\ (forall i s, nth_error (shapes (ui w)) i = Some s ->
                Shape.id s <> editing ->
                nth_error (shapes (ui (world c'))) i = Some s)
          /\ (textValue c <> "" ->
              forall s', In s' (shapes (ui (world c'))) ->
                Shape.id s' = editing -> Shape.text s' = Some (textValue c))
          /\ editingText (ui (world c')) = None
          /\ showTextHelp c' = false
          /\ history (world c')
             = HistoryStore.addHistory
                 (HistoryStore.mkState (shapes (ui w)) (annotations (ui w)))
                 ("编辑文本 #" ++ editing)%string (history w)
      end
  end.
Proof.
  intros w c'.
  destruct (editingText (ui w)) as [editing |] eqn:He.
  2:{ unfold c', Component.fire, handleCompleteTextEdit. cbv zeta.
      fold w. rewrite He. reflexivity. }
  destruct (findShape editing (shapes (ui w))) as [found |] eqn:Hf.
  2:{ unfold c', Component.fire, handleCompleteTextEdit. cbv zeta.
      fold w. rewrite He, Hf. reflexivity. }
  destruct (handleCompleteTextEdit_commits c editing found He Hf)
    as (Hs & Hed & Hh & _ & _ & Hhist).
  fold c' w in Hs, Hed, Hh, Hhist. rewrite Hs.
  assert (Hx : forall s', In s'
             (updateShape editing
                (with_text (textOrDefault (textValue c))
                   (DrawingStore.fontSize (drawing w))
                   (DrawingStore.fontFamily (drawing w))
                   (DrawingStore.textAlign (drawing w))
                   (DrawingStore.fontStyle (drawing w))
                   (DrawingStore.textStrokeWidth (drawing w)))
                (shapes (ui w))) ->
             Shape.id s' = editing ->
             exists s, s' = with_text (textOrDefault (textValue c))
                   (DrawingStore.fontSize (drawing w))
                   (DrawingStore.fontFamily (drawing w))
                   (DrawingStore.textAlign (drawing w))
                   (DrawingStore.fontStyle (drawing w))
                   (DrawingStore.textStrokeWidth (drawing w)) s).
  { intros s' Hin Hid.
    destruct (DraggingFacts.updateShape_In _ _ _ _ Hin
                ltac:(intros; reflexivity) Hid) as (s & _ & _ & E).
    exists s. exact E. }
  split; [apply ids_updateShape; intros; reflexivity |].
  split.
  { intros s' Hin Hid. destruct (Hx s' Hin Hid) as [s ->].
    cbn [Shape.text Shape.fontSize Shape.strokeWidth with_text].
    repeat split; try discriminate.
    intros C. injection C as C. apply (textOrDefault_nonempty _ C). }
  split; [intros i s Hn Hne; apply CanvasMore.updateShape_nth; assumption |].
  split.
  { intros Hne s' Hin Hid. destruct (Hx s' Hin Hid) as [s ->].
    cbn [Shape.text with_text]. rewrite (textOrDefault_id _ Hne).
    reflexivity. }
  split; [exact Hed |]. split; [exact Hh | exact Hhist].
Qed.

Lemma findShape_removeShape (sel : string) (l : list Shape.t) :
  findShape sel (removeShape sel l) = None.
Proof.
  unfold findShape, removeShape. induction l as [| s l IH]; [reflexivity |].
  cbn [filter]. destruct (Shape.id s =? sel)%string eqn:E; cbn [negb].
  - exact IH.
  - cbn [find]. rewrite E. exact IH.
Qed.

(** The second listener of [window] acts on [+], [=] and [-] only. *)
Lemma handleKeydown_other_key (e : KeyboardEvent.t) (w : World) :
  KeyboardEvent.key e <> "+" -> KeyboardEvent.key e <> "-" ->
  KeyboardEvent.key e <> "=" ->
  Controls.handleKeydown e w = skip.
Proof.
  intros H1 H2 H3. unfold Controls.handleKeydown. cbv zeta.
  apply String.eqb_neq in H1, H2, H3. rewrite H1, H2, H3.
  rewrite andb_false_r. reflexivity.
Qed.

(** A key that the text box does not handle reaches the listeners of
    [window] with the component as it was. *)
Lemma textareaKey_unhandled (c : Component.t) (e : KeyboardEvent.t) :
  KeyboardEvent.key e <> "Escape" ->
  KeyboardEvent.key e <> "Enter" \/ KeyboardEvent.shiftKey e = true ->
  perform (textareaKey e) c = perform [OnCanvas (KeyDown e); CmdKey e] c.
Proof.
  intros Hne H. unfold textareaKey, perform. cbn [fold_left].
  replace (act c (TextareaKeyDown e)) with c; [reflexivity |].
  cbn [act]. unfold Component.fire, handleTextareaKeyDown.
  apply String.eqb_neq in Hne. rewrite Hne.
  destruct H as [H | H].
  - apply String.eqb_neq in H. rewrite H. reflexivity.
  - rewrite H, andb_false_r. reflexivity.
Qed.

Lemma world_keys (c : Component.t) (e : KeyboardEvent.t) :
  KeyboardEvent.key e <> "+" -> KeyboardEvent.key e <> "-" ->
  KeyboardEvent.key e <> "=" ->
  let c' := perform [OnCanvas (KeyDown e); CmdKey e] c in
  world c' = Canvas.fire (handleKeyboardDown e) (world c)
  /\ textValue c' = textValue c
  /\ showTextHelp c' = showTextHelp c
  /\ dragOrigin c' = dragOrigin c.
Proof.
  intros H1 H2 H3 c'. unfold c', perform. cbn [fold_left act].
  unfold lift at 1. cbn [world textValue showTextHelp dragOrigin].
  rewrite (handleKeydown_other_key e _ H1 H2 H3).
  unfold lift. cbn [world textValue showTextHelp dragOrigin dispatch].
  repeat split.
Qed.

(** The two keydown listeners of [window] act on different cells: the
    order in which they were registered does not show. *)
Lemma window_listeners_commute (c : Component.t) (e : KeyboardEvent.t) :
  perform [OnCanvas (KeyDown e); CmdKey e] c
  = perform [CmdKey e; OnCanvas (KeyDown e)] c.
Proof.
  unfold perform. cbn [fold_left act].
  unfold lift. cbn [world textValue showTextHelp dragOrigin dispatch].
  f_equal.
  unfold Controls.handleKeydown. cbv zeta.
  destruct (KeyboardEvent.metaKey e); cbn [andb]; [| reflexivity].
  destruct (KeyboardEvent.key e =? "+")%string eqn:Kp;
    [apply String.eqb_eq in Kp |];
    [| destruct (KeyboardEvent.key e =? "-")%string eqn:Km;
       [apply String.eqb_eq in Km |];
       [| destruct (KeyboardEvent.key e =? "=")%string eqn:Ke;
          [apply String.eqb_eq in Ke | reflexivity]]];
    cbn [orb];
    unfold Canvas.fire, handleKeyboardDown; cbv zeta;
    rewrite ?Kp, ?Km, ?Ke;
    cbn [String.eqb Ascii.eqb Bool.eqb andb orb];
    rewrite ?andb_false_r; cbn [andb orb];
    destruct c as [w0 tv help origin]; cbn [world]; open_world w0;
    destruct (KeyboardEvent.code e =? "Space")%string,
      (KeyboardEvent.code e =? "Escape")%string, et;
    reflexivity.
Qed.

(** X27. A key pressed in the text box is handled by the box and then by
    the two keydown listeners of [window].  Escape (key and code) closes the
    box, keeps shapes, annotations, history, selection and the typed text,
    and ends a drawing session.  Enter without Shift does what
    [handleCompleteTextEdit] does and no more.  Any other key, Shift+Enter
    included, is left to the listeners of [window]: so Delete or Backspace
    typed in the box, with a selected id that is not empty, removes the
    selected shape and its annotations and pushes a history entry, while
    the box stays open with the text typed so far; if the shape removed is
    the text being edited, Enter no longer closes the box.  For Escape and
    Enter the listeners of [window] read nothing of the render they were
    created in, and the order of the two listeners never shows. *)
Theorem textarea_keys (c : Component.t) (e : KeyboardEvent.t) :
  let w := world c in
  let c' := perform (textareaKey e) c in
  let w' := world c' in
  (KeyboardEvent.key e = "Escape" -> KeyboardEvent.code e = "Escape" ->
   editingText (ui w') = None
   /\ showTextHelp c' = false
   /\ textValue c' = textValue c
   /\ shapes (ui w') = shapes (ui w)
   /\ annotations (ui w') = annotations (ui w)
   /\ history w' = history w
   /\ selectedId (ui w') = selectedId (ui w)
   /\ isDrawing (ui w') = false
   /\ continuousDrawing (ui w') = false
   /\ linePoints (ui w') = []
   /\ currentShapeId (ui w') = None)
  /\ (KeyboardEvent.key e = "Enter" -> KeyboardEvent.shiftKey e = false ->
      KeyboardEvent.code e <> "Space" -> KeyboardEvent.code e <> "Escape" ->
      c' = Component.fire handleCompleteTextEdit c)
  /\ (KeyboardEvent.key e <> "Escape" ->
      KeyboardEvent.key e <> "Enter" \/ KeyboardEvent.shiftKey e = true ->
      c' = perform [OnCanvas (KeyDown e); CmdKey e] c)
  /\ (forall sel,
        KeyboardEvent.key e = "Delete" \/ KeyboardEvent.key e = "Backspace" ->
        selectedId (ui w) = Some sel ->
        sel <> "" ->
        shapes (ui w') = removeShape sel (shapes (ui w))
        /\ annotations (ui w') = removeAnnotations sel (annotations (ui w))
        /\ history w'
           = HistoryStore.addHistory
               (HistoryStore.mkState
                  (removeShape sel (shapes (ui w)))
                  (removeAnnotations sel (annotations (ui w))))
               ("删除形状 #" ++ sel)%string (history w)
        /\ selectedId (ui w') = None
        /\ editingText (ui w') = editingText (ui w)
        /\ textValue c' = textValue c
        /\ showTextHelp c' = showTextHelp c
        /\ (editingText (ui w) = Some sel ->
            Component.fire handleCompleteTextEdit c' = c'))
  /\ (KeyboardEvent.key e = "Escape" \/ KeyboardEvent.key e = "Enter" ->
      forall (w1 w2 p : World),
        handleKeyboardDown e w1 p = handleKeyboardDown e w2 p
        /\ Controls.handleKeydown e w1 p = p)
  /\ c' = perform [TextareaKeyDown e; CmdKey e; OnCanvas (KeyDown e)] c.
Proof.
  intros w c' w'.
  split; [| split; [| split; [| split; [| split]]]].
  6:{ unfold c', textareaKey.
      change (perform [OnCanvas (KeyDown e); CmdKey e]
                (act c (TextareaKeyDown e))
              = perform [CmdKey e; OnCanvas (KeyDown e)]
                  (act c (TextareaKeyDown e))).
      apply window_listeners_commute. }
  - intros Hk Hc. unfold w', c', w. clear w c' w'.
    destruct e as [code key ctrl meta shift].
    cbn [KeyboardEvent.key KeyboardEvent.code] in Hk, Hc. subst code key.
    destruct c as [w0 tv help origin]. open_world w0.
    destruct ctrl, meta, et; cbv; repeat split; reflexivity.
  - intros Hk Hs Hc1 Hc2.
    assert (E1 : act c (TextareaKeyDown e)
                 = Component.fire handleCompleteTextEdit c).
    { cbn [act]. unfold Component.fire, handleTextareaKeyDown.
      rewrite Hk, Hs. reflexivity. }
    unfold c', perform, textareaKey. cbn [fold_left]. rewrite E1.
    generalize (Component.fire handleCompleteTextEdit c). intros c1.
    cbn [act].
    rewrite (handleKeydown_other_key e) by (rewrite Hk; discriminate).
    unfold lift. cbn [world textValue showTextHelp dragOrigin dispatch].
    unfold Canvas.fire, handleKeyboardDown. cbv zeta. rewrite Hk.
    apply String.eqb_neq in Hc1, Hc2. rewrite Hc1, Hc2.
    change ("Enter" =? "z")%string with false.
    change ("Enter" =? "y")%string with false.
    change ("Enter" =? "Delete")%string with false.
    change ("Enter" =? "Backspace")%string with false.
    rewrite !andb_false_r. cbn [orb andb]. cbv iota.
    destruct c1 as [w1 tv help origin].
    cbn [world textValue showTextHelp dragOrigin].
    destruct (editingText (ui w1)); reflexivity.
  - intros Hne H. apply textareaKey_unhandled; assumption.
  - intros sel Hkey Hsel Hne.
    assert (K1 : KeyboardEvent.key e <> "+")
      by (destruct Hkey as [K | K]; rewrite K; discriminate).
    assert (K2 : KeyboardEvent.key e <> "-")
      by (destruct Hkey as [K | K]; rewrite K; discriminate).
    assert (K3 : KeyboardEvent.key e <> "=")
      by (destruct Hkey as [K | K]; rewrite K; discriminate).
    assert (K4 : KeyboardEvent.key e <> "Escape")
      by (destruct Hkey as [K | K]; rewrite K; discriminate).
    assert (K5 : KeyboardEvent.key e <> "Enter")
      by (destruct Hkey as [K | K]; rewrite K; discriminate).
    unfold w', c'.
    rewrite (textareaKey_unhandled c e K4 (or_introl K5)).
    destruct (world_keys c e K1 K2 K3) as (Hw & Ht & Hh & _).
    rewrite Hw, Ht, Hh.
    destruct (handleKeyboardDown_delete (world c) e sel Hkey Hsel Hne)
      as (Hs & Ha & Hn & He & Hhist).
    fold w in Hs, Ha, Hn, He, Hhist |- *.
    split; [exact Hs |]. split; [exact Ha |]. split; [exact Hhist |].
    split; [exact Hn |]. split; [exact He |].
    split; [reflexivity |]. split; [reflexivity |].
    intros Hed. unfold Component.fire, handleCompleteTextEdit. cbv zeta.
    rewrite Hw. fold w. rewrite He, Hed, Hs, findShape_removeShape.
    reflexivity.
  - intros Hkey w1 w2 p. split.
    + unfold handleKeyboardDown. cbv zeta.
      assert (Hd : ((KeyboardEvent.key e =? "Delete")
                    || (KeyboardEvent.key e =? "Backspace"))%string = false)
        by (destruct Hkey as [K | K]; rewrite K; reflexivity).
      rewrite Hd. cbn [andb].
      destruct (editingText (ui w1)), (editingText (ui w2)); reflexivity.
    + rewrite handleKeydown_other_key;
        [reflexivity | | |];
        destruct Hkey as [K | K]; rewrite K; discriminate.
Qed.

(** The text ["t"] opened again by a double click, which selected it:
    Backspace typed in the box removes the text from the document and
    pushes a history entry; the box stays open. *)
Lemma textarea_keys_example :
  let c := perform MoreExamples.textOpenedAgain Component.initial in
  let c' := perform (textareaKey (Examples.pressed "Backspace")) c in
  (selectedId (ui (world c)) = Some "t"
   /\ editingText (ui (world c)) = Some "t")
  /\ (map Shape.id (shapes (ui (world c))) = ["t"]
      /\ shapes (ui (world c')) = [])
  /\ editingText (ui (world c')) = Some "t"
  /\ (HistoryStore.currentIndex (history (world c')) =
      HistoryStore.currentIndex (history (world c)) + 1)%Z
  /\ Component.fire handleCompleteTextEdit c' = c'.
Proof.
  intros c c'.
  assert (Hsel : selectedId (ui (world c)) = Some "t")
    by (vm_compute; reflexivity).
  assert (Hed : editingText (ui (world c)) = Some "t")
    by (vm_compute; reflexivity).
  assert (Hne : "t" <> "") by discriminate.
  destruct (textarea_keys c (Examples.pressed "Backspace"))
    as (_ & _ & _ & Hdel & _).
  destruct (Hdel "t" (or_intror eq_refl) Hsel Hne)
    as (_ & _ & _ & _ & He & _ & _ & Henter).
  split; [split; [exact Hsel | exact Hed] |].
  split; [split; vm_compute; reflexivity |].
  split; [exact (eq_trans He Hed) |].
  split; [vm_compute; reflexivity | exact (Henter Hed)].
Defined.




(** *** Dragging a line *)

(** X29. A drag of a line or of a brush stroke, from [onDragStart] to
    [onDragEnd], replaces the points of the shapes with its id by its own
    points shifted by the displacement of the node (each coordinate of an
    array of whole points by its component), shifts the annotations of
    that id in the same way, clears the drag origin and pushes no history
    entry; a shape without points is left alone, and [onDragEnd] without a
    drag origin leaves the world as it is. *)
Theorem line_drag_translates (c : Component.t) (shape : Shape.t)
  (startX startY endX endY : JS.number) :
  let id := Shape.id shape in
  let w := world c in
  let c1 := Component.fire (lineDragStart shape startX startY) c in
  let c2 := Component.fire (lineDragEnd shape endX endY) c1 in
  let dx := endX - startX in
  let dy := endY - startY in
  dragOrigin c2 = None
  /\ history (world c2) = history w
  /\ match Shape.points shape with
     | None => world c2 = w
     | Some points =>
         shapes (ui (world c2))
         = updateShape id
             (Shape.with_points (Dragging.shiftPairs dx dy points))
             (shapes (ui w))
         /\ (Nat.even (List.length points) = true ->
             forall k v,
               nth_error points k = Some v ->
               nth_error (Dragging.shiftPairs dx dy points) k
               = Some (if (Z.of_nat k mod 2 =? 0)%Z
                       then v + dx else v + dy))
         /\ annotations (ui (world c2))
            = Dragging.updateAnnotationsOf id
                (Dragging.shiftAnnotation dx dy) (annotations (ui w))
     end
  /\ (dragOrigin c = None ->
      world (Component.fire (lineDragEnd shape endX endY) c) = w).
Proof.
  intros id w c1 c2 dx dy.
  unfold c2, c1, Component.fire, lineDragEnd, lineDragStart. cbv zeta.
  cbn [dragOrigin world setDragOrigin DragOrigin.id DragOrigin.points
       DragOrigin.x DragOrigin.y].
  rewrite String.eqb_refl.
  split; [destruct (Shape.points shape); reflexivity |].
  split; [destruct (Shape.points shape); reflexivity |].
  split.
  - destruct (Shape.points shape) as [points |]; [| reflexivity].
    split; [reflexivity |]. split; [| reflexivity].
    intros He. apply DraggingFacts.shiftPairs_nth, He.
  - intros H. rewrite H. reflexivity.
Qed.

(** *** Dragging a curve *)

(** X30. A drag of a curve, from [onDragStart] to [onDragEnd], shifts every
    anchor by the displacement of the node, together with the control
    handles that are defined, keeps the path being edited equal to the
    moved anchors when the curve is the one being drawn, pushes one
    history entry (whose snapshot is the document before the move) and
    leaves the annotations where they were; the drag origin is
    cleared. *)
Theorem curve_drag_translates (c : Component.t) (shape : Shape.t)
  (startX startY endX endY : JS.number) :
  let id := Shape.id shape in
  let w := world c in
  let c1 := Component.fire (bezierDragStart shape startX startY) c in
  let c2 := Component.fire (bezierDragEnd shape endX endY) c1 in
  let dx := endX - startX in
  let dy := endY - startY in
  dragOrigin c2 = None
  /\ annotations (ui (world c2)) = annotations (ui w)
  /\ match Shape.bezierPoints shape with
     | None => world c2 = w
     | Some points =>
         let moved := map (shiftBezierPoint dx dy) points in
         shapes (ui (world c2))
         = updateShape id (Shape.with_bezierPoints moved) (shapes (ui w))
         /\ (forall k p, nth_error points k = Some p ->
               exists p',
                 nth_error moved k = Some p'
                 /\ BezierPoint.x p' = BezierPoint.x p + dx
                 /\ BezierPoint.y p' = BezierPoint.y p + dy
                 /\ (BezierPoint.controlX1 p' = None
                     <-> BezierPoint.controlX1 p = None)
                 /\ (BezierPoint.controlX2 p' = None
                     <-> BezierPoint.controlX2 p = None))
         /\ history (world c2)
            = HistoryStore.addHistory
                (HistoryStore.mkState (shapes (ui w)) (annotations (ui w)))
                ("移动曲线路径 #" ++ id)%string (history w)
         /\ (isDrawing (ui w) = true -> currentShapeId (ui w) = Some id ->
             currentPath (ui (world c2)) = moved)
         /\ (isDrawing (ui w) = false \/ currentShapeId (ui w) = None ->
             currentPath (ui (world c2)) = currentPath (ui w))
     end.
Proof.
  intros id w c1 c2 dx dy.
  unfold c2, c1, Component.fire, bezierDragEnd, bezierDragStart. cbv zeta.
  cbn [dragOrigin world setDragOrigin DragOrigin.id DragOrigin.points
       DragOrigin.x DragOrigin.y].
  rewrite String.eqb_refl. fold id w dx dy.
  destruct (Shape.bezierPoints shape) as [points |];
    [| repeat split; reflexivity].
  split; [destruct (isDrawing (ui w)
                    && match currentShapeId (ui w) with
                       | Some cid => (cid =? id)%string
                       | None => false
                       end); reflexivity |].
  split; [destruct (isDrawing (ui w)
                    && match currentShapeId (ui w) with
                       | Some cid => (cid =? id)%string
                       | None => false
                       end); reflexivity |].
  split; [destruct (isDrawing (ui w)
                    && match currentShapeId (ui w) with
                       | Some cid => (cid =? id)%string
                       | None => false
                       end); reflexivity |].
  split.
  { intros k p Hk. exists (shiftBezierPoint dx dy p).
    split; [apply map_nth_error, Hk |].
    unfold shiftBezierPoint.
    cbn [BezierPoint.x BezierPoint.y BezierPoint.controlX1
         BezierPoint.controlX2].
    split; [reflexivity |]. split; [reflexivity |].
    destruct (BezierPoint.controlX1 p), (BezierPoint.controlX2 p);
      cbn [option_map]; repeat split; intros; congruence. }
  split; [destruct (isDrawing (ui w)
                    && match currentShapeId (ui w) with
                       | Some cid => (cid =? id)%string
                       | None => false
                       end); reflexivity |].
  split.
  - intros Hd Hc. rewrite Hd, Hc, String.eqb_refl. reflexivity.
  - intros [H | H]; rewrite H; [reflexivity |].
    rewrite andb_false_r. reflexivity.
Qed.

End ComponentFacts.
